(** * VDSAukcion: registration / confirmation engine of the auction bot

    Shallow embedding of [VDSAukcion.py].  The Telegram transport (message
    rendering, callback-data encoding) is left out: every handler is a function
    from the decoded inbound event and the module state ([admins],
    [photos_data], the per-user [user_data]) to the new state and a typed
    reply that names the branch of the handler which answered. *)

From stdpp Require Import base option list gmap strings pretty.

Local Open Scope Z_scope.

(** ** Python values *)

(** A Python [str] is a sequence of Unicode code points; [len] is [length]. *)
Abbreviation pystr := (list N).

(** Code points the source names literally. *)
Definition ch_space : N := 32%N.
Definition ch_quot  : N := 34%N.   (* double quote *)
Definition ch_amp   : N := 38%N.   (* ampersand *)
Definition ch_apos  : N := 39%N.   (* apostrophe *)
Definition ch_minus : N := 45%N.   (* hyphen *)
Definition ch_dot   : N := 46%N.   (* full stop *)
Definition ch_lt    : N := 60%N.   (* less-than *)
Definition ch_gt    : N := 62%N.   (* greater-than *)
Definition ch_hash  : N := 35%N.
Definition ch_semi  : N := 59%N.

(** ** Constants *)

Definition MAX_CONFIRMED_USERS : nat := 4.

(** ** Rank assigner: [get_user_icon] *)

Definition icon_sun       : pystr := [0x2600; 0xFE0F]%N.   (* sun *)
Definition icon_sun_cloud : pystr := [0x1F324; 0xFE0F]%N.  (* sun behind small cloud *)
Definition icon_moon      : pystr := [0x1F319]%N.          (* crescent moon *)
Definition icon_star      : pystr := [0x2B50]%N.           (* star *)
Definition icon_person    : pystr := [0x1F464]%N.          (* bust in silhouette *)

Definition get_user_icon (index : Z) : pystr :=
  if index =? 0 then icon_sun
  else if index =? 1 then icon_sun_cloud
  else if index =? 2 then icon_moon
  else if index =? 3 then icon_star
  else icon_person.

(** The two symbol families of the start message (the first 2 participants get
    the sun icon, the next 2 the moon icon) and the generic symbol. *)
Inductive family := Daytime | Nighttime | Participant.

Definition family_of (icon : pystr) : option family :=
  if decide (icon = icon_sun) then Some Daytime
  else if decide (icon = icon_sun_cloud) then Some Daytime
  else if decide (icon = icon_moon) then Some Nighttime
  else if decide (icon = icon_star) then Some Nighttime
  else if decide (icon = icon_person) then Some Participant
  else None.

(** ** Data model *)

(** An element of the list under the key confirmed_users: a dict with the
    keys user_id and name. *)
Record confirmed_user := ConfirmedUser { user_id : Z; name : pystr }.

#[global] Instance confirmed_user_eq_dec : EqDecision confirmed_user.
Proof. solve_decision. Defined.

(** A value of [photos_data]: a dict whose four keys may each be absent
    (entries read back from the file carry neither users nor confirmed_users).
    For the two media keys the inner [option] is Python's [None]
    (JSON [null]) against a string. *)
Record photo_entry := PhotoEntry {
  photo : option (option string);
  photo_file_unique_id : option (option string);
  users : option (gmap Z pystr);
  confirmed_users : option (list confirmed_user)
}.

(** The reads [photo_data.get(users, {})] and
    [photo_data.get(confirmed_users, [])]: the registered set and the
    confirmed sequence. *)
Definition get_users (d : photo_entry) : gmap Z pystr := default ∅ (users d).
Definition get_confirmed (d : photo_entry) : list confirmed_user :=
  default [] (confirmed_users d).

(** The reads [data.get(photo)] and [data.get(photo_file_unique_id)]. *)
Definition get_photo (d : photo_entry) : option string := mjoin (photo d).
Definition get_unique_id (d : photo_entry) : option string :=
  mjoin (photo_file_unique_id d).

(** [any(u[user_id] == uid for u in l)] *)
Definition is_confirmed_in (uid : Z) (l : list confirmed_user) : bool :=
  existsb (λ u, user_id u =? uid) l.

(** [[user for user in l if user[user_id] != uid]] *)
Definition remove_confirmed (uid : Z) (l : list confirmed_user) : list confirmed_user :=
  List.filter (λ u, negb (user_id u =? uid)) l.

(** [next((i for i, u in enumerate(l) if u[user_id] == uid), -1)] *)
Fixpoint position_from (i : Z) (uid : Z) (l : list confirmed_user) : Z :=
  match l with
  | [] => -1
  | u :: l' => if user_id u =? uid then i else position_from (i + 1) uid l'
  end.
Definition position_of (uid : Z) (l : list confirmed_user) : Z := position_from 0 uid l.

(** Truth value of a Python [str]: [not s] holds for the empty string. *)
Definition str_falsy (s : pystr) : bool := match s with [] => true | _ => false end.

Definition set_users (d : photo_entry) (us : gmap Z pystr) : photo_entry :=
  {| photo := photo d; photo_file_unique_id := photo_file_unique_id d;
     users := Some us; confirmed_users := confirmed_users d |}.

Definition set_confirmed (d : photo_entry) (l : list confirmed_user) : photo_entry :=
  {| photo := photo d; photo_file_unique_id := photo_file_unique_id d;
     users := users d; confirmed_users := Some l |}.

(** ** Replies

    The handlers answer with message texts; a reply names the branch that
    produced the answer.  The failure branches carry the error of the
    taxonomy they stand for. *)

Inductive error :=
  | AlreadyRegistered | NotRegistered | AlreadyConfirmed | NotConfirmed
  | CapacityFull | Forbidden | AlreadyModerator | NotModerator
  | LastModerator | SelfRemoval | ItemNotFound
  | EmptyName | NameTooLong | NameTooShort | InvalidCharacters
  | UsageError | BadNumber | NothingStored
  | KeyError.    (* the interpreter raised on a missing dict key *)

Inductive reply :=
  | Failed (e : error)
  | Ignored                                        (* returned without an answer *)
  | NamePrompted                                   (* register button *)
  | SavedAutoConfirmed (position : Z) (icon : pystr)
  | SavedAlreadyConfirmed (position : Z)
  | SavedWaiting
  | Confirmed (position : Z) (icon : pystr)
  | NameDeleted (user_name : pystr)
  | ConfirmationRemoved (after_count : nat)
  | ParticipantDeleted (confirm_removed user_removed : bool)
  | NamesCleared (photos_affected users_cleared confirmations_cleared : nat)
  | NoParticipantData
  | AllReset (count : nat)
  | PhotoAdded (photo_id : string)
  | FirstAdmin | AdminHelp | Greeting
  | AdminAdded | AdminRemoved.

#[global] Instance error_eq_dec : EqDecision error.
Proof. solve_decision. Defined.
#[global] Instance reply_eq_dec : EqDecision reply.
Proof. solve_decision. Defined.

(** ** Engine operations on one item *)

(** [handle_text], lines 1549-1602: store the sanitized name, then try to
    confirm the participant automatically. *)
Definition store_name (d : photo_entry) (uid : Z) (user_name_safe : pystr)
  : photo_entry * reply :=
  let us := <[uid := user_name_safe]> (get_users d) in
  let cs := get_confirmed d in
  let confirmed_count := Z.of_nat (length cs) in
  let user_already_confirmed := is_confirmed_in uid cs in
  if negb user_already_confirmed && (confirmed_count <? Z.of_nat MAX_CONFIRMED_USERS) then
    let cs' := cs ++ [ConfirmedUser uid user_name_safe] in
    let confirmed_count := confirmed_count + 1 in
    let position := confirmed_count - 1 in
    (set_confirmed (set_users d us) cs', SavedAutoConfirmed position (get_user_icon position))
  else if user_already_confirmed then
    (set_confirmed (set_users d us) cs, SavedAlreadyConfirmed (position_of uid cs))
  else
    (set_confirmed (set_users d us) cs, SavedWaiting).

(** [button_handler], action confirm (lines 1397-1445). *)
Definition confirm (d : photo_entry) (uid : Z) : photo_entry * reply :=
  match get_users d !! uid with
  | None => (d, Failed NotRegistered)
  | Some user_name =>
    if Z.of_nat MAX_CONFIRMED_USERS <=? Z.of_nat (length (get_confirmed d)) then
      (d, Failed CapacityFull)
    else if is_confirmed_in uid (get_confirmed d) then
      (d, Failed AlreadyConfirmed)
    else
      let cs' := get_confirmed d ++ [ConfirmedUser uid user_name] in
      let position := Z.of_nat (length cs') - 1 in
      (set_confirmed d cs', Confirmed position (get_user_icon position))
  end.

(** The two removals shared by [confirm_delete_] and [admindeleteok_]:
    filter the confirmed list when the key is there, delete the name when
    the key is there and holds the user. *)
Definition drop_confirmation (d : photo_entry) (uid : Z) : photo_entry :=
  match confirmed_users d with
  | Some cs => set_confirmed d (remove_confirmed uid cs)
  | None => d
  end.

Definition drop_name (d : photo_entry) (uid : Z) : photo_entry * bool :=
  match users d with
  | Some us =>
    match us !! uid with
    | Some _ => (set_users d (delete uid us), true)
    | None => (d, false)
    end
  | None => (d, false)
  end.

(** [button_handler], prefix confirm_delete_ (lines 1300-1356): the
    participant removes the own name. *)
Definition confirm_delete (d : photo_entry) (uid : Z) : photo_entry * reply :=
  match get_users d !! uid with
  | None => (d, Failed NotRegistered)
  | Some user_name =>
    if str_falsy user_name then (d, Failed NotRegistered)
    else
      let d1 := drop_confirmation d uid in
      let d2 := (drop_name d1 uid).1 in
      (d2, NameDeleted user_name)
  end.

(** [button_handler], prefix admindeleteok_ (lines 992-1030). *)
Definition admin_delete (d : photo_entry) (target_user_id : Z) : photo_entry * reply :=
  match get_users d !! target_user_id with
  | None => (d, Failed NotRegistered)
  | Some user_name =>
    if str_falsy user_name then (d, Failed NotRegistered)
    else
      let before_confirm_count := length (get_confirmed d) in
      let d1 := drop_confirmation d target_user_id in
      let confirm_removed :=
        match confirmed_users d with
        | Some _ => bool_decide (length (get_confirmed d1) < before_confirm_count)%nat
        | None => false
        end in
      let '(d2, user_removed) := drop_name d1 target_user_id in
      (d2, ParticipantDeleted confirm_removed user_removed)
  end.

(** [button_handler], prefix adminunconfirmok_ (lines 1049-1080).  The
    confirmed list is read by subscript, so an entry without that key raises;
    the filtered list is stored before the count comparison. *)
Definition admin_unconfirm (d : photo_entry) (target_user_id : Z) : photo_entry * reply :=
  match get_users d !! target_user_id with
  | None => (d, Failed NotRegistered)
  | Some user_name =>
    if str_falsy user_name then (d, Failed NotRegistered)
    else
      let before_count := length (get_confirmed d) in
      match confirmed_users d with
      | None => (d, Failed KeyError)
      | Some cs =>
        let d1 := set_confirmed d (remove_confirmed target_user_id cs) in
        let after_count := length (get_confirmed d1) in
        if bool_decide (before_count = after_count) then (d1, Failed NotConfirmed)
        else (d1, ConfirmationRemoved after_count)
      end
  end.

(** [clear_names], body of the loop (lines 469-477): an item with a
    non-empty registered set or confirmed list gets both emptied. *)
Definition entry_has_names (d : photo_entry) : bool :=
  negb (bool_decide (get_users d = ∅)) || negb (bool_decide (get_confirmed d = [])).

Definition clear_entry (d : photo_entry) : photo_entry :=
  if entry_has_names d then set_confirmed (set_users d ∅) [] else d.

(** ** Name validation and sanitization ([handle_text], lines 1497-1547) *)

(** An ASCII literal as a Python string. *)
Definition lit (s : string) : pystr :=
  List.map Ascii.N_of_ascii (String.list_ascii_of_string s).

(** [escape_map.get(c, c)] *)
Definition escape_char (c : N) : pystr :=
  if (c =? ch_amp)%N then lit "&amp;"
  else if (c =? ch_lt)%N then lit "&lt;"
  else if (c =? ch_gt)%N then lit "&gt;"
  else if (c =? ch_quot)%N then lit "&quot;"
  else if (c =? ch_apos)%N then lit "&#39;"
  else [c].

Definition escape_html (text : pystr) : pystr := flat_map escape_char text.

(** [re.sub(r'<[^>]+>', '', s)].  The scan keeps, while inside a candidate
    tag, the characters read since its opening bracket: a closing bracket
    after at least one character drops them all, a closing bracket right
    after the opening one or the end of the text gives them back. *)
Fixpoint strip_tags_from (pending : option pystr) (s : pystr) : pystr :=
  match s with
  | [] => match pending with None => [] | Some buf => ch_lt :: buf end
  | c :: rest =>
    match pending with
    | None =>
      if (c =? ch_lt)%N then strip_tags_from (Some []) rest
      else c :: strip_tags_from None rest
    | Some buf =>
      if (c =? ch_gt)%N then
        match buf with
        | [] => ch_lt :: ch_gt :: strip_tags_from None rest
        | _ => strip_tags_from None rest
        end
      else strip_tags_from (Some (buf ++ [c])) rest
    end
  end.

Definition strip_tags (s : pystr) : pystr := strip_tags_from None s.

(** [' '.join(words)] *)
Fixpoint join_space (words : list pystr) : pystr :=
  match words with
  | [] => []
  | [w] => w
  | w :: ws => w ++ ch_space :: join_space ws
  end.

Section Sanitize.
(** The interpreter's Unicode tables, which are not part of the
    repository: [is_space c] for [c.isspace()] (used by [strip], [split]
    and the class [\s]) and [is_alnum c] for [c.isalnum()] (the class
    [\w] is [is_alnum] plus the underscore). *)
Variable is_space : N → bool.
Variable is_alnum : N → bool.

Fixpoint lstrip (s : pystr) : pystr :=
  match s with
  | [] => []
  | c :: rest => if is_space c then lstrip rest else s
  end.

(** [s.strip()] *)
Definition strip (s : pystr) : pystr := rev (lstrip (rev (lstrip s))).

(** [s.split()]: maximal runs of non-space characters. *)
Fixpoint split_from (cur : pystr) (s : pystr) : list pystr :=
  match s with
  | [] => match cur with [] => [] | _ => [cur] end
  | c :: rest =>
    if is_space c then
      match cur with
      | [] => split_from [] rest
      | _ => cur :: split_from [] rest
      end
    else split_from (cur ++ [c]) rest
  end.

Definition split (s : pystr) : list pystr := split_from [] s.

(** The characters kept by [re.sub(r'[^\w\s\-\.\'\u0400-\u04FF]', '', s)]. *)
Definition allowed_char (c : N) : bool :=
  is_alnum c || (c =? 95)%N || is_space c
  || (c =? ch_minus)%N || (c =? ch_dot)%N || (c =? ch_apos)%N
  || ((0x400 <=? c)%N && (c <=? 0x4FF)%N).

(** Steps 3 to 5: tags removed, characters restricted, spaces collapsed. *)
Definition clean_name (user_name : pystr) : pystr :=
  join_space (split (List.filter allowed_char (strip_tags user_name))).

(** The whole validation: the error of the first failing check, or the
    name that is stored ([user_name_safe]). *)
Definition sanitize_name (text : pystr) : error + pystr :=
  let user_name := strip text in
  if str_falsy user_name then inl EmptyName
  else if (20 <? length user_name)%nat then inl NameTooLong
  else if (length user_name <? 2)%nat then inl NameTooShort
  else
    let user_name_clean := clean_name user_name in
    if str_falsy user_name_clean then inl InvalidCharacters
    else
      let user_name_clean :=
        if (20 <? length user_name_clean)%nat then take 20 user_name_clean
        else user_name_clean in
      inr (escape_html user_name_clean).
End Sanitize.

(** The ASCII rows of the two tables, for evaluating the handlers on ASCII
    input. *)
Definition ascii_isspace (c : N) : bool :=
  ((9 <=? c) && (c <=? 13) || (28 <=? c) && (c <=? 32))%N.

Definition ascii_isalnum (c : N) : bool :=
  ((48 <=? c) && (c <=? 57) || (65 <=? c) && (c <=? 90) || (97 <=? c) && (c <=? 122))%N.

(** ** Durable storage of the items *)

(** [save_photos_data]: what is written to the file, one object per item
    with the two media keys only (the write is assumed to succeed; a failed
    write is logged and changes nothing in memory). *)
Definition saved_entry (data : photo_entry) : photo_entry :=
  {| photo := Some (get_photo data);
     photo_file_unique_id := Some (get_unique_id data);
     users := None; confirmed_users := None |}.

Definition save_photos_data (photos : gmap string photo_entry)
  : gmap string photo_entry :=
  saved_entry <$> photos.

(** [load_photos_data]: [None] is a missing or unreadable file.  Participant
    keys found in the file are emptied, objects without the photo key are
    skipped. *)
Definition loaded_entry (data : photo_entry) : photo_entry :=
  {| photo := photo data;
     photo_file_unique_id := photo_file_unique_id data;
     users := (λ _, ∅) <$> users data;
     confirmed_users := (λ _, []) <$> confirmed_users data |}.

Definition load_photos_data (file : option (gmap string photo_entry))
  : gmap string photo_entry :=
  match file with
  | Some content =>
    filter (λ kv, is_Some (photo kv.2)) (loaded_entry <$> content)
  | None => ∅
  end.

(** [load_admins] *)
Definition load_admins (file : option (list Z)) : gset Z :=
  match file with
  | Some data => list_to_set data
  | None => ∅
  end.

(** ** The bot: module state and handlers *)

(** [user_data] holds, per user, the pair stored by the register button
    under the keys awaiting_name and awaiting_user_id. *)
Record bot_state := BotState {
  admins : gset Z;
  photos_data : gmap string photo_entry;
  user_data : gmap Z (string * Z)
}.

Definition with_admins (s : bot_state) (a : gset Z) : bot_state :=
  {| admins := a; photos_data := photos_data s; user_data := user_data s |}.
Definition with_photos (s : bot_state) (p : gmap string photo_entry) : bot_state :=
  {| admins := admins s; photos_data := p; user_data := user_data s |}.
Definition with_user_data (s : bot_state) (u : gmap Z (string * Z)) : bot_state :=
  {| admins := admins s; photos_data := photos_data s; user_data := u |}.

Definition is_admin (s : bot_state) (uid : Z) : bool := bool_decide (uid ∈ admins s).

(** The argument of /add_admin and /remove_admin: none, one that [int]
    rejects, or a number. *)
Inductive cmd_arg := NoArg | NotANumber | Number (n : Z).

(** [start]: the first user ever becomes administrator. *)
Definition start (s : bot_state) (uid : Z) : bot_state * reply :=
  if bool_decide (admins s = ∅) then (with_admins s ({[uid]} ∪ admins s), FirstAdmin)
  else if is_admin s uid then (s, AdminHelp)
  else (s, Greeting).

Definition add_admin (s : bot_state) (uid : Z) (arg : cmd_arg) : bot_state * reply :=
  if negb (is_admin s uid) then (s, Failed Forbidden)
  else match arg with
  | NoArg => (s, Failed UsageError)
  | NotANumber => (s, Failed BadNumber)
  | Number new_admin_id =>
    if bool_decide (new_admin_id ∈ admins s) then (s, Failed AlreadyModerator)
    else (with_admins s ({[new_admin_id]} ∪ admins s), AdminAdded)
  end.

Definition remove_admin (s : bot_state) (uid : Z) (arg : cmd_arg) : bot_state * reply :=
  if negb (is_admin s uid) then (s, Failed Forbidden)
  else match arg with
  | NoArg => (s, Failed UsageError)
  | NotANumber => (s, Failed BadNumber)
  | Number admin_to_remove =>
    if negb (bool_decide (admin_to_remove ∈ admins s)) then (s, Failed NotModerator)
    else if bool_decide (size (admins s) ≤ 1)%nat then (s, Failed LastModerator)
    else if bool_decide (admin_to_remove = uid) then (s, Failed SelfRemoval)
    else (with_admins s (admins s ∖ {[admin_to_remove]}), AdminRemoved)
  end.

(** [f"photo_{len(photos_data) + 1}"] *)
Definition next_photo_id (photos : gmap string photo_entry) : string :=
  "photo_" +:+ pretty (size photos + 1)%nat.

Definition new_entry (file_id file_unique_id : string) : photo_entry :=
  {| photo := Some (Some file_id);
     photo_file_unique_id := Some (Some file_unique_id);
     users := Some ∅; confirmed_users := Some [] |}.

Definition handle_photo (s : bot_state) (uid : Z) (file_id file_unique_id : string)
  : bot_state * reply :=
  if negb (is_admin s uid) then (s, Failed Forbidden)
  else
    let photo_id := next_photo_id (photos_data s) in
    (with_photos s (<[photo_id := new_entry file_id file_unique_id]> (photos_data s)),
     PhotoAdded photo_id).

(** [clear_names] *)
Definition clear_names (s : bot_state) (uid : Z) : bot_state * reply :=
  if negb (is_admin s uid) then (s, Failed Forbidden)
  else if bool_decide (photos_data s = ∅) then (s, Failed NothingStored)
  else
    let touched := List.filter entry_has_names (map_to_list (photos_data s)).*2 in
    let total_users_cleared := sum_list ((λ d, size (get_users d)) <$> touched) in
    let total_confirmations_cleared :=
      sum_list ((λ d, length (get_confirmed d)) <$> touched) in
    let photos_affected := length touched in
    (with_photos s (clear_entry <$> photos_data s),
     if bool_decide (0 < photos_affected)%nat
     then NamesCleared photos_affected total_users_cleared total_confirmations_cleared
     else NoParticipantData).

(** The callback data of the buttons that change the state, decoded. *)
Inductive callback :=
  | ConfirmResetAll
  | AdminDeleteOk (photo_id : string) (target_user_id : Z)
  | AdminUnconfirmOk (photo_id : string) (target_user_id : Z)
  | ConfirmDelete (photo_id : string)
  | RegisterName (photo_id : string)
  | ConfirmName (photo_id : string).

(** Run an operation of one item on the entry stored under [photo_id]. *)
Definition on_entry (s : bot_state) (photo_id : string)
    (op : photo_entry → photo_entry * reply) : bot_state * reply :=
  match photos_data s !! photo_id with
  | None => (s, Failed ItemNotFound)
  | Some photo_data =>
    let '(photo_data', r) := op photo_data in
    (with_photos s (<[photo_id := photo_data']> (photos_data s)), r)
  end.

Definition button_handler (s : bot_state) (uid : Z) (data : callback)
  : bot_state * reply :=
  match data with
  | ConfirmResetAll =>
    if negb (is_admin s uid) then (s, Failed Forbidden)
    else (with_photos s ∅, AllReset (size (photos_data s)))
  | AdminDeleteOk photo_id target_user_id =>
    if negb (is_admin s uid) then (s, Failed Forbidden)
    else on_entry s photo_id (λ d, admin_delete d target_user_id)
  | AdminUnconfirmOk photo_id target_user_id =>
    if negb (is_admin s uid) then (s, Failed Forbidden)
    else on_entry s photo_id (λ d, admin_unconfirm d target_user_id)
  | ConfirmDelete photo_id =>
    on_entry s photo_id (λ d, confirm_delete d uid)
  | RegisterName photo_id =>
    match photos_data s !! photo_id with
    | None => (s, Failed ItemNotFound)
    | Some photo_data =>
      match get_users photo_data !! uid with
      | Some _ => (s, Failed AlreadyRegistered)
      | None =>
        (with_user_data s (<[uid := (photo_id, uid)]> (user_data s)), NamePrompted)
      end
    end
  | ConfirmName photo_id =>
    on_entry s photo_id (λ d, confirm d uid)
  end.

Section Bot.
Variable is_space : N → bool.
Variable is_alnum : N → bool.

(** [handle_text]: the pending registration of the sender, if any, is
    taken out of [user_data] first; every later check returns without
    touching the items. *)
Definition handle_text (s : bot_state) (sender : Z) (text : pystr)
  : bot_state * reply :=
  match user_data s !! sender with
  | None => (s, Ignored)
  | Some (photo_id, uid) =>
    let s := with_user_data s (delete sender (user_data s)) in
    match photos_data s !! photo_id with
    | None => (s, Failed ItemNotFound)
    | Some photo_data =>
      match sanitize_name is_space is_alnum text with
      | inl e => (s, Failed e)
      | inr user_name_safe =>
        let '(photo_data', r) := store_name photo_data uid user_name_safe in
        (with_photos s (<[photo_id := photo_data']> (photos_data s)), r)
      end
    end
  end.

Inductive event :=
  | CmdStart (uid : Z)
  | CmdAddAdmin (uid : Z) (arg : cmd_arg)
  | CmdRemoveAdmin (uid : Z) (arg : cmd_arg)
  | CmdClearNames (uid : Z)
  | MsgPhoto (uid : Z) (file_id file_unique_id : string)
  | MsgText (uid : Z) (text : pystr)
  | Button (uid : Z) (data : callback).

Definition step (s : bot_state) (e : event) : bot_state * reply :=
  match e with
  | CmdStart uid => start s uid
  | CmdAddAdmin uid arg => add_admin s uid arg
  | CmdRemoveAdmin uid arg => remove_admin s uid arg
  | CmdClearNames uid => clear_names s uid
  | MsgPhoto uid file_id file_unique_id => handle_photo s uid file_id file_unique_id
  | MsgText uid text => handle_text s uid text
  | Button uid data => button_handler s uid data
  end.

(** The state after a sequence of events, and the replies given. *)
Fixpoint run (s : bot_state) (es : list event) : bot_state * list reply :=
  match es with
  | [] => (s, [])
  | e :: es' =>
    let '(s1, r) := step s e in
    let '(s2, rs) := run s1 es' in
    (s2, r :: rs)
  end.

(** [main]: the state the process starts with. *)
Definition initial_state (admins_file : option (list Z))
    (photos_file : option (gmap string photo_entry)) : bot_state :=
  {| admins := load_admins admins_file;
     photos_data := load_photos_data photos_file;
     user_data := ∅ |}.
End Bot.

(** * Further handlers

    The handlers and helpers that read the state: the keyboard under a
    photo, the dialogs that precede a removal, the participant views, the
    preview of a reset, and the file of the administrators. *)

(** ** The file of the administrators *)

(** [save_admins]: the list written to the file (the write is assumed to
    succeed). *)
Definition save_admins (s : bot_state) : list Z := elements (admins s).

(** ** The keyboard under a photo: [get_photo_keyboard] *)

(** [photos_data.get(photo_id, {})]: an unknown photo reads as an empty
    dict. *)
Definition no_entry : photo_entry :=
  {| photo := None; photo_file_unique_id := None;
     users := None; confirmed_users := None |}.

(** The text of the status row: confirmed with icon and place (the
    position plus one), all places taken, or name recorded. *)
Inductive status_text :=
  | StatusConfirmed (icon : pystr) (place : Z)
  | StatusFull
  | StatusNameRecorded.

Inductive button :=
  | RegisterButton (photo_id : string)
  | DeleteMyNameButton (photo_id : string)
  | ConfirmButton (photo_id : string)
  | StatusButton (text : status_text) (photo_id : string)
  | ShowButton (photo_id : string)
  | AdminManageButton (photo_id : string).

#[global] Instance status_text_eq_dec : EqDecision status_text.
Proof. solve_decision. Defined.
#[global] Instance button_eq_dec : EqDecision button.
Proof. solve_decision. Defined.

(** The caller may pass no user ([user_id=None]); [None] is in no dict
    and equals no stored identity. *)
Definition user_in_users (d : photo_entry) (user_id : option Z) : bool :=
  match user_id with
  | Some uid => bool_decide (is_Some (get_users d !! uid))
  | None => false
  end.

Definition user_in_confirmed (d : photo_entry) (user_id : option Z) : bool :=
  match user_id with
  | Some uid => is_confirmed_in uid (get_confirmed d)
  | None => false
  end.

(** [user_id and is_admin(user_id)]: a missing user and the identity 0
    are falsy. *)
Definition truthy_admin (s : bot_state) (user_id : option Z) : bool :=
  match user_id with
  | Some uid => negb (uid =? 0) && is_admin s uid
  | None => false
  end.

Definition keyboard_status (photo_data : photo_entry) (user_id : option Z)
  : option status_text :=
  let confirmed_count := Z.of_nat (length (get_confirmed photo_data)) in
  let user_has_registered := user_in_users photo_data user_id in
  let user_has_confirmed := user_in_confirmed photo_data user_id in
  if user_has_confirmed then
    match user_id with
    | Some uid =>
      let user_position := position_of uid (get_confirmed photo_data) in
      if 0 <=? user_position
      then Some (StatusConfirmed (get_user_icon user_position) (user_position + 1))
      else None
    | None => None
    end
  else if user_has_registered && (Z.of_nat MAX_CONFIRMED_USERS <=? confirmed_count)
  then Some StatusFull
  else if user_has_registered then Some StatusNameRecorded
  else None.

Definition get_photo_keyboard (s : bot_state) (photo_id : string)
    (user_id : option Z) : list button :=
  let photo_data := default no_entry (photos_data s !! photo_id) in
  let confirmed_count := Z.of_nat (length (get_confirmed photo_data)) in
  let user_has_registered := user_in_users photo_data user_id in
  let user_has_confirmed := user_in_confirmed photo_data user_id in
  (if negb user_has_registered then [RegisterButton photo_id]
   else [DeleteMyNameButton photo_id])
  ++ (if user_has_registered && negb user_has_confirmed
         && (confirmed_count <? Z.of_nat MAX_CONFIRMED_USERS)
      then [ConfirmButton photo_id] else [])
  ++ match keyboard_status photo_data user_id with
     | Some text => [StatusButton text photo_id]
     | None => []
     end
  ++ [ShowButton photo_id]
  ++ (if truthy_admin s user_id then [AdminManageButton photo_id] else []).

(** ** The dialogs before a removal *)

(** A dialog handler either refuses or asks for the confirmation of the
    action, naming the participant. *)
Inductive dialog :=
  | Refused (e : error)
  | Asked (user_name : pystr).

#[global] Instance dialog_eq_dec : EqDecision dialog.
Proof. solve_decision. Defined.

(** The guard shared by the dialogs: the photo is known and the target has
    a (truthy) name on it. *)
Definition named_on (s : bot_state) (photo_id : string) (target : Z)
    (k : photo_entry → pystr → dialog) : dialog :=
  match photos_data s !! photo_id with
  | None => Refused ItemNotFound
  | Some photo_data =>
    match get_users photo_data !! target with
    | None => Refused NotRegistered
    | Some user_name =>
      if str_falsy user_name then Refused NotRegistered
      else k photo_data user_name
    end
  end.

(** [button_handler], prefix delete_my_name_ (lines 1269-1298). *)
Definition delete_my_name (s : bot_state) (uid : Z) (photo_id : string) : dialog :=
  named_on s photo_id uid (λ _ user_name, Asked user_name).

(** [button_handler], prefix admindelete_ (lines 1082-1128). *)
Definition admindelete (s : bot_state) (uid : Z) (photo_id : string)
    (target_user_id : Z) : dialog :=
  if negb (is_admin s uid) then Refused Forbidden
  else named_on s photo_id target_user_id (λ _ user_name, Asked user_name).

(** [button_handler], prefix adminunconfirm_ (lines 1130-1183). *)
Definition adminunconfirm (s : bot_state) (uid : Z) (photo_id : string)
    (target_user_id : Z) : dialog :=
  if negb (is_admin s uid) then Refused Forbidden
  else named_on s photo_id target_user_id (λ photo_data user_name,
    if is_confirmed_in target_user_id (get_confirmed photo_data)
    then Asked user_name
    else Refused NotConfirmed).

(** [button_handler], prefix adminshow_ (lines 1185-1248): the card of a
    participant, with the actions offered on it. *)
Inductive admin_action :=
  | OfferUnconfirm (photo_id : string) (target_user_id : Z)
  | OfferDelete (photo_id : string) (target_user_id : Z)
  | OfferBack (photo_id : string).

Record participant_card := ParticipantCard {
  card_name : pystr;
  card_confirmed : bool;
  card_icon : pystr;
  card_position : Z;
  card_actions : list admin_action
}.

#[global] Instance admin_action_eq_dec : EqDecision admin_action.
Proof. solve_decision. Defined.

Definition adminshow (s : bot_state) (uid : Z) (photo_id : string)
    (target_user_id : Z) : error + participant_card :=
  if negb (is_admin s uid) then inl Forbidden
  else match photos_data s !! photo_id with
  | None => inl ItemNotFound
  | Some photo_data =>
    match get_users photo_data !! target_user_id with
    | None => inl NotRegistered
    | Some user_name =>
      if str_falsy user_name then inl NotRegistered
      else
        let is_confirmed := is_confirmed_in target_user_id (get_confirmed photo_data) in
        let position :=
          if is_confirmed then position_of target_user_id (get_confirmed photo_data)
          else -1 in
        let icon := if 0 <=? position then get_user_icon position else icon_person in
        inr {| card_name := user_name;
               card_confirmed := is_confirmed;
               card_icon := icon;
               card_position := position;
               card_actions :=
                 (if is_confirmed then [OfferUnconfirm photo_id target_user_id] else [])
                 ++ [OfferDelete photo_id target_user_id; OfferBack photo_id] |}
    end
  end.

(** ** The participant views *)

(** The status shown beside a registered name in the lists of the show
    action and of show_all_participants (lines 1468-1476, 910-918):
    confirmed with the icon of the position, or waiting. *)
Inductive shown_status :=
  | ShownConfirmed (icon : pystr)
  | ShownWaiting.

#[global] Instance shown_status_eq_dec : EqDecision shown_status.
Proof. solve_decision. Defined.

Definition participant_status (photo_data : photo_entry) (uid : Z) : shown_status :=
  if is_confirmed_in uid (get_confirmed photo_data)
  then ShownConfirmed (get_user_icon (position_of uid (get_confirmed photo_data)))
  else ShownWaiting.

(** The numbered lines of the confirmed participants, as every caption
    prints them: place, icon, name. *)
Fixpoint confirmed_lines_from (i : Z) (l : list confirmed_user)
  : list (Z * pystr * pystr) :=
  match l with
  | [] => []
  | user :: rest => (i + 1, get_user_icon i, name user) :: confirmed_lines_from (i + 1) rest
  end.

Definition confirmed_lines (photo_data : photo_entry) : list (Z * pystr * pystr) :=
  confirmed_lines_from 0 (get_confirmed photo_data).

(** The counts of the show action: confirmed and registered. *)
Definition show_counts (photo_data : photo_entry) : nat * nat :=
  (length (get_confirmed photo_data), size (get_users photo_data)).

(** ** The preview of a reset: [reset_data] *)

Inductive reset_preview :=
  | ResetRefused (e : error)
  | ResetAsked (photos total_users total_confirmed : nat).

#[global] Instance reset_preview_eq_dec : EqDecision reset_preview.
Proof. solve_decision. Defined.

Definition total_users (photos : gmap string photo_entry) : nat :=
  sum_list ((λ d, size (get_users d)) <$> (map_to_list photos).*2).

Definition total_confirmed (photos : gmap string photo_entry) : nat :=
  sum_list ((λ d, length (get_confirmed d)) <$> (map_to_list photos).*2).

Definition reset_data (s : bot_state) (uid : Z) : reset_preview :=
  if negb (is_admin s uid) then ResetRefused Forbidden
  else if bool_decide (photos_data s = ∅) then ResetRefused NothingStored
  else ResetAsked (size (photos_data s)) (total_users (photos_data s))
                  (total_confirmed (photos_data s)).

(** * Specification vocabulary *)

(** ** Invariants *)

(** The three invariants of the data model: distinct identities in the
    confirmed list, at most [MAX_CONFIRMED_USERS] of them, each one
    registered under the name the confirmed entry carries. *)
Record item_inv (d : photo_entry) : Prop := ItemInv {
  inv_distinct : NoDup (user_id <$> get_confirmed d);
  inv_capacity : (length (get_confirmed d) ≤ MAX_CONFIRMED_USERS)%nat;
  inv_registered :
    ∀ x, x ∈ get_confirmed d → get_users d !! user_id x = Some (name x)
}.

(** Every stored name has the property [P]. *)
Definition names_satisfy (P : pystr → Prop) (d : photo_entry) : Prop :=
  ∀ uid n, get_users d !! uid = Some n → P n.

(** The item invariant together with a property of the stored names. *)
Definition item_ok_with (P : pystr → Prop) (d : photo_entry) : Prop :=
  item_inv d ∧ names_satisfy P d.

(** Stored names are never empty (the guards [if not user_name] of the
    removal handlers rely on it). *)
Definition nonempty (n : pystr) : Prop := n ≠ [].

#[global] Instance nonempty_dec n : Decision (nonempty n).
Proof. unfold nonempty. apply _. Defined.

(** What a stored name looks like: the escaped form of a non-empty cleaned
    name of at most 20 characters. *)
Definition stored_name_shape (n : pystr) : Prop :=
  ∃ clean, clean ≠ [] ∧ (length clean ≤ 20)%nat ∧ n = escape_html clean.

(** Every stored entry satisfies the item invariant, and every stored name
    has the property [P]. *)
Definition items_ok_with (P : pystr → Prop) (s : bot_state) : Prop :=
  ∀ photo_id d, photos_data s !! photo_id = Some d → item_ok_with P d.

(** A pending registration belongs to the user it is filed under, and that
    user has no name under the photo yet (the register button refuses
    otherwise, and only the user's own text message stores a name). *)
Definition pending_ok (s : bot_state) : Prop :=
  ∀ sender photo_id uid, user_data s !! sender = Some (photo_id, uid) →
    uid = sender ∧
    ∀ d, photos_data s !! photo_id = Some d → get_users d !! sender = None.

Definition state_ok_with (P : pystr → Prop) (s : bot_state) : Prop :=
  items_ok_with P s ∧ pending_ok s.

(** The two invariants as checks that evaluate. *)
Definition item_inv_check (d : photo_entry) : bool :=
  bool_decide (NoDup (user_id <$> get_confirmed d))
  && bool_decide (length (get_confirmed d) ≤ MAX_CONFIRMED_USERS)%nat
  && forallb (λ x, bool_decide (get_users d !! user_id x = Some (name x)))
       (get_confirmed d).

Definition item_ok_check (d : photo_entry) : bool :=
  item_inv_check d && bool_decide (map_Forall (λ _ n, nonempty n) (get_users d)).

(** An entry equal to [d] except that absent participant keys are there
    and empty. *)
Definition with_keys (d : photo_entry) : photo_entry :=
  set_confirmed (set_users d (get_users d)) (get_confirmed d).

(** The photo identifier with number [n], and a collection that holds
    exactly the photos numbered 1 to [k]. *)
Definition photo_name (n : nat) : string := "photo_" +:+ pretty n.

Definition numbered (k : nat) (photos : gmap string photo_entry) : Prop :=
  size photos = k ∧
  ∀ key, is_Some (photos !! key) → ∃ i, (1 ≤ i ≤ k)%nat ∧ key = photo_name i.

(** ** Operations in sequence *)

(** The explicit confirmation pressed by several participants in turn: the
    entry at the end and the answers. *)
Fixpoint confirm_each (d : photo_entry) (uids : list Z) : photo_entry * list reply :=
  match uids with
  | [] => (d, [])
  | uid :: rest =>
    ((confirm_each (confirm d uid).1 rest).1,
     (confirm d uid).2 :: (confirm_each (confirm d uid).1 rest).2)
  end.

(** Several participants registering in turn, each with a validated name. *)
Fixpoint store_each (d : photo_entry) (names : list (Z * pystr))
  : photo_entry * list reply :=
  match names with
  | [] => (d, [])
  | (uid, n) :: rest =>
    ((store_each (store_name d uid n).1 rest).1,
     (store_name d uid n).2 :: (store_each (store_name d uid n).1 rest).2)
  end.

(** ** Entries, states and event sequences for evaluation *)

Definition ann : pystr := lit "Ann".
Definition bob : pystr := lit "Bob".

(** One participant, registered and confirmed, and the events that lead
    there. *)
Definition entry_ann : photo_entry :=
  {| photo := Some (Some "file-1"); photo_file_unique_id := Some (Some "uniq-1");
     users := Some {[ 10 := ann ]};
     confirmed_users := Some [ConfirmedUser 10 ann] |}.

Definition events_ann : list event :=
  [CmdStart 1; MsgPhoto 1 "file-1" "uniq-1";
   Button 10 (RegisterName "photo_1"); MsgText 10 ann].

(** An entry with four confirmed participants and a fifth one waiting. *)
Definition name_of (i : Z) : pystr := lit "user" ++ [Z.to_N (48 + i)].

Definition entry_full : photo_entry :=
  {| photo := Some (Some "file-1"); photo_file_unique_id := Some (Some "uniq-1");
     users := Some (list_to_map ((λ i, (i, name_of i)) <$> [1; 2; 3; 4; 5]));
     confirmed_users := Some ((λ i, ConfirmedUser i (name_of i)) <$> [1; 2; 3; 4]) |}.

(** The bot with five registrations under one photo (the fifth waits), the
    moderator taking the confirmation of the second participant away, and a
    sixth participant registering afterwards. *)
Definition events_unconfirm_then_register : list event :=
  [CmdStart 1; MsgPhoto 1 "file-1" "uniq-1";
   Button 11 (RegisterName "photo_1"); MsgText 11 (lit "Anna");
   Button 12 (RegisterName "photo_1"); MsgText 12 (lit "Boris");
   Button 13 (RegisterName "photo_1"); MsgText 13 (lit "Clara");
   Button 14 (RegisterName "photo_1"); MsgText 14 (lit "Dmitri");
   Button 15 (RegisterName "photo_1"); MsgText 15 (lit "Elena");
   Button 1 (AdminUnconfirmOk "photo_1" 12);
   Button 16 (RegisterName "photo_1"); MsgText 16 (lit "Fedor")].

(** States with one and with two moderators. *)
Definition one_admin : bot_state :=
  {| admins := {[ 1 ]}; photos_data := ∅; user_data := ∅ |}.

Definition two_admins : bot_state :=
  {| admins := {[ 1; 2 ]}; photos_data := ∅; user_data := ∅ |}.

(** Two photos added, everything reset, a third photo added. *)
Definition events_reset_then_add : list event :=
  [CmdStart 1; MsgPhoto 1 "file-a" "uniq-a"; MsgPhoto 1 "file-b" "uniq-b";
   Button 1 ConfirmResetAll; MsgPhoto 1 "file-c" "uniq-c"].

(** A file with two photos, as written by an earlier run. *)
Definition stored_two : gmap string photo_entry :=
  save_photos_data
    (<[photo_name 2 := new_entry "file-b" "uniq-b"]>
       {[ photo_name 1 := new_entry "file-a" "uniq-a" ]}).

(** A name of twenty characters with two apostrophes, and its
    registration. *)
Definition name_with_apostrophes : pystr := lit "D'Artagnan d'Herblay".

Definition events_apostrophes : list event :=
  [CmdStart 1; MsgPhoto 1 "file-1" "uniq-1";
   Button 10 (RegisterName "photo_1"); MsgText 10 name_with_apostrophes].

(** The bot after a moderator added a photo and participant 10 pressed the
    register button. *)
Definition state_awaiting_name : bot_state :=
  (run ascii_isspace ascii_isalnum (initial_state None None)
     [CmdStart 1; MsgPhoto 1 "file-1" "uniq-1"; Button 10 (RegisterName "photo_1")]).1.

(** ** Events by sender *)

(** The user an event comes from. *)
Definition sender (e : event) : Z :=
  match e with
  | CmdStart uid | CmdAddAdmin uid _ | CmdRemoveAdmin uid _ | CmdClearNames uid
  | MsgPhoto uid _ _ | MsgText uid _ | Button uid _ => uid
  end.

(** The events whose handler starts with the administrator check. *)
Definition admin_only (e : event) : bool :=
  match e with
  | CmdAddAdmin _ _ | CmdRemoveAdmin _ _ | CmdClearNames _ | MsgPhoto _ _ _ => true
  | Button _ ConfirmResetAll
  | Button _ (AdminDeleteOk _ _) | Button _ (AdminUnconfirmOk _ _) => true
  | _ => false
  end.

(** The state a restart begins with, from the two files as the running bot
    last wrote them. *)
Definition restart (s : bot_state) : bot_state :=
  initial_state (Some (save_admins s)) (Some (save_photos_data (photos_data s))).

(** A state with one administrator and the full entry under photo_1. *)
Definition state_full : bot_state :=
  {| admins := {[ 1 ]}; photos_data := {[ "photo_1" := entry_full ]}; user_data := ∅ |}.

(** A state whose photo has five registered participants and none
    confirmed. *)
Definition state_none_confirmed : bot_state :=
  {| admins := {[ 1 ]};
     photos_data := {[ "photo_1" := set_confirmed entry_full [] ]};
     user_data := ∅ |}.

(** The bot with two photos and no registration. *)
Definition state_two_photos : bot_state :=
  (run ascii_isspace ascii_isalnum (initial_state None None)
     [CmdStart 1; MsgPhoto 1 "file-1" "uniq-1"; MsgPhoto 1 "file-2" "uniq-2"]).1.

(** Two entries that differ at most in what they hold for one
    participant: the other names, the other confirmed entries in their order
    and the media keys are the same. *)
Definition same_for_others (uid : Z) (d d' : photo_entry) : Prop :=
  delete uid (get_users d') = delete uid (get_users d) ∧
  remove_confirmed uid (get_confirmed d') = remove_confirmed uid (get_confirmed d) ∧
  photo d' = photo d ∧ photo_file_unique_id d' = photo_file_unique_id d.

(** The events of a participant: the text with the name and the three
    buttons under a photo. *)
Definition participant_event (e : event) : bool :=
  match e with
  | MsgText _ _ => true
  | Button _ (RegisterName _) | Button _ (ConfirmName _)
  | Button _ (ConfirmDelete _) => true
  | _ => false
  end.

(** ** States for the clearing and the reset *)

(** The full entry under photo_1 and participant 10 about to send a name
    for it. *)
Definition state_full_pending : bot_state :=
  {| admins := {[ 1 ]}; photos_data := {[ "photo_1" := entry_full ]};
     user_data := {[ 10 := ("photo_1", 10) ]} |}.


(** ** Names *)

(** The characters that open or close markup or an attribute value. *)
Definition markup_char (c : N) : bool :=
  (c =? ch_lt)%N || (c =? ch_gt)%N || (c =? ch_quot)%N || (c =? ch_apos)%N.

(** The characters replaced by [escape_html]. *)
Definition escaped_char (c : N) : bool := (c =? ch_amp)%N || markup_char c.

(** A word: a non-empty run of characters that are not whitespace. *)
Definition word (is_space : N → bool) (w : pystr) : Prop :=
  w ≠ [] ∧ Forall (λ c, is_space c = false) w.

(** A text in which the pattern of a tag has no match: every opening
    bracket is directly followed by a closing one, or no closing bracket
    follows it at all. *)
Inductive tagless : pystr → Prop :=
  | tagless_nil : tagless []
  | tagless_char c s : c ≠ ch_lt → tagless s → tagless (c :: s)
  | tagless_empty_tag s : tagless s → tagless (ch_lt :: ch_gt :: s)
  | tagless_open s : ch_gt ∉ s → tagless (ch_lt :: s).


(** A text accepted by the validation, and the name stored for it: the
    trimmed text has 2 to 20 characters, its cleaned form is not empty, and
    the name is the escaped cleaned form. *)
Definition accepted_as (is_space is_alnum : N → bool) (text safe : pystr) : Prop :=
  (2 ≤ length (strip is_space text) ≤ 20)%nat ∧
  clean_name is_space is_alnum (strip is_space text) ≠ [] ∧
  safe = escape_html (clean_name is_space is_alnum (strip is_space text)).


(** The entry with a name recorded for a participant and the confirmed
    list as it was. *)
Definition name_recorded (d : photo_entry) (uid : Z) (n : pystr) : photo_entry :=
  set_confirmed (set_users d (<[uid := n]> (get_users d))) (get_confirmed d).


(** * Properties *)

(** ** The confirmed list *)

Lemma is_confirmed_in_spec uid l :
  is_confirmed_in uid l = true ↔ uid ∈ user_id <$> l.
Proof.
  unfold is_confirmed_in. induction l as [|x l IH]; simpl.
  - split; [done | by intros ?%elem_of_nil].
  - rewrite orb_true_iff, IH, elem_of_cons, Z.eqb_eq. naive_solver.
Qed.

Lemma is_confirmed_in_false uid l :
  is_confirmed_in uid l = false ↔ uid ∉ user_id <$> l.
Proof.
  rewrite <- is_confirmed_in_spec. destruct (is_confirmed_in uid l); naive_solver.
Qed.

Lemma elem_of_remove_confirmed uid l x :
  x ∈ remove_confirmed uid l ↔ x ∈ l ∧ user_id x ≠ uid.
Proof.
  unfold remove_confirmed. rewrite !list_elem_of_In, filter_In, negb_true_iff, Z.eqb_neq.
  done.
Qed.

Lemma remove_confirmed_app uid l1 l2 :
  remove_confirmed uid (l1 ++ l2) = remove_confirmed uid l1 ++ remove_confirmed uid l2.
Proof. apply List.filter_app. Qed.

Lemma remove_confirmed_absent uid l :
  uid ∉ user_id <$> l → remove_confirmed uid l = l.
Proof.
  unfold remove_confirmed. induction l as [|x l IH]; simpl; [done|].
  rewrite not_elem_of_cons. intros [Hx Hl].
  destruct (Z.eqb_spec (user_id x) uid) as [Heq|_]; [congruence|].
  simpl. by rewrite IH.
Qed.

Lemma remove_confirmed_length uid l :
  (length (remove_confirmed uid l) ≤ length l)%nat.
Proof. apply List.filter_length_le. Qed.

Lemma remove_confirmed_length_eq uid l :
  length (remove_confirmed uid l) = length l ↔ uid ∉ user_id <$> l.
Proof.
  split; [|by intros ->%remove_confirmed_absent].
  pose proof (remove_confirmed_length uid) as Hle. unfold remove_confirmed in *.
  induction l as [|x l IH]; simpl; [by intros _ ?%elem_of_nil|].
  specialize (Hle l).
  destruct (Z.eqb_spec (user_id x) uid) as [Heq|Hne]; simpl; [lia|].
  intros Hlen. rewrite not_elem_of_cons. split; [congruence|]. apply IH. lia.
Qed.

(** With distinct identities, removing the participant at one place of the
    list leaves the entries before and after it, in their order. *)
Lemma remove_confirmed_middle uid l1 x l2 :
  NoDup (user_id <$> (l1 ++ x :: l2)) → user_id x = uid →
  remove_confirmed uid (l1 ++ x :: l2) = l1 ++ l2.
Proof.
  intros Hnd Hx. rewrite fmap_app, fmap_cons, Hx in Hnd.
  apply NoDup_app in Hnd as (_ & Hl1 & [Hl2 _]%NoDup_cons).
  rewrite remove_confirmed_app. unfold remove_confirmed at 2. simpl.
  rewrite Hx, Z.eqb_refl. simpl. fold (remove_confirmed uid l2).
  rewrite !remove_confirmed_absent; [done|done|].
  intros Hin. apply (Hl1 _ Hin). by left.
Qed.

Lemma position_from_shift i uid l :
  uid ∈ user_id <$> l → position_from i uid l = i + position_from 0 uid l.
Proof.
  revert i. induction l as [|x l IH]; intros i; simpl; [by intros ?%elem_of_nil|].
  destruct (Z.eqb_spec (user_id x) uid) as [_|Hne]; [lia|].
  rewrite elem_of_cons. intros [?|Hin]; [congruence|].
  rewrite (IH (i + 1) Hin), (IH (0 + 1) Hin). lia.
Qed.

Lemma position_from_app_l i uid l1 l2 :
  uid ∈ user_id <$> l1 → position_from i uid (l1 ++ l2) = position_from i uid l1.
Proof.
  revert i. induction l1 as [|x l1 IH]; intros i; simpl; [by intros ?%elem_of_nil|].
  destruct (Z.eqb_spec (user_id x) uid) as [_|Hne]; [done|].
  rewrite elem_of_cons. intros [?|Hin]; [congruence|]. by apply IH.
Qed.

Lemma position_from_app_r i uid l1 l2 :
  uid ∉ user_id <$> l1 →
  position_from i uid (l1 ++ l2) = position_from (i + Z.of_nat (length l1)) uid l2.
Proof.
  revert i. induction l1 as [|x l1 IH]; intros i; simpl.
  - intros _. f_equal. lia.
  - rewrite not_elem_of_cons. intros [Hne Hl].
    destruct (Z.eqb_spec (user_id x) uid) as [|_]; [congruence|].
    rewrite IH by done. f_equal. lia.
Qed.

Lemma remove_confirmed_sublist uid l : remove_confirmed uid l `sublist_of` l.
Proof.
  unfold remove_confirmed. induction l as [|x l IH]; simpl; [constructor|].
  destruct (negb (user_id x =? uid)); by constructor.
Qed.

(** ** The item invariant *)

Lemma item_inv_ok_with d : item_inv d ↔ item_ok_with (λ _, True) d.
Proof. split; [by split | by intros [? _]]. Qed.

Lemma not_registered_not_confirmed d uid :
  item_inv d → get_users d !! uid = None → uid ∉ user_id <$> get_confirmed d.
Proof.
  intros Hinv Hnone (x & -> & Hx)%list_elem_of_fmap.
  apply (inv_registered _ Hinv) in Hx. congruence.
Qed.

Section ItemOk.
Variable P : pystr → Prop.
Local Abbreviation item_ok := (item_ok_with P).

(** An entry whose registered set and confirmed list only lost members
    keeps the invariant, provided the confirmed ones are still registered. *)
Lemma item_ok_shrink d d' :
  item_ok d →
  get_users d' ⊆ get_users d →
  get_confirmed d' `sublist_of` get_confirmed d →
  (∀ x, x ∈ get_confirmed d' → is_Some (get_users d' !! user_id x)) →
  item_ok d'.
Proof.
  intros [[Hnd Hcap Hreg] Hne] Hus Hcs Hstill. split; [split|].
  - eapply sublist_NoDup; [exact Hnd | by apply fmap_sublist].
  - apply sublist_length in Hcs. lia.
  - intros x Hx. destruct (Hstill x Hx) as [n Hn].
    pose proof (lookup_weaken _ _ _ _ Hn Hus) as Hn'.
    rewrite (Hreg x) in Hn'; [congruence|]. by apply (sublist_subseteq _ _ Hcs).
  - intros uid n Hn. eapply Hne, lookup_weaken; eauto.
Qed.

(** *** What the two removals do to the two views *)

Lemma get_users_set_confirmed d l : get_users (set_confirmed d l) = get_users d.
Proof. done. Qed.

Lemma get_confirmed_set_confirmed d l : get_confirmed (set_confirmed d l) = l.
Proof. done. Qed.

Lemma get_users_set_users d us : get_users (set_users d us) = us.
Proof. done. Qed.

Lemma get_confirmed_set_users d us : get_confirmed (set_users d us) = get_confirmed d.
Proof. done. Qed.

Lemma drop_confirmation_confirmed d uid :
  get_confirmed (drop_confirmation d uid) = remove_confirmed uid (get_confirmed d).
Proof.
  unfold drop_confirmation, get_confirmed.
  destruct (confirmed_users d) eqn:E; simpl; [done | by rewrite E].
Qed.

Lemma drop_confirmation_users d uid :
  get_users (drop_confirmation d uid) = get_users d.
Proof. unfold drop_confirmation. by destruct (confirmed_users d). Qed.

Lemma drop_name_users d uid :
  get_users (drop_name d uid).1 = delete uid (get_users d).
Proof.
  unfold drop_name, get_users. destruct (users d) as [us|] eqn:Eu; simpl.
  - destruct (us !! uid) eqn:E; simpl; [done|]. by rewrite Eu, delete_id.
  - by rewrite Eu, delete_empty.
Qed.

Lemma drop_name_confirmed d uid :
  get_confirmed (drop_name d uid).1 = get_confirmed d.
Proof.
  unfold drop_name. destruct (users d) as [us|]; [|done].
  by destruct (us !! uid).
Qed.

Lemma drop_name_flag d uid :
  (drop_name d uid).2 = bool_decide (is_Some (get_users d !! uid)).
Proof.
  unfold drop_name, get_users. destruct (users d) as [us|] eqn:Eu; simpl.
  - by destruct (us !! uid) eqn:E.
  - by rewrite lookup_empty.
Qed.

Lemma drop_confirmation_media d uid :
  photo (drop_confirmation d uid) = photo d ∧
  photo_file_unique_id (drop_confirmation d uid) = photo_file_unique_id d.
Proof. unfold drop_confirmation. by destruct (confirmed_users d). Qed.

Lemma drop_name_media d uid :
  photo (drop_name d uid).1 = photo d ∧
  photo_file_unique_id (drop_name d uid).1 = photo_file_unique_id d.
Proof.
  unfold drop_name. destruct (users d) as [us|]; [|done]. by destruct (us !! uid).
Qed.

(** The views of an entry after both removals. *)
Lemma removed_views d uid :
  let d' := (drop_name (drop_confirmation d uid) uid).1 in
  get_users d' = delete uid (get_users d) ∧
  get_confirmed d' = remove_confirmed uid (get_confirmed d) ∧
  photo d' = photo d ∧ photo_file_unique_id d' = photo_file_unique_id d.
Proof.
  simpl. rewrite drop_name_users, drop_name_confirmed, drop_confirmation_users,
    drop_confirmation_confirmed.
  destruct (drop_name_media (drop_confirmation d uid) uid) as [-> ->].
  destruct (drop_confirmation_media d uid) as [-> ->]. done.
Qed.

Lemma removed_ok d uid :
  item_ok d → item_ok (drop_name (drop_confirmation d uid) uid).1.
Proof.
  intros Hok. destruct (removed_views d uid) as (Hu & Hc & _).
  apply (item_ok_shrink d); [done|..].
  - rewrite Hu. apply delete_subseteq.
  - rewrite Hc. apply remove_confirmed_sublist.
  - intros x. rewrite Hu, Hc. intros [Hx Hne]%elem_of_remove_confirmed.
    rewrite lookup_delete_ne by done.
    destruct Hok as [Hinv _]. rewrite (inv_registered _ Hinv x Hx). by eexists.
Qed.

(** *** Insertions: a name stored, a participant appended *)

Lemma item_ok_insert d d' uid n (appended : bool) :
  item_ok d →
  uid ∉ user_id <$> get_confirmed d →
  P n →
  (appended = true → (length (get_confirmed d) < MAX_CONFIRMED_USERS)%nat) →
  get_users d' = <[uid := n]> (get_users d) →
  get_confirmed d' =
    (if appended then get_confirmed d ++ [ConfirmedUser uid n] else get_confirmed d) →
  item_ok d'.
Proof.
  intros [[Hnd Hcap Hreg] Hne] Hfresh Hn Hroom Hus Hcs.
  assert (Hold : ∀ x, x ∈ get_confirmed d → get_users d' !! user_id x = Some (name x)).
  { intros x Hx. rewrite Hus, lookup_insert_ne; [by apply Hreg|].
    intros ->. apply Hfresh, list_elem_of_fmap. eauto. }
  split; [split|].
  - rewrite Hcs. destruct appended; [|done].
    rewrite fmap_app. apply NoDup_app. split; [done|]. split.
    + simpl. intros i Hi ->%list_elem_of_singleton. done.
    + apply NoDup_singleton.
  - rewrite Hcs. destruct appended; [|done].
    rewrite length_app. simpl. specialize (Hroom eq_refl). lia.
  - rewrite Hcs. destruct appended; [|done].
    intros x [Hx| ->%list_elem_of_singleton]%elem_of_app; [by apply Hold|].
    simpl. by rewrite Hus, lookup_insert_eq.
  - intros i m. rewrite Hus, lookup_insert. case_decide; [congruence|]. apply Hne.
Qed.

Lemma store_name_views d uid user_name_safe :
  uid ∉ user_id <$> get_confirmed d →
  let d' := (store_name d uid user_name_safe).1 in
  get_users d' = <[uid := user_name_safe]> (get_users d) ∧
  get_confirmed d' =
    (if bool_decide (length (get_confirmed d) < MAX_CONFIRMED_USERS)%nat
     then get_confirmed d ++ [ConfirmedUser uid user_name_safe]
     else get_confirmed d) ∧
  photo d' = photo d ∧ photo_file_unique_id d' = photo_file_unique_id d.
Proof.
  intros Hfresh%is_confirmed_in_false. unfold store_name. rewrite Hfresh. simpl.
  case_bool_decide as Hlt.
  - destruct (Z.ltb_spec (Z.of_nat (length (get_confirmed d))) (Z.of_nat MAX_CONFIRMED_USERS));
      [done | lia].
  - destruct (Z.ltb_spec (Z.of_nat (length (get_confirmed d))) (Z.of_nat MAX_CONFIRMED_USERS));
      [lia | done].
Qed.

Lemma store_name_ok d uid user_name_safe :
  item_ok d → get_users d !! uid = None → P user_name_safe →
  item_ok (store_name d uid user_name_safe).1.
Proof.
  intros Hok Hnone Hne.
  assert (Hfresh : uid ∉ user_id <$> get_confirmed d).
  { apply not_registered_not_confirmed; [apply Hok | done]. }
  destruct (store_name_views d uid user_name_safe Hfresh) as (Hu & Hc & _).
  eapply (item_ok_insert d _ uid user_name_safe); [done..| | exact Hu | exact Hc].
  by intros ?%bool_decide_eq_true_1.
Qed.

(** The branches of the explicit confirmation. *)
Lemma confirm_cases d uid :
  (get_users d !! uid = None ∧ confirm d uid = (d, Failed NotRegistered)) ∨
  (is_Some (get_users d !! uid) ∧
   (MAX_CONFIRMED_USERS ≤ length (get_confirmed d))%nat ∧
   confirm d uid = (d, Failed CapacityFull)) ∨
  (is_Some (get_users d !! uid) ∧
   (length (get_confirmed d) < MAX_CONFIRMED_USERS)%nat ∧
   (uid ∈ user_id <$> get_confirmed d) ∧
   confirm d uid = (d, Failed AlreadyConfirmed)) ∨
  (∃ user_name, get_users d !! uid = Some user_name ∧
   (length (get_confirmed d) < MAX_CONFIRMED_USERS)%nat ∧
   (uid ∉ user_id <$> get_confirmed d) ∧
   confirm d uid =
     (set_confirmed d (get_confirmed d ++ [ConfirmedUser uid user_name]),
      Confirmed (Z.of_nat (length (get_confirmed d)))
                (get_user_icon (Z.of_nat (length (get_confirmed d)))))).
Proof.
  unfold confirm. destruct (get_users d !! uid) as [user_name|] eqn:Hu; [|by left].
  right.
  destruct (Z.leb_spec (Z.of_nat MAX_CONFIRMED_USERS) (Z.of_nat (length (get_confirmed d))))
    as [Hfull|Hroom].
  { left. split; [by eexists|]. split; [lia | done]. }
  right. destruct (is_confirmed_in uid (get_confirmed d)) eqn:Hc.
  { left. apply is_confirmed_in_spec in Hc. split; [by eexists|].
    split; [lia|]. done. }
  right. apply is_confirmed_in_false in Hc. exists user_name.
  split; [done|]. split; [lia|]. split; [done|].
  rewrite length_app. simpl.
  replace (Z.of_nat (length (get_confirmed d) + 1) - 1)
    with (Z.of_nat (length (get_confirmed d))) by lia.
  done.
Qed.

Lemma confirm_ok d uid : item_ok d → item_ok (confirm d uid).1.
Proof.
  intros Hok.
  destruct (confirm_cases d uid)
    as [[_ ->]|[(_ & _ & ->)|[(_ & _ & _ & ->)|(n & Hn & Hlt & Hfresh & ->)]]]; [done..|].
  simpl. eapply (item_ok_insert d _ uid n true); [done|done| |done| |done].
  - by eapply Hok.
  - simpl. by rewrite insert_id.
Qed.

Lemma confirm_delete_ok d uid : item_ok d → item_ok (confirm_delete d uid).1.
Proof.
  intros Hok. unfold confirm_delete.
  destruct (get_users d !! uid) as [n|]; [|done].
  destruct (str_falsy n); [done|]. by apply removed_ok.
Qed.

Lemma admin_delete_ok d uid : item_ok d → item_ok (admin_delete d uid).1.
Proof.
  intros Hok. unfold admin_delete.
  destruct (get_users d !! uid) as [n|]; [|done].
  destruct (str_falsy n); [done|].
  pose proof (removed_ok d uid Hok) as H.
  by destruct (drop_name (drop_confirmation d uid) uid).
Qed.

Lemma admin_unconfirm_ok d uid : item_ok d → item_ok (admin_unconfirm d uid).1.
Proof.
  intros Hok. unfold admin_unconfirm.
  destruct (get_users d !! uid) as [n|]; [|done].
  destruct (str_falsy n); [done|].
  destruct (confirmed_users d) as [cs|] eqn:Hcs; [|done].
  assert (get_confirmed d = cs) as Hget by (unfold get_confirmed; by rewrite Hcs).
  assert (item_ok (set_confirmed d (remove_confirmed uid cs))) as H.
  { apply (item_ok_shrink d); [done|done|..].
    - rewrite get_confirmed_set_confirmed, Hget. apply remove_confirmed_sublist.
    - rewrite get_confirmed_set_confirmed, get_users_set_confirmed.
      intros x [Hx _]%elem_of_remove_confirmed. rewrite <- Hget in Hx.
      destruct Hok as [Hinv _]. rewrite (inv_registered _ Hinv x Hx). by eexists. }
  by case_bool_decide.
Qed.

Lemma empty_entry_ok d : get_users d = ∅ → get_confirmed d = [] → item_ok d.
Proof.
  intros Hu Hc. split; [split|].
  - rewrite Hc. constructor.
  - rewrite Hc. simpl. lia.
  - rewrite Hc. by intros x ?%elem_of_nil.
  - intros uid n. by rewrite Hu, lookup_empty.
Qed.

Lemma clear_entry_ok d : item_ok d → item_ok (clear_entry d).
Proof.
  intros Hok. unfold clear_entry. destruct (entry_has_names d); [|done].
  by apply empty_entry_ok.
Qed.

Lemma new_entry_ok file_id file_unique_id : item_ok (new_entry file_id file_unique_id).
Proof. by apply empty_entry_ok. Qed.

End ItemOk.

(** ** Validation *)

Lemma escape_char_length c : (1 ≤ length (escape_char c) ≤ 6)%nat.
Proof.
  unfold escape_char.
  repeat match goal with |- context [if ?b then _ else _] => destruct b end;
    simpl; lia.
Qed.

Lemma escape_html_length text :
  (length text ≤ length (escape_html text) ≤ 6 * length text)%nat.
Proof.
  unfold escape_html. induction text as [|c text IH]; simpl; [lia|].
  rewrite length_app. pose proof (escape_char_length c). lia.
Qed.

Lemma escape_html_nonempty text : text ≠ [] → escape_html text ≠ [].
Proof.
  intros Hne Hnil. pose proof (escape_html_length text) as Hlen.
  rewrite Hnil in Hlen. destruct text; [done | simpl in Hlen; lia].
Qed.

Lemma str_falsy_false s : str_falsy s = false ↔ s ≠ [].
Proof. by destruct s. Qed.

Section SanitizeFacts.
Variable is_space : N → bool.
Variable is_alnum : N → bool.

(** The checks a stored name went through. *)
Lemma sanitize_name_inr text safe :
  sanitize_name is_space is_alnum text = inr safe →
  let user_name := strip is_space text in
  (2 ≤ length user_name ≤ 20)%nat ∧
  clean_name is_space is_alnum user_name ≠ [] ∧
  safe = escape_html (take 20 (clean_name is_space is_alnum user_name)).
Proof.
  unfold sanitize_name. simpl.
  destruct (str_falsy (strip is_space text)); [done|].
  destruct (Nat.ltb_spec 20 (length (strip is_space text))); [done|].
  destruct (Nat.ltb_spec (length (strip is_space text)) 2); [done|].
  destruct (str_falsy _) eqn:Hclean; [done|]. apply str_falsy_false in Hclean.
  intros [= <-]. split; [lia|]. split; [done|].
  destruct (Nat.ltb_spec 20 (length (clean_name is_space is_alnum (strip is_space text))));
    [done|]. by rewrite take_ge by lia.
Qed.

(** The failures of the validation, check by check. *)
Lemma sanitize_name_inl text :
  let user_name := strip is_space text in
  (user_name = [] ∨ (length user_name < 2)%nat ∨ (20 < length user_name)%nat ∨
   clean_name is_space is_alnum user_name = []) →
  ∃ e, sanitize_name is_space is_alnum text = inl e.
Proof.
  unfold sanitize_name. simpl. intros H.
  destruct (strip is_space text) as [|c rest] eqn:Hs; simpl; [by eexists|].
  destruct (Nat.ltb_spec 20 (S (length rest))); [by eexists|].
  destruct (Nat.ltb_spec (S (length rest)) 2); [by eexists|].
  destruct H as [?|[H|[H|H]]]; [done | simpl in H; lia | simpl in H; lia |].
  rewrite H. by eexists.
Qed.

Lemma sanitize_name_nonempty text safe :
  sanitize_name is_space is_alnum text = inr safe → safe ≠ [].
Proof.
  intros (_ & Hne & ->)%sanitize_name_inr. apply escape_html_nonempty.
  destruct (clean_name _ _ _); [done|]. done.
Qed.
End SanitizeFacts.

(** ** The invariant of the whole state *)

(** The operations that never add a name. *)
Lemma confirm_users d uid : get_users (confirm d uid).1 = get_users d.
Proof.
  destruct (confirm_cases d uid)
    as [[_ ->]|[(_ & _ & ->)|[(_ & _ & _ & ->)|(n & _ & _ & _ & ->)]]]; done.
Qed.

Lemma confirm_delete_users d uid : get_users (confirm_delete d uid).1 ⊆ get_users d.
Proof.
  unfold confirm_delete. destruct (get_users d !! uid) as [n|]; [|done].
  destruct (str_falsy n); [done|]. simpl.
  destruct (removed_views d uid) as (-> & _). apply delete_subseteq.
Qed.

Lemma admin_delete_users d uid : get_users (admin_delete d uid).1 ⊆ get_users d.
Proof.
  unfold admin_delete. destruct (get_users d !! uid) as [n|]; [|done].
  destruct (str_falsy n); [done|].
  destruct (removed_views d uid) as (Hu & _). simpl in Hu.
  destruct (drop_name (drop_confirmation d uid) uid). simpl in *. rewrite Hu.
  apply delete_subseteq.
Qed.

Lemma admin_unconfirm_users d uid : get_users (admin_unconfirm d uid).1 = get_users d.
Proof.
  unfold admin_unconfirm. destruct (get_users d !! uid) as [n|]; [|done].
  destruct (str_falsy n); [done|].
  destruct (confirmed_users d); [|done]. by case_bool_decide.
Qed.

Section StateOk.
Variable P : pystr → Prop.
Local Abbreviation item_ok := (item_ok_with P).
Local Abbreviation state_ok := (state_ok_with P).

Lemma on_entry_ok s photo_id op :
  state_ok s →
  (∀ d, item_ok d → item_ok (op d).1) →
  (∀ d, get_users (op d).1 ⊆ get_users d) →
  state_ok (on_entry s photo_id op).1.
Proof.
  intros [Hitems Hpend] Hop Hsub. unfold on_entry.
  destruct (photos_data s !! photo_id) as [d|] eqn:Hd; [|done].
  specialize (Hop d (Hitems _ _ Hd)). specialize (Hsub d).
  destruct (op d) as [d' r]. simpl in *. split.
  - intros p e. simpl. rewrite lookup_insert. case_decide; [|by apply Hitems].
    by intros [= <-].
  - intros u p v Hu. simpl in Hu. destruct (Hpend u p v Hu) as [-> Hfree].
    split; [done|]. intros e. simpl. rewrite lookup_insert.
    case_decide as Hp; [|by apply Hfree]. intros [= <-]. subst p.
    specialize (Hfree d Hd).
    destruct (get_users d' !! u) as [n|] eqn:Hn; [|done].
    pose proof (lookup_weaken _ _ _ _ Hn Hsub). congruence.
Qed.

Lemma start_ok s uid : state_ok s → state_ok (start s uid).1.
Proof.
  intros H. unfold start. case_bool_decide; [done|]. by destruct (is_admin s uid).
Qed.

Lemma add_admin_ok s uid arg : state_ok s → state_ok (add_admin s uid arg).1.
Proof.
  intros H. unfold add_admin. destruct (negb (is_admin s uid)); [done|].
  destruct arg; [done..|]. by case_bool_decide.
Qed.

Lemma remove_admin_ok s uid arg : state_ok s → state_ok (remove_admin s uid arg).1.
Proof.
  intros H. unfold remove_admin. destruct (negb (is_admin s uid)); [done|].
  destruct arg; [done..|]. repeat case_bool_decide; done.
Qed.

Lemma handle_photo_ok s uid f u : state_ok s → state_ok (handle_photo s uid f u).1.
Proof.
  intros [Hitems Hpend]. unfold handle_photo.
  destruct (negb (is_admin s uid)); [done|]. simpl. split.
  - intros p d. simpl. rewrite lookup_insert. case_decide; [|by apply Hitems].
    intros [= <-]. apply new_entry_ok.
  - intros w p v Hw. simpl in Hw. destruct (Hpend w p v Hw) as [-> Hfree].
    split; [done|]. intros d. simpl. rewrite lookup_insert.
    case_decide; [|by apply Hfree]. by intros [= <-].
Qed.

Lemma clear_names_ok s uid : state_ok s → state_ok (clear_names s uid).1.
Proof.
  intros [Hitems Hpend]. unfold clear_names.
  destruct (negb (is_admin s uid)); [done|]. case_bool_decide; [done|].
  simpl. split.
  - intros p d. simpl. rewrite lookup_fmap.
    destruct (photos_data s !! p) as [e|] eqn:He; [|done].
    intros [= <-]. apply clear_entry_ok. by eapply Hitems.
  - intros w p v Hw. simpl in Hw. destruct (Hpend w p v Hw) as [-> Hfree].
    split; [done|]. intros d. simpl. rewrite lookup_fmap.
    destruct (photos_data s !! p) as [e|] eqn:He; [|done].
    intros [= <-]. unfold clear_entry.
    destruct (entry_has_names e); [done | by apply Hfree].
Qed.

Lemma button_handler_ok s uid data : state_ok s → state_ok (button_handler s uid data).1.
Proof.
  intros Hok. destruct data as [|p t|p t|p|p|p]; simpl.
  - destruct (negb (is_admin s uid)); [done|]. split.
    + intros p d. simpl. by rewrite lookup_empty.
    + intros w p v Hw. destruct Hok as [_ Hpend].
      destruct (Hpend w p v Hw) as [-> _]. split; [done|].
      intros d. simpl. by rewrite lookup_empty.
  - destruct (negb (is_admin s uid)); [done|].
    apply on_entry_ok; [done|intros; by apply admin_delete_ok|].
    intros; apply admin_delete_users.
  - destruct (negb (is_admin s uid)); [done|].
    apply on_entry_ok; [done|intros; by apply admin_unconfirm_ok|].
    intros. by rewrite admin_unconfirm_users.
  - apply on_entry_ok; [done|intros; by apply confirm_delete_ok|].
    intros; apply confirm_delete_users.
  - destruct (photos_data s !! p) as [d|] eqn:Hd; [|done].
    destruct (get_users d !! uid) eqn:Hu; [done|].
    destruct Hok as [Hitems Hpend]. split; [done|].
    intros w q v. simpl. rewrite lookup_insert. case_decide as Hw.
    + intros [= <- <-]. subst w. split; [done|]. intros e. congruence.
    + apply Hpend.
  - apply on_entry_ok; [done|intros; by apply confirm_ok|].
    intros. by rewrite confirm_users.
Qed.

Section Reachable.
Variable is_space : N → bool.
Variable is_alnum : N → bool.
(** Every name that passes the validation has the property. *)
Hypothesis sanitized_ok :
  ∀ text safe, sanitize_name is_space is_alnum text = inr safe → P safe.

Lemma handle_text_ok s sender text :
  state_ok s → state_ok (handle_text is_space is_alnum s sender text).1.
Proof.
  intros [Hitems Hpend]. unfold handle_text.
  destruct (user_data s !! sender) as [[p uid]|] eqn:Hs; [|done].
  destruct (Hpend _ _ _ Hs) as [-> Hfree].
  assert (Hpend' : pending_ok (with_user_data s (delete sender (user_data s)))).
  { intros w q v. simpl. rewrite lookup_delete. case_decide; [done|]. apply Hpend. }
  simpl. destruct (photos_data s !! p) as [d|] eqn:Hd; [|done].
  destruct (sanitize_name is_space is_alnum text) as [e|safe] eqn:Hsafe; [done|].
  pose proof (store_name_ok P d sender safe (Hitems _ _ Hd) (Hfree _ eq_refl)
                (sanitized_ok _ _ Hsafe)) as Hok'.
  pose proof (not_registered_not_confirmed d sender (proj1 (Hitems _ _ Hd)) (Hfree _ eq_refl))
    as Hfresh.
  destruct (store_name_views d sender safe Hfresh) as (Hu & _).
  destruct (store_name d sender safe) as [d' r]. simpl in *. split.
  - intros q e. simpl. rewrite lookup_insert. case_decide; [|by apply Hitems].
    by intros [= <-].
  - intros w q v. simpl. rewrite lookup_delete. case_decide as Hw; [done|].
    intros Hq. destruct (Hpend _ _ _ Hq) as [-> Hfree']. split; [done|].
    intros e. rewrite lookup_insert. case_decide as Hp; [|by apply Hfree'].
    intros [= <-]. subst q. rewrite Hu, lookup_insert_ne by done. by apply Hfree'.
Qed.

Lemma step_ok s e : state_ok s → state_ok (step is_space is_alnum s e).1.
Proof.
  destruct e; simpl; auto using start_ok, add_admin_ok, remove_admin_ok,
    clear_names_ok, handle_photo_ok, handle_text_ok, button_handler_ok.
Qed.

Lemma run_ok s es : state_ok s → state_ok (run is_space is_alnum s es).1.
Proof.
  revert s. induction es as [|e es IH]; intros s Hok; [done|]. simpl.
  pose proof (step_ok s e Hok) as H1. destruct (step is_space is_alnum s e) as [s1 r].
  specialize (IH s1 H1). by destruct (run is_space is_alnum s1 es).
Qed.
End Reachable.

Lemma loaded_entry_ok d : item_ok (loaded_entry d).
Proof.
  apply empty_entry_ok.
  - unfold get_users. simpl. by destruct (users d).
  - unfold get_confirmed. simpl. by destruct (confirmed_users d).
Qed.

Lemma initial_state_ok admins_file photos_file :
  state_ok (initial_state admins_file photos_file).
Proof.
  split.
  - intros p d. simpl. destruct photos_file as [content|]; simpl; [|by rewrite lookup_empty].
    intros [Hd _]%map_lookup_filter_Some. rewrite lookup_fmap in Hd.
    destruct (content !! p); [|done]. injection Hd as <-. apply loaded_entry_ok.
  - intros w p v. simpl. by rewrite lookup_empty.
Qed.

End StateOk.

Abbreviation item_ok := (item_ok_with nonempty).

(** The checks that evaluate are sound. *)
Lemma item_inv_check_sound d : item_inv_check d = true → item_inv d.
Proof.
  unfold item_inv_check. rewrite !andb_true_iff, forallb_forall.
  intros [[Hnd%bool_decide_eq_true_1 Hlen%bool_decide_eq_true_1] Hall].
  split; [done|done|].
  intros x Hx%list_elem_of_In. by apply Hall, bool_decide_eq_true_1 in Hx.
Qed.

Lemma item_ok_check_sound d : item_ok_check d = true → item_ok d.
Proof.
  unfold item_ok_check. rewrite andb_true_iff.
  intros [Hinv%item_inv_check_sound Hnames%bool_decide_eq_true_1]. by split.
Qed.

(** * The claims *)

(** C1. Every operation of the engine keeps the item invariant: distinct
    identities in the confirmed list, at most [MAX_CONFIRMED_USERS] entries,
    every confirmed participant registered under the name of the confirmed
    entry.  This holds for the explicit confirmation, the removal of the own
    name, the two moderator removals and the clearing of an entry, from any
    entry with the invariant; for the registration with automatic
    confirmation, from any entry where the participant has no name yet (what
    the register button checks before it asks for the name); and so for every
    entry of every state the bot reaches from any stored files by any
    sequence of events. *)
Theorem engine_preserves_item_invariant (is_space is_alnum : N → bool) :
  (∀ d uid, item_inv d →
     item_inv (confirm d uid).1 ∧
     item_inv (confirm_delete d uid).1 ∧
     item_inv (admin_unconfirm d uid).1 ∧
     item_inv (admin_delete d uid).1 ∧
     item_inv (clear_entry d)) ∧
  (∀ d uid user_name_safe, item_inv d → get_users d !! uid = None →
     item_inv (store_name d uid user_name_safe).1) ∧
  (∀ admins_file photos_file es photo_id d,
     photos_data (run is_space is_alnum (initial_state admins_file photos_file) es).1
       !! photo_id = Some d →
     item_inv d).
Proof.
  split; [|split].
  - intros d uid Hinv%item_inv_ok_with.
    rewrite !item_inv_ok_with.
    split; [by apply confirm_ok|]. split; [by apply confirm_delete_ok|].
    split; [by apply admin_unconfirm_ok|]. split; [by apply admin_delete_ok|].
    by apply clear_entry_ok.
  - intros d uid safe Hinv%item_inv_ok_with Hfree.
    apply item_inv_ok_with. by apply store_name_ok.
  - intros admins_file photos_file es photo_id d Hd.
    pose proof (run_ok nonempty is_space is_alnum
                  (sanitize_name_nonempty is_space is_alnum) _ es
                  (initial_state_ok nonempty admins_file photos_file))
      as [Hitems _].
    by destruct (Hitems _ _ Hd).
Qed.

Lemma engine_preserves_item_invariant_witness :
  item_inv entry_ann ∧
  item_inv (confirm entry_ann 10).1 ∧
  item_inv (admin_unconfirm entry_ann 10).1 ∧
  item_inv (store_name entry_ann 11 bob).1 ∧
  photos_data (run ascii_isspace ascii_isalnum (initial_state None None) events_ann).1
    !! "photo_1" = Some entry_ann ∧
  item_inv entry_ann.
Proof.
  destruct (engine_preserves_item_invariant ascii_isspace ascii_isalnum)
    as (Hops & Hstore & Hrun).
  assert (Hlookup :
    photos_data (run ascii_isspace ascii_isalnum (initial_state None None) events_ann).1
      !! "photo_1" = Some entry_ann) by (vm_compute; reflexivity).
  pose proof (Hrun None None events_ann "photo_1" entry_ann Hlookup) as Hinv.
  destruct (Hops entry_ann 10 Hinv) as (Hc & _ & Hu & _).
  split; [exact Hinv|]. split; [exact Hc|]. split; [exact Hu|].
  split; [|split; [exact Hlookup | exact Hinv]].
  apply Hstore; [exact Hinv | vm_compute; reflexivity].
Defined.

(** C2 (as the code has it).  The explicit confirmation checks, in this
    order: the participant has no name - NotRegistered; the confirmed list
    already holds [MAX_CONFIRMED_USERS] entries - CapacityFull, whether or not
    the participant is one of them; the participant is in the list -
    AlreadyConfirmed; otherwise the participant is appended at the end under
    the registered name and the answer carries the new last position and its
    icon. *)
Theorem confirm_outcome d uid :
  (get_users d !! uid = None → confirm d uid = (d, Failed NotRegistered)) ∧
  (is_Some (get_users d !! uid) →
   (MAX_CONFIRMED_USERS ≤ length (get_confirmed d))%nat →
   confirm d uid = (d, Failed CapacityFull)) ∧
  (is_Some (get_users d !! uid) →
   (length (get_confirmed d) < MAX_CONFIRMED_USERS)%nat →
   uid ∈ user_id <$> get_confirmed d →
   confirm d uid = (d, Failed AlreadyConfirmed)) ∧
  (∀ user_name, get_users d !! uid = Some user_name →
   (length (get_confirmed d) < MAX_CONFIRMED_USERS)%nat →
   uid ∉ user_id <$> get_confirmed d →
   confirm d uid =
     (set_confirmed d (get_confirmed d ++ [ConfirmedUser uid user_name]),
      Confirmed (Z.of_nat (length (get_confirmed d)))
                (get_user_icon (Z.of_nat (length (get_confirmed d)))))).
Proof.
  destruct (confirm_cases d uid)
    as [[Hu E]|[(Hu & Hlen & E)|[(Hu & Hlen & Hin & E)|(n & Hu & Hlen & Hin & E)]]].
  - split; [done|]. rewrite Hu.
    split; [by intros [? ?]|]. split; [by intros [? ?] | done].
  - split; [by destruct Hu as [? ->]|]. split; [done|].
    split; [lia | intros; lia].
  - split; [by destruct Hu as [? ->]|]. split; [lia|]. split; [done|]. done.
  - split; [by rewrite Hu|]. split; [lia|]. split; [done|].
    intros m Hm. rewrite Hu in Hm. by injection Hm as <-.
Qed.

Lemma confirm_outcome_witness :
  confirm entry_full 9 = (entry_full, Failed NotRegistered) ∧
  confirm entry_full 5 = (entry_full, Failed CapacityFull) ∧
  confirm entry_ann 10 = (entry_ann, Failed AlreadyConfirmed) ∧
  confirm (set_users entry_ann (<[11 := bob]> {[10 := ann]})) 11 =
    (set_confirmed (set_users entry_ann (<[11 := bob]> {[10 := ann]}))
       [ConfirmedUser 10 ann; ConfirmedUser 11 bob],
     Confirmed 1 icon_sun_cloud).
Proof.
  split; [|split; [|split]].
  - apply (confirm_outcome entry_full 9). vm_compute. reflexivity.
  - apply (confirm_outcome entry_full 5).
    + exists (name_of 5). vm_compute. reflexivity.
    + vm_compute. lia.
  - apply (confirm_outcome entry_ann 10).
    + exists ann. vm_compute. reflexivity.
    + vm_compute. lia.
    + vm_compute. apply list_elem_of_singleton. reflexivity.
  - apply (proj2 (proj2 (proj2
      (confirm_outcome (set_users entry_ann (<[11 := bob]> {[10 := ann]})) 11))) bob).
    + vm_compute. reflexivity.
    + vm_compute. lia.
    + simpl. intros Hin%list_elem_of_singleton. discriminate Hin.
Defined.

(** C2, the claim as written fails: a participant who is registered and
    already confirmed under a full list is answered CapacityFull. *)
Lemma confirm_full_list_before_already_confirmed :
  get_users entry_full !! 1 = Some (name_of 1) ∧
  is_confirmed_in 1 (get_confirmed entry_full) = true ∧
  length (get_confirmed entry_full) = MAX_CONFIRMED_USERS ∧
  confirm entry_full 1 = (entry_full, Failed CapacityFull) ∧
  (confirm entry_full 1).2 ≠ Failed AlreadyConfirmed.
Proof. vm_compute. repeat split; discriminate. Qed.

Lemma remove_confirmed_shorter uid l :
  (length (remove_confirmed uid l) < length l)%nat ↔ uid ∈ user_id <$> l.
Proof.
  pose proof (remove_confirmed_length uid l) as Hle.
  pose proof (remove_confirmed_length_eq uid l) as Heq.
  destruct (decide (uid ∈ user_id <$> l)) as [Hin|Hnin]; split; try done.
  - intros _. destruct (decide (length (remove_confirmed uid l) = length l)) as [E|]; [|lia].
    by apply Heq in E.
  - apply Heq in Hnin. lia.
Qed.

Lemma admin_delete_failure d uid :
  get_users d !! uid = None ∨ get_users d !! uid = Some [] →
  admin_delete d uid = (d, Failed NotRegistered).
Proof. unfold admin_delete. by intros [-> | ->]. Qed.

Lemma admin_delete_success d uid user_name :
  get_users d !! uid = Some user_name → user_name ≠ [] →
  admin_delete d uid =
    ((drop_name (drop_confirmation d uid) uid).1,
     ParticipantDeleted (bool_decide (uid ∈ user_id <$> get_confirmed d)) true).
Proof.
  intros Hu Hne. unfold admin_delete. rewrite Hu.
  destruct user_name as [|c n]; [done|]. simpl.
  pose proof (drop_name_flag (drop_confirmation d uid) uid) as Hflag.
  rewrite drop_confirmation_users, Hu in Hflag.
  destruct (drop_name (drop_confirmation d uid) uid) as [d2 removed]. simpl in *.
  subst removed. f_equal. f_equal. rewrite drop_confirmation_confirmed.
  destruct (confirmed_users d) as [cs|] eqn:Hc.
  - apply bool_decide_ext. apply remove_confirmed_shorter.
  - unfold get_confirmed. by rewrite Hc.
Qed.



(** ** Removal from the middle of the confirmed list *)

Lemma position_of_before v l1 x l2 :
  v ∈ user_id <$> l1 →
  position_of v (l1 ++ l2) = position_of v (l1 ++ x :: l2).
Proof.
  intros Hv. unfold position_of. by rewrite !position_from_app_l.
Qed.

Lemma position_of_after v l1 x l2 :
  NoDup (user_id <$> (l1 ++ x :: l2)) → v ∈ user_id <$> l2 →
  position_of v (l1 ++ l2) = position_of v (l1 ++ x :: l2) - 1.
Proof.
  rewrite fmap_app, fmap_cons. intros (_ & Hl1 & [Hx _]%NoDup_cons)%NoDup_app Hv.
  assert (v ∉ user_id <$> l1) as Hnot.
  { intros Hin. apply (Hl1 _ Hin). by right. }
  assert (user_id x ≠ v) as Hne by (intros E; apply Hx; by rewrite E).
  unfold position_of. rewrite !position_from_app_r by done. simpl.
  destruct (Z.eqb_spec (user_id x) v); [done|].
  rewrite (position_from_shift (0 + Z.of_nat (length l1)) v l2 Hv).
  rewrite (position_from_shift (0 + Z.of_nat (length l1) + 1) v l2 Hv). lia.
Qed.

Lemma confirm_delete_success d uid user_name :
  get_users d !! uid = Some user_name → user_name ≠ [] →
  confirm_delete d uid =
    ((drop_name (drop_confirmation d uid) uid).1, NameDeleted user_name).
Proof.
  intros Hu Hne. unfold confirm_delete. rewrite Hu. by destruct user_name.
Qed.

Lemma with_keys_id d :
  is_Some (users d) → is_Some (confirmed_users d) → with_keys d = d.
Proof. destruct d as [p q us cs]. by intros [? [= ->]] [? [= ->]]. Qed.

Lemma entry_eq d e :
  photo d = photo e → photo_file_unique_id d = photo_file_unique_id e →
  users d = users e → confirmed_users d = confirmed_users e → d = e.
Proof. destruct d, e. simpl. by intros -> -> -> ->. Qed.

(** C4. For an entry with the invariant and a participant without a name
    on it, storing a name (with the automatic confirmation, if a place is
    free) and then removing the own name gives back the registered set, the
    confirmed list and the media keys of before: the entry is the one of
    before (with the participant keys present, should they have been
    absent).  In general the removal of the own name takes the participant
    out of the confirmed list and leaves the others in their order: those
    before keep their position, those after move down by one. *)
Theorem register_then_unregister :
  (∀ d uid user_name_safe,
     item_inv d → get_users d !! uid = None → user_name_safe ≠ [] →
     let d1 := (store_name d uid user_name_safe).1 in
     let d2 := (confirm_delete d1 uid).1 in
     (confirm_delete d1 uid).2 = NameDeleted user_name_safe ∧
     get_users d2 = get_users d ∧
     get_confirmed d2 = get_confirmed d ∧
     photo d2 = photo d ∧ photo_file_unique_id d2 = photo_file_unique_id d ∧
     d2 = with_keys d ∧
     (is_Some (users d) → is_Some (confirmed_users d) → d2 = d)) ∧
  (∀ d l1 x l2,
     item_inv d → name x ≠ [] → get_confirmed d = l1 ++ x :: l2 →
     let d' := (confirm_delete d (user_id x)).1 in
     get_users d' = delete (user_id x) (get_users d) ∧
     get_confirmed d' = l1 ++ l2 ∧
     (∀ v, v ∈ user_id <$> l1 →
        position_of v (get_confirmed d') = position_of v (get_confirmed d)) ∧
     (∀ v, v ∈ user_id <$> l2 →
        position_of v (get_confirmed d') = position_of v (get_confirmed d) - 1)).
Proof.
  split.
  - intros d uid safe Hinv Hfree Hne d1 d2.
    pose proof (not_registered_not_confirmed d uid Hinv Hfree) as Hfresh.
    destruct (store_name_views d uid safe Hfresh) as (Hu1 & Hc1 & Hp1 & Hq1).
    fold d1 in Hu1, Hc1, Hp1, Hq1.
    assert (Hreg : get_users d1 !! uid = Some safe) by (by rewrite Hu1, lookup_insert_eq).
    subst d2. rewrite (confirm_delete_success d1 uid safe Hreg Hne). simpl.
    destruct (removed_views d1 uid) as (Hu2 & Hc2 & Hp2 & Hq2). simpl in *.
    assert (Hu : get_users (drop_name (drop_confirmation d1 uid) uid).1 = get_users d).
    { by rewrite Hu2, Hu1, delete_insert_id. }
    assert (Hc : get_confirmed (drop_name (drop_confirmation d1 uid) uid).1
                 = get_confirmed d).
    { rewrite Hc2, Hc1. case_bool_decide.
      - rewrite remove_confirmed_app, (remove_confirmed_absent uid _ Hfresh).
        unfold remove_confirmed. simpl. rewrite Z.eqb_refl. simpl. apply app_nil_r.
      - by apply remove_confirmed_absent. }
    assert (Hkeys : (drop_name (drop_confirmation d1 uid) uid).1 = with_keys d).
    { assert (is_Some (users d1) ∧ is_Some (confirmed_users d1)) as [[us1 Hus1] [cs1 Hcs1]].
      { subst d1. unfold store_name.
        repeat match goal with |- context [if ?b then _ else _] => destruct b end;
          simpl; split; by eexists. }
      apply entry_eq; simpl.
      - by rewrite Hp2.
      - by rewrite Hq2.
      - unfold get_users in Hu. unfold drop_name, drop_confirmation in *.
        rewrite Hcs1 in *. simpl in *. rewrite Hus1 in *.
        unfold get_users in Hreg. rewrite Hus1 in Hreg. simpl in Hreg.
        rewrite Hreg in *. simpl in *. by rewrite Hu.
      - unfold get_confirmed in Hc. unfold drop_name, drop_confirmation in *.
        rewrite Hcs1 in *. simpl in *. rewrite Hus1 in *.
        unfold get_users in Hreg. rewrite Hus1 in Hreg. simpl in Hreg.
        rewrite Hreg in *. simpl in *. by rewrite Hc. }
    split; [done|]. split; [done|]. split; [done|].
    split; [by rewrite Hp2|]. split; [by rewrite Hq2|]. split; [done|].
    intros ??. by rewrite Hkeys, with_keys_id.
  - intros d l1 x l2 Hinv Hne Hd d'.
    assert (Hx : get_users d !! user_id x = Some (name x)).
    { apply (inv_registered _ Hinv). rewrite Hd. apply elem_of_app. right. by left. }
    subst d'. rewrite (confirm_delete_success d (user_id x) (name x) Hx Hne). simpl.
    destruct (removed_views d (user_id x)) as (Hu2 & Hc2 & _). simpl in *.
    pose proof (inv_distinct _ Hinv) as Hnd. rewrite Hd in Hnd.
    rewrite Hc2, Hd, remove_confirmed_middle by done.
    split; [done|]. split; [done|]. split.
    + intros v Hv. by apply position_of_before.
    + intros v Hv. by apply position_of_after.
Qed.

Lemma register_then_unregister_witness :
  (confirm_delete (store_name entry_ann 11 bob).1 11).1 = entry_ann ∧
  get_confirmed (confirm_delete entry_full 2).1 =
    [ConfirmedUser 1 (name_of 1); ConfirmedUser 3 (name_of 3); ConfirmedUser 4 (name_of 4)] ∧
  position_of 1 (get_confirmed (confirm_delete entry_full 2).1) = 0 ∧
  position_of 4 (get_confirmed (confirm_delete entry_full 2).1) = 3 - 1.
Proof.
  destruct register_then_unregister as [Hround Hshift].
  split.
  - apply (Hround entry_ann 11 bob).
    + apply item_inv_check_sound. vm_compute. reflexivity.
    + vm_compute. reflexivity.
    + vm_compute. discriminate.
    + eexists. reflexivity.
    + eexists. reflexivity.
  - destruct (Hshift entry_full [ConfirmedUser 1 (name_of 1)] (ConfirmedUser 2 (name_of 2))
                [ConfirmedUser 3 (name_of 3); ConfirmedUser 4 (name_of 4)])
      as (_ & Hc & Hbefore & Hafter).
    + apply item_inv_check_sound. vm_compute. reflexivity.
    + vm_compute. discriminate.
    + vm_compute. reflexivity.
    + split; [exact Hc|]. split.
      * transitivity (position_of 1 (get_confirmed entry_full));
          [|vm_compute; reflexivity].
        apply (Hbefore 1). apply list_elem_of_singleton. reflexivity.
      * transitivity (position_of 4 (get_confirmed entry_full) - 1);
          [|vm_compute; reflexivity].
        apply (Hafter 4). simpl. apply elem_of_cons. right.
        apply list_elem_of_singleton. reflexivity.
Defined.

Lemma store_name_fresh d uid user_name_safe :
  uid ∉ user_id <$> get_confirmed d →
  (length (get_confirmed d) < MAX_CONFIRMED_USERS)%nat →
  store_name d uid user_name_safe =
    (set_confirmed (set_users d (<[uid := user_name_safe]> (get_users d)))
       (get_confirmed d ++ [ConfirmedUser uid user_name_safe]),
     SavedAutoConfirmed (Z.of_nat (length (get_confirmed d)))
       (get_user_icon (Z.of_nat (length (get_confirmed d))))).
Proof.
  intros Hfresh%is_confirmed_in_false Hlt. unfold store_name. rewrite Hfresh. simpl.
  destruct (Z.ltb_spec (Z.of_nat (length (get_confirmed d))) (Z.of_nat MAX_CONFIRMED_USERS));
    [|lia].
  replace (Z.of_nat (length (get_confirmed d)) + 1 - 1)
    with (Z.of_nat (length (get_confirmed d))) by lia.
  done.
Qed.

(** C5 (as the code has it).  For an entry with the invariant and
    non-empty names, and a participant in the confirmed list, the moderator
    removal of the confirmation takes that one entry out: the registered
    set (the name of the participant included) and the media keys are those
    of before, the other confirmed entries keep their order, and the
    participant is not in the list any more.  The freed place is taken by the
    next confirmation, which appends at the end of the shortened list: the
    explicit one of a registered participant, or the automatic one of a
    participant who registers. *)
Theorem admin_unconfirm_frame d uid :
  item_ok d → uid ∈ user_id <$> get_confirmed d →
  let d' := (admin_unconfirm d uid).1 in
  (admin_unconfirm d uid).2 = ConfirmationRemoved (length (get_confirmed d) - 1) ∧
  users d' = users d ∧
  photo d' = photo d ∧ photo_file_unique_id d' = photo_file_unique_id d ∧
  get_users d' !! uid = get_users d !! uid ∧ is_Some (get_users d' !! uid) ∧
  get_confirmed d' = remove_confirmed uid (get_confirmed d) ∧
  (∀ l1 x l2, get_confirmed d = l1 ++ x :: l2 → user_id x = uid →
     get_confirmed d' = l1 ++ l2) ∧
  (uid ∉ user_id <$> get_confirmed d') ∧
  (∀ v user_name, get_users d' !! v = Some user_name →
     v ∉ user_id <$> get_confirmed d' →
     confirm d' v =
       (set_confirmed d' (get_confirmed d' ++ [ConfirmedUser v user_name]),
        Confirmed (Z.of_nat (length (get_confirmed d')))
          (get_user_icon (Z.of_nat (length (get_confirmed d')))))) ∧
  (∀ v user_name_safe, get_users d' !! v = None →
     store_name d' v user_name_safe =
       (set_confirmed (set_users d' (<[v := user_name_safe]> (get_users d')))
          (get_confirmed d' ++ [ConfirmedUser v user_name_safe]),
        SavedAutoConfirmed (Z.of_nat (length (get_confirmed d')))
          (get_user_icon (Z.of_nat (length (get_confirmed d')))))).
Proof.
  intros [Hinv Hnames] Hin d'.
  pose proof Hin as (x & Hxid & Hx)%list_elem_of_fmap.
  pose proof (inv_registered _ Hinv x Hx) as Hreg. rewrite <- Hxid in Hreg.
  pose proof (Hnames _ _ Hreg) as Hne.
  assert (∃ cs, confirmed_users d = Some cs ∧ get_confirmed d = cs) as (cs & Hkey & Hcs).
  { unfold get_confirmed in *. destruct (confirmed_users d) as [cs|]; [by eexists|].
    by apply elem_of_nil in Hx. }
  apply remove_confirmed_shorter in Hin as Hshort.
  assert (Hrun : admin_unconfirm d uid =
    (set_confirmed d (remove_confirmed uid cs),
     ConfirmationRemoved (length (remove_confirmed uid cs)))).
  { unfold admin_unconfirm. rewrite Hreg, Hkey.
    destruct (name x) as [|c n] eqn:Hn; [done|]. simpl.
    rewrite get_confirmed_set_confirmed. rewrite Hcs in *.
    case_bool_decide as Hlen; [lia | done]. }
  subst d'. rewrite Hrun. simpl. rewrite get_confirmed_set_confirmed, Hcs.
  assert (Hmid : ∀ l1 y l2, cs = l1 ++ y :: l2 → user_id y = uid →
                 remove_confirmed uid cs = l1 ++ l2).
  { intros l1 y l2 -> Hy. apply remove_confirmed_middle; [|done].
    rewrite <- Hcs. apply Hinv. }
  assert (Hlen : (length (remove_confirmed uid cs) = length cs - 1)%nat).
  { apply list_elem_of_split in Hx as (l1 & l2 & Hsplit). rewrite Hcs in Hsplit.
    rewrite (Hmid l1 x l2 Hsplit (eq_sym Hxid)), Hsplit, !length_app. simpl. lia. }
  assert (Hgone : uid ∉ user_id <$> remove_confirmed uid cs).
  { by intros (y & -> & [_ Hy]%elem_of_remove_confirmed)%list_elem_of_fmap. }
  assert (Hroom : (length (remove_confirmed uid cs) < MAX_CONFIRMED_USERS)%nat).
  { pose proof (inv_capacity _ Hinv) as Hcap. rewrite Hcs in Hcap, Hshort. lia. }
  split; [by rewrite Hlen|]. split; [done|]. split; [done|]. split; [done|].
  split; [done|]. split; [by eexists|]. split; [done|]. split; [done|].
  split; [done|]. split.
  - intros v n Hv Hfresh.
    destruct (confirm_cases (set_confirmed d (remove_confirmed uid cs)) v)
      as [[E _]|[(_ & Hfull & _)|[(_ & _ & Hc & _)|(m & Hm & _ & _ & ->)]]].
    + rewrite Hv in E. done.
    + rewrite get_confirmed_set_confirmed in Hfull. lia.
    + by rewrite get_confirmed_set_confirmed in Hc.
    + rewrite Hv in Hm. injection Hm as <-.
      by rewrite get_confirmed_set_confirmed.
  - intros v n Hv.
    assert (Hfresh : v ∉ user_id <$> remove_confirmed uid cs).
    { intros (y & -> & [Hy _]%elem_of_remove_confirmed)%list_elem_of_fmap.
      rewrite <- Hcs in Hy. apply (inv_registered _ Hinv) in Hy.
      rewrite get_users_set_confirmed in Hv. rewrite Hv in Hy. done. }
    by rewrite store_name_fresh.
Qed.

Lemma admin_unconfirm_frame_witness :
  (admin_unconfirm entry_full 2).2 = ConfirmationRemoved 3 ∧
  users (admin_unconfirm entry_full 2).1 = users entry_full ∧
  user_id <$> get_confirmed (admin_unconfirm entry_full 2).1 = [1; 3; 4] ∧
  (confirm (admin_unconfirm entry_full 2).1 5).2 = Confirmed 3 icon_star ∧
  (store_name (admin_unconfirm entry_full 2).1 6 bob).2 = SavedAutoConfirmed 3 icon_star.
Proof.
  assert (Hok : item_ok entry_full).
  { apply item_ok_check_sound. vm_compute. reflexivity. }
  assert (Hin : 2 ∈ user_id <$> get_confirmed entry_full).
  { apply is_confirmed_in_spec. vm_compute. reflexivity. }
  destruct (admin_unconfirm_frame entry_full 2 Hok Hin)
    as (Hr & Hu & _ & _ & _ & _ & Hc & _ & _ & Hconfirm & Hstore).
  split; [rewrite Hr; vm_compute; reflexivity|]. split; [exact Hu|].
  split; [rewrite Hc; vm_compute; reflexivity|]. split.
  - rewrite (Hconfirm 5 (name_of 5)).
    + rewrite Hc. vm_compute. reflexivity.
    + vm_compute. reflexivity.
    + apply is_confirmed_in_false. vm_compute. reflexivity.
  - rewrite (Hstore 6 bob).
    + rewrite Hc. vm_compute. reflexivity.
    + vm_compute. reflexivity.
Defined.

(** C5, the claim as written fails: after the moderator took the
    confirmation of participant 12 away, the freed place goes to participant
    16, who registers and is confirmed automatically at the end of the list;
    no explicit confirmation takes place. *)
Lemma freed_place_taken_by_registration :
  Forall (λ e, ∀ uid photo_id, e ≠ Button uid (ConfirmName photo_id))
    events_unconfirm_then_register ∧
  last (run ascii_isspace ascii_isalnum (initial_state None None)
          events_unconfirm_then_register).2
    = Some (SavedAutoConfirmed 3 icon_star) ∧
  (λ d, user_id <$> get_confirmed d) <$>
    (photos_data (run ascii_isspace ascii_isalnum (initial_state None None)
                    events_unconfirm_then_register).1 !! "photo_1")
    = Some [11; 13; 14; 16].
Proof.
  split; [|split; vm_compute; reflexivity].
  unfold events_unconfirm_then_register.
  repeat (apply Forall_cons; split; [intros ??; discriminate|]). apply Forall_nil_2.
Qed.

(** ** Moderators *)

(** C6 (as the code has it).  [remove_admin] checks, in this order: the
    requester is no moderator - Forbidden; the target is not in the set -
    NotModerator; the set has at most one member, so that removing the target
    would empty it - LastModerator; the target is the requester -
    SelfRemoval; otherwise the target leaves the set.  With exactly one
    moderator, that moderator is answered LastModerator when naming the own
    identity and NotModerator for any other target. *)
Theorem remove_admin_outcome s uid target :
  (uid ∉ admins s → remove_admin s uid (Number target) = (s, Failed Forbidden)) ∧
  (uid ∈ admins s → target ∉ admins s →
   remove_admin s uid (Number target) = (s, Failed NotModerator)) ∧
  (uid ∈ admins s → target ∈ admins s → (size (admins s) ≤ 1)%nat →
   remove_admin s uid (Number target) = (s, Failed LastModerator)) ∧
  (uid ∈ admins s → target ∈ admins s → (1 < size (admins s))%nat → target = uid →
   remove_admin s uid (Number target) = (s, Failed SelfRemoval)) ∧
  (uid ∈ admins s → target ∈ admins s → (1 < size (admins s))%nat → target ≠ uid →
   remove_admin s uid (Number target) =
     (with_admins s (admins s ∖ {[target]}), AdminRemoved)) ∧
  (size (admins s) = 1%nat → uid ∈ admins s →
   remove_admin s uid (Number target) =
     (s, Failed (if bool_decide (target = uid) then LastModerator else NotModerator))).
Proof.
  unfold remove_admin, is_admin.
  destruct (decide (uid ∈ admins s)) as [Hu|Hu].
  2:{ rewrite (bool_decide_eq_false_2 _ Hu). simpl.
      split; [done|]. repeat split; intros; done. }
  rewrite (bool_decide_eq_true_2 _ Hu). simpl.
  split; [done|].
  destruct (decide (target ∈ admins s)) as [Ht|Ht].
  2:{ rewrite (bool_decide_eq_false_2 _ Ht). simpl.
      split; [done|]. split; [done|]. split; [done|]. split; [done|].
      intros Hone _. case_bool_decide as E; [|done]. by subst target. }
  rewrite (bool_decide_eq_true_2 _ Ht). simpl. split; [done|].
  destruct (decide (size (admins s) ≤ 1)%nat) as [Hs|Hs].
  - rewrite (bool_decide_eq_true_2 _ Hs).
    split; [done|]. split; [intros; lia|]. split; [intros; lia|].
    intros Hone _. case_bool_decide as E; [done|]. exfalso. apply E.
    apply size_1_elem_of in Hone as [a Ha].
    apply Ha, elem_of_singleton in Hu. apply Ha, elem_of_singleton in Ht. congruence.
  - rewrite (bool_decide_eq_false_2 _ Hs). split; [intros; lia|].
    case_bool_decide as E.
    + split; [done|]. split; [done|]. intros; lia.
    + split; [done|]. split; [done|]. intros; lia.
Qed.

Lemma remove_admin_outcome_witness :
  remove_admin one_admin 7 (Number 1) = (one_admin, Failed Forbidden) ∧
  remove_admin one_admin 1 (Number 2) = (one_admin, Failed NotModerator) ∧
  remove_admin one_admin 1 (Number 1) = (one_admin, Failed LastModerator) ∧
  remove_admin two_admins 1 (Number 1) = (two_admins, Failed SelfRemoval) ∧
  remove_admin two_admins 1 (Number 2) =
    (with_admins two_admins (admins two_admins ∖ {[2]}), AdminRemoved) ∧
  remove_admin one_admin 1 (Number 2) =
    (one_admin, Failed (if bool_decide (2 = 1) then LastModerator else NotModerator)).
Proof.
  assert (In1 : (1:Z) ∈ admins one_admin) by compute_done.
  assert (In21 : (1:Z) ∈ admins two_admins) by compute_done.
  assert (In22 : (2:Z) ∈ admins two_admins) by compute_done.
  assert (Size2 : (1 < size (admins two_admins))%nat) by (vm_compute; lia).
  destruct (remove_admin_outcome one_admin 7 1) as (Forb & _).
  destruct (remove_admin_outcome one_admin 1 2) as (_ & NotMod & _ & _ & _ & Sole).
  destruct (remove_admin_outcome one_admin 1 1) as (_ & _ & Last & _).
  destruct (remove_admin_outcome two_admins 1 1) as (_ & _ & _ & Self & _).
  destruct (remove_admin_outcome two_admins 1 2) as (_ & _ & _ & _ & Removed & _).
  split; [|split; [|split; [|split; [|split]]]].
  - apply Forb. compute_done.
  - apply NotMod; [exact In1 | compute_done].
  - apply Last; [exact In1 | exact In1 | vm_compute; lia].
  - apply Self; [exact In21 | exact In21 | exact Size2 | reflexivity].
  - apply Removed; [exact In21 | exact In22 | exact Size2 | discriminate].
  - apply Sole; [vm_compute; reflexivity | exact In1].
Defined.

(** C6, the claim as written fails: with exactly one moderator, naming a
    target that is no moderator is answered NotModerator. *)
Lemma sole_admin_absent_target :
  size (admins one_admin) = 1%nat ∧
  is_admin one_admin 1 = true ∧
  remove_admin one_admin 1 (Number 2) = (one_admin, Failed NotModerator) ∧
  (remove_admin one_admin 1 (Number 2)).2 ≠ Failed LastModerator.
Proof. vm_compute. repeat split; discriminate. Qed.

(** ** Ranks *)

Lemma confirm_success d uid user_name :
  get_users d !! uid = Some user_name →
  (length (get_confirmed d) < MAX_CONFIRMED_USERS)%nat →
  uid ∉ user_id <$> get_confirmed d →
  confirm d uid =
    (set_confirmed d (get_confirmed d ++ [ConfirmedUser uid user_name]),
     Confirmed (Z.of_nat (length (get_confirmed d)))
               (get_user_icon (Z.of_nat (length (get_confirmed d))))).
Proof.
  intros Hu Hlt Hfresh.
  destruct (confirm_cases d uid)
    as [[E _]|[(_ & Hfull & _)|[(_ & _ & Hc & _)|(m & Hm & _ & _ & ->)]]];
    [congruence | lia | done | congruence].
Qed.

Lemma confirm_full d uid :
  is_Some (get_users d !! uid) →
  (MAX_CONFIRMED_USERS ≤ length (get_confirmed d))%nat →
  confirm d uid = (d, Failed CapacityFull).
Proof.
  intros [n Hn] Hfull.
  destruct (confirm_cases d uid)
    as [[E _]|[(_ & _ & ->)|[(_ & Hlt & _)|(m & _ & Hlt & _)]]];
    [congruence | done | lia | lia].
Qed.

Lemma store_name_waiting d uid user_name_safe :
  uid ∉ user_id <$> get_confirmed d →
  (MAX_CONFIRMED_USERS ≤ length (get_confirmed d))%nat →
  store_name d uid user_name_safe =
    (set_confirmed (set_users d (<[uid := user_name_safe]> (get_users d)))
       (get_confirmed d),
     SavedWaiting).
Proof.
  intros Hfresh%is_confirmed_in_false Hfull. unfold store_name. rewrite Hfresh. simpl.
  destruct (Z.ltb_spec (Z.of_nat (length (get_confirmed d))) (Z.of_nat MAX_CONFIRMED_USERS));
    [lia | done].
Qed.

Lemma confirm_each_step d uid rest d' r :
  confirm d uid = (d', r) →
  confirm_each d (uid :: rest) =
    ((confirm_each d' rest).1, r :: (confirm_each d' rest).2).
Proof. intros H. cbn [confirm_each]. by rewrite H. Qed.

Lemma store_each_step d uid n rest d' r :
  store_name d uid n = (d', r) →
  store_each d ((uid, n) :: rest) =
    ((store_each d' rest).1, r :: (store_each d' rest).2).
Proof. intros H. cbn [store_each]. by rewrite H. Qed.

(** Membership in a list written out, and the pairwise differences of five
    distinct identities. *)
Ltac in_list :=
  repeat first [apply list_elem_of_here | apply list_elem_of_further].

Ltac not_in_list :=
  simpl; rewrite ?not_elem_of_cons;
  repeat first [apply not_elem_of_nil | split | congruence].

Ltac distinct_five H :=
  repeat (let D := fresh "D" in apply NoDup_cons in H as [D H]);
  repeat match goal with
         | D : _ ∉ _ :: _ |- _ =>
           let E := fresh "Hne" in apply not_elem_of_cons in D as [E D]
         end.

(** C7. [get_user_icon] is a total function of the position: positions
    0 and 1 give the two daytime symbols, positions 2 and 3 the two
    nighttime symbols, every position from 4 on (and any other integer) the
    participant symbol.  Five registered participants confirming in turn on
    an entry with an empty confirmed list get the four special ranks in
    order, and the fifth is answered CapacityFull.  The same for five
    participants registering in turn: the first four are confirmed
    automatically with these ranks, the fifth waits, and the explicit
    confirmation of the fifth is answered CapacityFull. *)
Theorem rank_assignment :
  (∀ index,
     (index = 0 → get_user_icon index = icon_sun) ∧
     (index = 1 → get_user_icon index = icon_sun_cloud) ∧
     (index = 2 → get_user_icon index = icon_moon) ∧
     (index = 3 → get_user_icon index = icon_star) ∧
     (index = 0 ∨ index = 1 → family_of (get_user_icon index) = Some Daytime) ∧
     (index = 2 ∨ index = 3 → family_of (get_user_icon index) = Some Nighttime) ∧
     (4 ≤ index → get_user_icon index = icon_person) ∧
     (4 ≤ index ∨ index < 0 → family_of (get_user_icon index) = Some Participant)) ∧
  (MAX_CONFIRMED_USERS = 4%nat →
   ∀ d a1 a2 a3 a4 a5,
     get_confirmed d = [] →
     NoDup [a1; a2; a3; a4; a5] →
     (∀ a, a ∈ [a1; a2; a3; a4; a5] → is_Some (get_users d !! a)) →
     (confirm_each d [a1; a2; a3; a4; a5]).2 =
       [Confirmed 0 icon_sun; Confirmed 1 icon_sun_cloud;
        Confirmed 2 icon_moon; Confirmed 3 icon_star; Failed CapacityFull] ∧
     user_id <$> get_confirmed (confirm_each d [a1; a2; a3; a4; a5]).1 =
       [a1; a2; a3; a4]) ∧
  (MAX_CONFIRMED_USERS = 4%nat →
   ∀ d a1 a2 a3 a4 a5 n1 n2 n3 n4 n5,
     get_confirmed d = [] →
     NoDup [a1; a2; a3; a4; a5] →
     let registered := store_each d [(a1, n1); (a2, n2); (a3, n3); (a4, n4); (a5, n5)] in
     registered.2 =
       [SavedAutoConfirmed 0 icon_sun; SavedAutoConfirmed 1 icon_sun_cloud;
        SavedAutoConfirmed 2 icon_moon; SavedAutoConfirmed 3 icon_star; SavedWaiting] ∧
     confirm registered.1 a5 = (registered.1, Failed CapacityFull)).
Proof.
  split; [|split].
  - intros index. unfold get_user_icon.
    repeat split; intros H.
    + by subst.
    + by subst.
    + by subst.
    + by subst.
    + by destruct H; subst.
    + by destruct H; subst.
    + destruct (Z.eqb_spec index 0), (Z.eqb_spec index 1), (Z.eqb_spec index 2),
        (Z.eqb_spec index 3); (lia || done).
    + destruct (Z.eqb_spec index 0), (Z.eqb_spec index 1), (Z.eqb_spec index 2),
        (Z.eqb_spec index 3); (lia || done).
  - intros Hmax d a1 a2 a3 a4 a5 Hempty Hnd Hreg.
    destruct (Hreg a1) as [n1 H1]; [in_list|].
    destruct (Hreg a2) as [n2 H2]; [in_list|].
    destruct (Hreg a3) as [n3 H3]; [in_list|].
    destruct (Hreg a4) as [n4 H4]; [in_list|].
    destruct (Hreg a5) as [n5 H5]; [in_list|].
    clear Hreg. distinct_five Hnd.
    assert (E1 : confirm d a1 =
      (set_confirmed d [ConfirmedUser a1 n1], Confirmed 0 icon_sun)).
    { rewrite (confirm_success d a1 n1 H1); rewrite ?Hempty, ?Hmax;
        [reflexivity | simpl; lia | not_in_list]. }
    assert (E2 : confirm (set_confirmed d [ConfirmedUser a1 n1]) a2 =
      (set_confirmed d [ConfirmedUser a1 n1; ConfirmedUser a2 n2],
       Confirmed 1 icon_sun_cloud)).
    { rewrite (confirm_success _ a2 n2); rewrite ?get_confirmed_set_confirmed, ?Hmax;
        [reflexivity | exact H2 | simpl; lia | not_in_list]. }
    assert (E3 : confirm (set_confirmed d [ConfirmedUser a1 n1; ConfirmedUser a2 n2]) a3 =
      (set_confirmed d [ConfirmedUser a1 n1; ConfirmedUser a2 n2; ConfirmedUser a3 n3],
       Confirmed 2 icon_moon)).
    { rewrite (confirm_success _ a3 n3); rewrite ?get_confirmed_set_confirmed, ?Hmax;
        [reflexivity | exact H3 | simpl; lia | not_in_list]. }
    assert (E4 : confirm (set_confirmed d [ConfirmedUser a1 n1; ConfirmedUser a2 n2;
                                           ConfirmedUser a3 n3]) a4 =
      (set_confirmed d [ConfirmedUser a1 n1; ConfirmedUser a2 n2; ConfirmedUser a3 n3;
                        ConfirmedUser a4 n4],
       Confirmed 3 icon_star)).
    { rewrite (confirm_success _ a4 n4); rewrite ?get_confirmed_set_confirmed, ?Hmax;
        [reflexivity | exact H4 | simpl; lia | not_in_list]. }
    assert (E5 : confirm (set_confirmed d [ConfirmedUser a1 n1; ConfirmedUser a2 n2;
                                           ConfirmedUser a3 n3; ConfirmedUser a4 n4]) a5 =
      (set_confirmed d [ConfirmedUser a1 n1; ConfirmedUser a2 n2; ConfirmedUser a3 n3;
                        ConfirmedUser a4 n4],
       Failed CapacityFull)).
    { apply confirm_full; [by eexists|].
      rewrite get_confirmed_set_confirmed, Hmax. simpl. lia. }
    rewrite (confirm_each_step _ _ _ _ _ E1), (confirm_each_step _ _ _ _ _ E2),
      (confirm_each_step _ _ _ _ _ E3), (confirm_each_step _ _ _ _ _ E4),
      (confirm_each_step _ _ _ _ _ E5).
    by cbn [confirm_each fst snd].
  - intros Hmax d a1 a2 a3 a4 a5 n1 n2 n3 n4 n5 Hempty Hnd registered.
    distinct_five Hnd.
    pose (u1 := <[a1 := n1]> (get_users d)).
    pose (u2 := <[a2 := n2]> u1). pose (u3 := <[a3 := n3]> u2).
    pose (u4 := <[a4 := n4]> u3). pose (u5 := <[a5 := n5]> u4).
    pose (c1 := [ConfirmedUser a1 n1]).
    pose (c2 := c1 ++ [ConfirmedUser a2 n2]). pose (c3 := c2 ++ [ConfirmedUser a3 n3]).
    pose (c4 := c3 ++ [ConfirmedUser a4 n4]).
    assert (E1 : store_name d a1 n1 =
      (set_confirmed (set_users d u1) c1, SavedAutoConfirmed 0 icon_sun)).
    { rewrite (store_name_fresh d a1 n1); rewrite ?Hempty, ?Hmax;
        [reflexivity | not_in_list | simpl; lia]. }
    assert (E2 : store_name (set_confirmed (set_users d u1) c1) a2 n2 =
      (set_confirmed (set_users d u2) c2, SavedAutoConfirmed 1 icon_sun_cloud)).
    { rewrite (store_name_fresh _ a2 n2); rewrite ?get_confirmed_set_confirmed, ?Hmax;
        [reflexivity | not_in_list | simpl; lia]. }
    assert (E3 : store_name (set_confirmed (set_users d u2) c2) a3 n3 =
      (set_confirmed (set_users d u3) c3, SavedAutoConfirmed 2 icon_moon)).
    { rewrite (store_name_fresh _ a3 n3); rewrite ?get_confirmed_set_confirmed, ?Hmax;
        [reflexivity | not_in_list | simpl; lia]. }
    assert (E4 : store_name (set_confirmed (set_users d u3) c3) a4 n4 =
      (set_confirmed (set_users d u4) c4, SavedAutoConfirmed 3 icon_star)).
    { rewrite (store_name_fresh _ a4 n4); rewrite ?get_confirmed_set_confirmed, ?Hmax;
        [reflexivity | not_in_list | simpl; lia]. }
    assert (E5 : store_name (set_confirmed (set_users d u4) c4) a5 n5 =
      (set_confirmed (set_users d u5) c4, SavedWaiting)).
    { rewrite (store_name_waiting _ a5 n5); rewrite ?get_confirmed_set_confirmed, ?Hmax;
        [reflexivity | not_in_list | simpl; lia]. }
    assert (Eall : registered =
      (set_confirmed (set_users d u5) c4,
       [SavedAutoConfirmed 0 icon_sun; SavedAutoConfirmed 1 icon_sun_cloud;
        SavedAutoConfirmed 2 icon_moon; SavedAutoConfirmed 3 icon_star; SavedWaiting])).
    { subst registered.
      rewrite (store_each_step _ _ _ _ _ _ E1), (store_each_step _ _ _ _ _ _ E2),
        (store_each_step _ _ _ _ _ _ E3), (store_each_step _ _ _ _ _ _ E4),
        (store_each_step _ _ _ _ _ _ E5).
      by cbn [store_each fst snd]. }
    rewrite Eall. cbn [fst snd]. split; [done|]. apply confirm_full.
    + rewrite get_users_set_confirmed, get_users_set_users. subst u5.
      rewrite lookup_insert_eq. by eexists.
    + rewrite get_confirmed_set_confirmed, Hmax. simpl. lia.
Qed.

Lemma rank_assignment_witness :
  family_of (get_user_icon 1) = Some Daytime ∧
  family_of (get_user_icon 3) = Some Nighttime ∧
  family_of (get_user_icon 7) = Some Participant ∧
  (confirm_each (set_confirmed entry_full []) [1; 2; 3; 4; 5]).2 =
    [Confirmed 0 icon_sun; Confirmed 1 icon_sun_cloud;
     Confirmed 2 icon_moon; Confirmed 3 icon_star; Failed CapacityFull] ∧
  (store_each (new_entry "file-1" "uniq-1")
     [(1, ann); (2, bob); (3, ann); (4, bob); (5, ann)]).2 =
    [SavedAutoConfirmed 0 icon_sun; SavedAutoConfirmed 1 icon_sun_cloud;
     SavedAutoConfirmed 2 icon_moon; SavedAutoConfirmed 3 icon_star; SavedWaiting].
Proof.
  destruct rank_assignment as (Hicon & Hfive & Hregister).
  destruct (Hicon 1) as (_ & _ & _ & _ & Hday & _).
  destruct (Hicon 3) as (_ & _ & _ & _ & _ & Hnight & _).
  destruct (Hicon 7) as (_ & _ & _ & _ & _ & _ & _ & Hother).
  split; [apply Hday; right; reflexivity|].
  split; [apply Hnight; right; reflexivity|].
  split; [apply Hother; left; lia|].
  split.
  - apply (Hfive eq_refl (set_confirmed entry_full []) 1 2 3 4 5).
    + reflexivity.
    + compute_done.
    + intros a Ha.
      repeat (apply elem_of_cons in Ha as [->|Ha]; [eexists; vm_compute; reflexivity|]).
      by apply elem_of_nil in Ha.
  - apply (Hregister eq_refl (new_entry "file-1" "uniq-1") 1 2 3 4 5 ann bob ann bob ann).
    + reflexivity.
    + compute_done.
Defined.

(** ** Identifiers of new photos *)

Lemma photo_name_inj n m : photo_name n = photo_name m → n = m.
Proof. unfold photo_name. intros H%(inj _). by apply (inj pretty). Qed.

Lemma handle_photo_admin s uid file_id file_unique_id :
  uid ∈ admins s →
  handle_photo s uid file_id file_unique_id =
    (with_photos s (<[photo_name (size (photos_data s) + 1) :=
                        new_entry file_id file_unique_id]> (photos_data s)),
     PhotoAdded (photo_name (size (photos_data s) + 1))).
Proof.
  intros Hadmin. unfold handle_photo, is_admin.
  by rewrite (bool_decide_eq_true_2 _ Hadmin).
Qed.

Lemma numbered_insert k photos d :
  numbered k photos → numbered (S k) (<[photo_name (k + 1) := d]> photos).
Proof.
  intros [Hsize Hkeys].
  assert (Hfresh : photos !! photo_name (k + 1) = None).
  { destruct (photos !! photo_name (k + 1)) eqn:E; [|done].
    destruct (Hkeys (photo_name (k + 1))) as (i & Hi & Heq); [by eexists|].
    apply photo_name_inj in Heq. lia. }
  split.
  - rewrite map_size_insert_None by done. lia.
  - intros key. rewrite lookup_insert. case_decide as Hk.
    + intros _. exists (k + 1)%nat. split; [lia | done].
    + intros (i & Hi & ->)%Hkeys. exists i. split; [lia | done].
Qed.

Section Creation.
Variable is_space : N → bool.
Variable is_alnum : N → bool.

Lemma run_photos_numbered s uid k files :
  uid ∈ admins s → numbered k (photos_data s) →
  (run is_space is_alnum s ((λ f, MsgPhoto uid f.1 f.2) <$> files)).2 =
    (λ i, PhotoAdded (photo_name i)) <$> seq (S k) (length files).
Proof.
  revert s k. induction files as [|[f u] files IH]; intros s k Hadmin Hnum; [done|].
  simpl. rewrite (handle_photo_admin s uid f u Hadmin).
  destruct Hnum as [Hsize Hkeys]. rewrite Hsize.
  specialize (IH (with_photos s (<[photo_name (k + 1) := new_entry f u]> (photos_data s)))
                (S k) Hadmin (numbered_insert k _ _ (conj Hsize Hkeys))).
  destruct (run is_space is_alnum _ _) as [s2 rs]. simpl in *. rewrite IH.
  f_equal. f_equal. f_equal. lia.
Qed.
End Creation.

(** C8 (as the code has it).  A photo sent by a moderator is stored under
    photo_n, where n is the number of photos in the collection at that moment
    plus one.  Starting from an empty collection and with nothing removed in
    between, this numbers the photos 1, 2, 3, ... in the order of their
    creation. *)
Theorem handle_photo_identifier (is_space is_alnum : N → bool) :
  (∀ s uid file_id file_unique_id, uid ∈ admins s →
     let photo_id := "photo_" +:+ pretty (size (photos_data s) + 1)%nat in
     handle_photo s uid file_id file_unique_id =
       (with_photos s (<[photo_id := new_entry file_id file_unique_id]> (photos_data s)),
        PhotoAdded photo_id)) ∧
  (∀ s uid files, uid ∈ admins s → photos_data s = ∅ →
     (run is_space is_alnum s ((λ f, MsgPhoto uid f.1 f.2) <$> files)).2 =
       (λ n, PhotoAdded ("photo_" +:+ pretty n)) <$> seq 1 (length files)).
Proof.
  split.
  - intros s uid f u Hadmin. by apply handle_photo_admin.
  - intros s uid files Hadmin Hempty.
    apply (run_photos_numbered is_space is_alnum s uid 0 files Hadmin).
    rewrite Hempty. split; [done|]. intros key [? Hk]. by rewrite lookup_empty in Hk.
Qed.

Lemma handle_photo_identifier_witness :
  (handle_photo one_admin 1 "file-a" "uniq-a").2 = PhotoAdded "photo_1" ∧
  (run ascii_isspace ascii_isalnum one_admin
     [MsgPhoto 1 "file-a" "uniq-a"; MsgPhoto 1 "file-b" "uniq-b"]).2 =
    [PhotoAdded "photo_1"; PhotoAdded "photo_2"].
Proof.
  destruct (handle_photo_identifier ascii_isspace ascii_isalnum) as [Hone Hmany].
  assert (Hadmin : (1:Z) ∈ admins one_admin) by compute_done.
  split.
  - rewrite (Hone one_admin 1 "file-a" "uniq-a" Hadmin). vm_compute. reflexivity.
  - apply (Hmany one_admin 1 [("file-a", "uniq-a"); ("file-b", "uniq-b")] Hadmin).
    vm_compute. reflexivity.
Defined.

(** C8, the claim as written fails: after a reset the third photo of the
    process lifetime is photo_1 again, and after a start from a file with two
    photos the first photo of the lifetime is photo_3. *)
Lemma photo_identifier_counts_current_items :
  (run ascii_isspace ascii_isalnum (initial_state None None) events_reset_then_add).2 =
    [FirstAdmin; PhotoAdded "photo_1"; PhotoAdded "photo_2"; AllReset 2;
     PhotoAdded "photo_1"] ∧
  (run ascii_isspace ascii_isalnum (initial_state None (Some stored_two))
     [CmdStart 1; MsgPhoto 1 "file-c" "uniq-c"]).2 =
    [FirstAdmin; PhotoAdded "photo_3"] ∧
  nth_error
    (run ascii_isspace ascii_isalnum (initial_state None None) events_reset_then_add).2 4
    ≠ Some (PhotoAdded "photo_3").
Proof. split; [|split]; vm_compute; [reflexivity | reflexivity | discriminate]. Qed.

(** ** Save and load *)

Lemma load_save_lookup photos photo_id :
  load_photos_data (Some (save_photos_data photos)) !! photo_id =
    saved_entry <$> photos !! photo_id.
Proof.
  unfold load_photos_data, save_photos_data.
  rewrite map_lookup_filter, !lookup_fmap.
  by destruct (photos !! photo_id) as [d|].
Qed.

Lemma load_views_empty file photo_id d :
  load_photos_data file !! photo_id = Some d →
  get_users d = ∅ ∧ get_confirmed d = [].
Proof.
  destruct file as [content|]; simpl; [|by rewrite lookup_empty].
  intros [Hd _]%map_lookup_filter_Some. rewrite lookup_fmap in Hd.
  destruct (content !! photo_id) as [e|]; [|done]. injection Hd as <-.
  unfold get_users, get_confirmed. simpl.
  by destruct (users e), (confirmed_users e).
Qed.

(** C9. What is saved holds, for every photo, its identifier and the two
    media values and nothing of the participants; loading what was saved
    gives every photo back under its identifier with the same media values
    and with an empty registered set and an empty confirmed list.  Whatever
    the file holds, every loaded photo starts with both empty. *)
Theorem save_load_round_trip (photos : gmap string photo_entry) :
  (∀ photo_id,
     save_photos_data photos !! photo_id = saved_entry <$> photos !! photo_id) ∧
  (∀ photo_id e, save_photos_data photos !! photo_id = Some e →
     users e = None ∧ confirmed_users e = None) ∧
  dom (load_photos_data (Some (save_photos_data photos))) = dom photos ∧
  (∀ photo_id d, photos !! photo_id = Some d →
     ∃ d', load_photos_data (Some (save_photos_data photos)) !! photo_id = Some d' ∧
       get_photo d' = get_photo d ∧ get_unique_id d' = get_unique_id d ∧
       get_users d' = ∅ ∧ get_confirmed d' = []) ∧
  (∀ file photo_id d, load_photos_data file !! photo_id = Some d →
     get_users d = ∅ ∧ get_confirmed d = []).
Proof.
  split; [|split; [|split; [|split]]].
  - intros p. unfold save_photos_data. by rewrite lookup_fmap.
  - intros p e. unfold save_photos_data. rewrite lookup_fmap.
    destruct (photos !! p); [|done]. by intros [= <-].
  - apply set_eq. intros p. rewrite !elem_of_dom, load_save_lookup.
    by rewrite fmap_is_Some.
  - intros p d Hd. exists (saved_entry d). by rewrite load_save_lookup, Hd.
  - apply load_views_empty.
Qed.

Lemma save_load_round_trip_witness :
  users (saved_entry entry_full) = None ∧
  confirmed_users (saved_entry entry_full) = None ∧
  (∃ d', load_photos_data (Some (save_photos_data {[ "photo_1" := entry_full ]}))
           !! "photo_1" = Some d' ∧
     get_photo d' = Some "file-1" ∧ get_unique_id d' = Some "uniq-1" ∧
     get_users d' = ∅ ∧ get_confirmed d' = []) ∧
  get_users (loaded_entry entry_full) = ∅ ∧
  get_confirmed (loaded_entry entry_full) = [].
Proof.
  destruct (save_load_round_trip {[ "photo_1" := entry_full ]})
    as (_ & Hsaved & _ & Hround & Hload).
  destruct (Hsaved "photo_1" (saved_entry entry_full)) as [Hu Hc].
  { vm_compute. reflexivity. }
  split; [exact Hu|]. split; [exact Hc|]. split.
  - destruct (Hround "photo_1" entry_full) as (d' & Hd' & Hp & Hq & Hu' & Hc').
    + vm_compute. reflexivity.
    + exists d'. split; [exact Hd'|]. split; [rewrite Hp; reflexivity|].
      split; [rewrite Hq; reflexivity|]. split; [exact Hu' | exact Hc'].
  - apply (Hload (Some {[ "photo_1" := entry_full ]}) "photo_1").
    vm_compute. reflexivity.
Defined.

(** ** Validation of a submitted name *)

Lemma stored_name_shape_bounds n :
  stored_name_shape n → n ≠ [] ∧ (length n ≤ 120)%nat.
Proof.
  intros (clean & Hne & Hlen & ->). split; [by apply escape_html_nonempty|].
  pose proof (escape_html_length clean). lia.
Qed.

Section ValidationFacts.
Variable is_space : N → bool.
Variable is_alnum : N → bool.

Lemma sanitize_name_shape text safe :
  sanitize_name is_space is_alnum text = inr safe → stored_name_shape safe.
Proof.
  intros (_ & Hne & ->)%sanitize_name_inr.
  exists (take 20 (clean_name is_space is_alnum (strip is_space text))).
  split; [|split; [|done]].
  - by destruct (clean_name _ _ _).
  - rewrite length_take. lia.
Qed.

Lemma handle_text_rejected s sender text e :
  sanitize_name is_space is_alnum text = inl e →
  photos_data (handle_text is_space is_alnum s sender text).1 = photos_data s ∧
  ∀ photo_id uid, user_data s !! sender = Some (photo_id, uid) →
    is_Some (photos_data s !! photo_id) →
    (handle_text is_space is_alnum s sender text).2 = Failed e.
Proof.
  intros He. unfold handle_text.
  destruct (user_data s !! sender) as [[p uid]|]; [|done]. simpl.
  destruct (photos_data s !! p) as [d|] eqn:Hd.
  - rewrite He. done.
  - split; [done|]. intros q v [= <- <-] [? Hq]. congruence.
Qed.

Lemma handle_text_stored s sender text photo_id uid d safe :
  user_data s !! sender = Some (photo_id, uid) →
  photos_data s !! photo_id = Some d →
  sanitize_name is_space is_alnum text = inr safe →
  handle_text is_space is_alnum s sender text =
    (with_photos (with_user_data s (delete sender (user_data s)))
       (<[photo_id := (store_name d uid safe).1]> (photos_data s)),
     (store_name d uid safe).2).
Proof.
  intros Hs Hd Hsafe. unfold handle_text. rewrite Hs. simpl. rewrite Hd, Hsafe.
  by destruct (store_name d uid safe).
Qed.

Lemma store_name_lookup d uid safe :
  get_users (store_name d uid safe).1 !! uid = Some safe.
Proof.
  unfold store_name.
  repeat match goal with |- context [if ?b then _ else _] => destruct b end;
    simpl; by rewrite get_users_set_confirmed, get_users_set_users, lookup_insert_eq.
Qed.
End ValidationFacts.

(** C10 (as the code has it).  In [handle_text], a text whose trimmed
    form is empty, shorter than 2 or longer than 20 characters, or whose
    cleaned form is empty, is answered with an error and no entry of
    [photos_data] changes.  A name that is stored is the escaped form of a
    non-empty cleaned name of at most 20 characters: it is not empty, and it
    can be longer than 20 characters, up to six for each character of the
    cleaned name.  This holds for every name in every state the bot
    reaches. *)
Theorem handle_text_validation (is_space is_alnum : N → bool) :
  (∀ s sender text,
     let user_name := strip is_space text in
     user_name = [] ∨ (length user_name < 2)%nat ∨ (20 < length user_name)%nat ∨
       clean_name is_space is_alnum user_name = [] →
     photos_data (handle_text is_space is_alnum s sender text).1 = photos_data s ∧
     ∀ photo_id uid, user_data s !! sender = Some (photo_id, uid) →
       is_Some (photos_data s !! photo_id) →
       ∃ e, (handle_text is_space is_alnum s sender text).2 = Failed e ∧
            e ∈ [EmptyName; NameTooLong; NameTooShort; InvalidCharacters]) ∧
  (∀ s sender text photo_id uid d safe,
     user_data s !! sender = Some (photo_id, uid) →
     photos_data s !! photo_id = Some d →
     sanitize_name is_space is_alnum text = inr safe →
     photos_data (handle_text is_space is_alnum s sender text).1 =
       <[photo_id := (store_name d uid safe).1]> (photos_data s) ∧
     get_users (store_name d uid safe).1 !! uid = Some safe ∧
     stored_name_shape safe ∧ safe ≠ [] ∧ (length safe ≤ 120)%nat) ∧
  (∀ admins_file photos_file es photo_id d uid n,
     photos_data (run is_space is_alnum (initial_state admins_file photos_file) es).1
       !! photo_id = Some d →
     get_users d !! uid = Some n →
     stored_name_shape n ∧ n ≠ [] ∧ (length n ≤ 120)%nat).
Proof.
  split; [|split].
  - intros s sender text user_name Hbad.
    destruct (sanitize_name_inl is_space is_alnum text Hbad) as [e He].
    destruct (handle_text_rejected is_space is_alnum s sender text e He) as [Hsame Hreply].
    split; [done|]. intros p uid Hs Hp. exists e. split; [by eapply Hreply|].
    revert He. unfold sanitize_name.
    repeat match goal with |- context [if ?b then _ else _] => destruct b end;
      intros [= <-]; set_solver.
  - intros s sender text p uid d safe Hs Hd Hsafe.
    rewrite (handle_text_stored is_space is_alnum s sender text p uid d safe Hs Hd Hsafe).
    pose proof (sanitize_name_shape is_space is_alnum text safe Hsafe) as Hshape.
    split; [done|]. split; [apply store_name_lookup|]. split; [done|].
    by apply stored_name_shape_bounds.
  - intros admins_file photos_file es p d uid n Hd Hn.
    pose proof (run_ok stored_name_shape is_space is_alnum
                  (sanitize_name_shape is_space is_alnum) _ es
                  (initial_state_ok stored_name_shape admins_file photos_file))
      as [Hitems _].
    destruct (Hitems _ _ Hd) as [_ Hnames]. specialize (Hnames _ _ Hn).
    split; [done|]. by apply stored_name_shape_bounds.
Qed.

Lemma handle_text_validation_witness :
  photos_data (handle_text ascii_isspace ascii_isalnum state_awaiting_name 10 (lit " x ")).1
    = photos_data state_awaiting_name ∧
  (∃ e, (handle_text ascii_isspace ascii_isalnum state_awaiting_name 10 (lit " x ")).2
          = Failed e ∧
        e ∈ [EmptyName; NameTooLong; NameTooShort; InvalidCharacters]) ∧
  photos_data (handle_text ascii_isspace ascii_isalnum state_awaiting_name 10 (lit " Ann ")).1
    = <[ "photo_1" := (store_name (new_entry "file-1" "uniq-1") 10 ann).1 ]>
        (photos_data state_awaiting_name) ∧
  stored_name_shape ann.
Proof.
  destruct (handle_text_validation ascii_isspace ascii_isalnum) as (Hbad & Hgood & Hreach).
  destruct (Hbad state_awaiting_name 10 (lit " x ")) as [Hsame Hreply].
  { right. left. vm_compute. lia. }
  split; [exact Hsame|]. split.
  { apply (Hreply "photo_1" 10); [vm_compute; reflexivity|].
    eexists. vm_compute. reflexivity. }
  destruct (Hgood state_awaiting_name 10 (lit " Ann ") "photo_1" 10
              (new_entry "file-1" "uniq-1") ann) as (Hstored & _ & _).
  { vm_compute. reflexivity. }
  { vm_compute. reflexivity. }
  { vm_compute. reflexivity. }
  split; [exact Hstored|].
  apply (Hreach None None events_ann "photo_1" entry_ann 10 ann).
  - vm_compute. reflexivity.
  - vm_compute. reflexivity.
Defined.

(** C10, the claim as written fails: a name of 20 characters with two
    apostrophes passes the validation and is stored with 28 characters. *)
Lemma stored_name_longer_than_twenty :
  length name_with_apostrophes = 20%nat ∧
  sanitize_name ascii_isspace ascii_isalnum name_with_apostrophes
    = inr (lit "D&#39;Artagnan d&#39;Herblay") ∧
  (λ d, get_users d !! 10) <$>
    (photos_data (run ascii_isspace ascii_isalnum (initial_state None None)
                    events_apostrophes).1 !! "photo_1")
    = Some (Some (lit "D&#39;Artagnan d&#39;Herblay")) ∧
  length (lit "D&#39;Artagnan d&#39;Herblay") = 28%nat ∧
  ¬ (length (lit "D&#39;Artagnan d&#39;Herblay") ≤ 20)%nat.
Proof.
  split; [|split; [|split; [|split]]]; try (vm_compute; reflexivity).
  vm_compute. lia.
Qed.

(** The same with any tables that do not take the apostrophe for a space:
    five apostrophes are stored as 25 characters. *)
Lemma apostrophes_any_tables (is_space is_alnum : N → bool) :
  is_space ch_apos = false →
  sanitize_name is_space is_alnum (lit "'''''")
    = inr (lit "&#39;&#39;&#39;&#39;&#39;").
Proof.
  intros Hq. unfold sanitize_name, strip, clean_name, split, allowed_char.
  change (lit "'''''") with [ch_apos; ch_apos; ch_apos; ch_apos; ch_apos].
  simpl. rewrite !Hq. simpl. rewrite !Hq. simpl. rewrite !Hq.
  rewrite !orb_true_r. simpl. rewrite !Hq. reflexivity.
Qed.

(** * Further properties *)

(** ** Administrators *)

Lemma with_admins_same s : with_admins s (admins s) = s.
Proof. by destruct s. Qed.

Lemma with_photos_same s : with_photos s (photos_data s) = s.
Proof. by destruct s. Qed.

Lemma is_admin_false s uid : uid ∉ admins s → is_admin s uid = false.
Proof. intros H. unfold is_admin. by apply bool_decide_eq_false_2. Qed.

Lemma is_admin_true s uid : uid ∈ admins s → is_admin s uid = true.
Proof. intros H. unfold is_admin. by apply bool_decide_eq_true_2. Qed.

(** X1. Every handler that starts with the administrator check answers
    Forbidden to a user who is no administrator and leaves the whole state
    as it is: adding and removing administrators, clearing the names, adding
    a photo, the reset, the two moderator removals; the dialogs, the
    participant card and the reset preview refuse as well. *)
Theorem non_admin_refused (is_space is_alnum : N → bool) s uid :
  uid ∉ admins s →
  (∀ e, admin_only e = true → sender e = uid →
     step is_space is_alnum s e = (s, Failed Forbidden)) ∧
  (∀ photo_id target,
     admindelete s uid photo_id target = Refused Forbidden ∧
     adminunconfirm s uid photo_id target = Refused Forbidden ∧
     adminshow s uid photo_id target = inl Forbidden) ∧
  reset_data s uid = ResetRefused Forbidden.
Proof.
  intros Hno%is_admin_false. split; [|split].
  - intros e Hadm <-.
    destruct e as [u|u arg|u arg|u|u f q|u t|u data]; try discriminate Hadm; simpl in *.
    + unfold add_admin. by rewrite Hno.
    + unfold remove_admin. by rewrite Hno.
    + unfold clear_names. by rewrite Hno.
    + unfold handle_photo. by rewrite Hno.
    + destruct data; try discriminate Hadm; simpl; by rewrite Hno.
  - intros photo_id target. unfold admindelete, adminunconfirm, adminshow.
    by rewrite Hno.
  - unfold reset_data. by rewrite Hno.
Qed.

Lemma non_admin_refused_witness :
  step ascii_isspace ascii_isalnum one_admin (MsgPhoto 7 "file-1" "uniq-1")
    = (one_admin, Failed Forbidden) ∧
  step ascii_isspace ascii_isalnum one_admin (Button 7 ConfirmResetAll)
    = (one_admin, Failed Forbidden) ∧
  adminunconfirm one_admin 7 "photo_1" 1 = Refused Forbidden ∧
  reset_data one_admin 7 = ResetRefused Forbidden.
Proof.
  assert (Hno : (7:Z) ∉ admins one_admin) by compute_done.
  destruct (non_admin_refused ascii_isspace ascii_isalnum one_admin 7 Hno)
    as (Hstep & Hdialog & Hreset).
  split; [apply Hstep; reflexivity|]. split; [apply Hstep; reflexivity|].
  split; [apply (Hdialog "photo_1" 1) | exact Hreset].
Defined.

Lemma admins_after_removal (A : gset Z) target :
  target ∈ A → (1 < size A)%nat → A ∖ {[target]} ≠ ∅.
Proof.
  intros Hin Hsize Hempty.
  assert (Hsub : ({[target]} : gset Z) ⊆ A) by set_solver.
  pose proof (size_difference A {[target]} Hsub) as Hd.
  rewrite Hempty, size_empty, size_singleton in Hd. lia.
Qed.

Section AdminsKept.
Variable is_space : N → bool.
Variable is_alnum : N → bool.

Lemma step_admins_nonempty s e :
  admins s ≠ ∅ → admins (step is_space is_alnum s e).1 ≠ ∅.
Proof.
  intros Hne. destruct e as [u|u arg|u arg|u|u f q|u t|u data]; simpl.
  - unfold start. rewrite (bool_decide_eq_false_2 _ Hne). by destruct (is_admin s u).
  - unfold add_admin. destruct (negb (is_admin s u)); [done|].
    destruct arg; [done..|]. case_bool_decide; [done|]. simpl. set_solver.
  - unfold remove_admin. destruct (negb (is_admin s u)); [done|].
    destruct arg as [| |target]; [done..|].
    case_bool_decide as Hin; simpl; [|done].
    case_bool_decide as Hsize; [done|]. case_bool_decide; [done|]. simpl.
    apply admins_after_removal; [done | lia].
  - unfold clear_names. destruct (negb (is_admin s u)); [done|]. by case_bool_decide.
  - unfold handle_photo. by destruct (negb (is_admin s u)).
  - unfold handle_text. destruct (user_data s !! u) as [[p v]|]; [|done]. simpl.
    destruct (photos_data s !! p); [|done].
    destruct (sanitize_name is_space is_alnum t); [done|].
    by destruct (store_name _ _ _).
  - destruct data; simpl; unfold on_entry;
      repeat match goal with
             | |- context [negb (is_admin s u)] => destruct (negb (is_admin s u))
             | |- context [photos_data s !! ?p] => destruct (photos_data s !! p)
             | |- context [get_users ?d !! u] => destruct (get_users d !! u)
             | |- context [let '(_, _) := ?x in _] => destruct x
             end; done.
Qed.

Lemma run_admins_nonempty s es :
  admins s ≠ ∅ → admins (run is_space is_alnum s es).1 ≠ ∅.
Proof.
  revert s. induction es as [|e es IH]; intros s Hne; [done|]. simpl.
  pose proof (step_admins_nonempty s e Hne) as H1.
  destruct (step is_space is_alnum s e) as [s1 r]. specialize (IH s1 H1).
  by destruct (run is_space is_alnum s1 es).
Qed.
End AdminsKept.

(** X2. The set of administrators is never emptied: from a state with an
    administrator, no sequence of events leads to a state without one; and
    whatever the state, after /start by anyone there is an administrator, the
    sender when there was none before. *)
Theorem admins_never_empty (is_space is_alnum : N → bool) :
  (∀ s es, admins s ≠ ∅ → admins (run is_space is_alnum s es).1 ≠ ∅) ∧
  (∀ s uid es,
     admins (run is_space is_alnum s (CmdStart uid :: es)).1 ≠ ∅) ∧
  (∀ s uid, admins s = ∅ → start s uid = (with_admins s {[uid]}, FirstAdmin)) ∧
  (∀ s uid, admins s ≠ ∅ → (start s uid).1 = s).
Proof.
  split; [|split; [|split]].
  - intros s es. apply run_admins_nonempty.
  - intros s uid es. simpl.
    assert (admins (start s uid).1 ≠ ∅) as Hne.
    { unfold start. case_bool_decide as He; simpl; [set_solver|].
      by destruct (is_admin s uid). }
    destruct (start s uid) as [s1 r]. simpl in Hne.
    pose proof (run_admins_nonempty is_space is_alnum s1 es Hne).
    by destruct (run is_space is_alnum s1 es).
  - intros s uid He. unfold start. rewrite (bool_decide_eq_true_2 _ He).
    rewrite He. f_equal. f_equal. set_solver.
  - intros s uid Hne. unfold start. rewrite (bool_decide_eq_false_2 _ Hne).
    by destruct (is_admin s uid).
Qed.

Lemma admins_never_empty_witness :
  admins (run ascii_isspace ascii_isalnum one_admin
            [CmdRemoveAdmin 1 (Number 1); CmdAddAdmin 1 (Number 2);
             CmdRemoveAdmin 2 (Number 1); CmdRemoveAdmin 2 (Number 2)]).1 ≠ ∅ ∧
  start (initial_state None None) 5 =
    (with_admins (initial_state None None) {[5]}, FirstAdmin) ∧
  (start one_admin 5).1 = one_admin.
Proof.
  destruct (admins_never_empty ascii_isspace ascii_isalnum) as (Hrun & _ & Hfirst & Hlater).
  assert (Hne : admins one_admin ≠ ∅) by compute_done.
  split; [by apply Hrun|]. split.
  - apply Hfirst. vm_compute. reflexivity.
  - by apply Hlater.
Defined.

(** X3. Adding an administrator and removing that administrator again
    gives the state of before: for a requester who is an administrator and a
    target who is none, [add_admin] succeeds, and [remove_admin] of the same
    target by the same requester then succeeds and restores the set. *)
Theorem add_then_remove_admin s uid target :
  uid ∈ admins s → target ∉ admins s →
  add_admin s uid (Number target) =
    (with_admins s ({[target]} ∪ admins s), AdminAdded) ∧
  remove_admin (add_admin s uid (Number target)).1 uid (Number target) =
    (s, AdminRemoved).
Proof.
  intros Hu Ht.
  assert (Hadd : add_admin s uid (Number target) =
                 (with_admins s ({[target]} ∪ admins s), AdminAdded)).
  { unfold add_admin. rewrite (is_admin_true s uid Hu). simpl.
    by rewrite (bool_decide_eq_false_2 _ Ht). }
  split; [done|]. rewrite Hadd. simpl.
  unfold remove_admin, is_admin. simpl.
  rewrite (bool_decide_eq_true_2 (uid ∈ {[target]} ∪ admins s)) by set_solver. simpl.
  rewrite (bool_decide_eq_true_2 (target ∈ {[target]} ∪ admins s)) by set_solver. simpl.
  assert (Hsize : ¬ (size ({[target]} ∪ admins s) ≤ 1)%nat).
  { rewrite size_union by set_solver. rewrite size_singleton.
    assert (size (admins s) ≠ 0%nat); [|lia].
    intros Hz%size_empty_inv. set_solver. }
  rewrite (bool_decide_eq_false_2 _ Hsize).
  assert (Hne : target ≠ uid) by (intros ->; done).
  rewrite (bool_decide_eq_false_2 _ Hne).
  f_equal. destruct s as [A P U]. unfold with_admins. simpl in *. f_equal.
  set_solver.
Qed.

Lemma add_then_remove_admin_witness :
  remove_admin (add_admin one_admin 1 (Number 2)).1 1 (Number 2)
    = (one_admin, AdminRemoved).
Proof.
  apply (add_then_remove_admin one_admin 1 2); compute_done.
Defined.

(** X4. A restart from the two files as the bot last wrote them keeps
    the administrators and, for every photo, the identifier and the media
    values; it drops every registration, every confirmation and every
    pending name request. *)
Theorem restart_keeps_admins_and_photos s :
  admins (restart s) = admins s ∧
  load_admins (Some (save_admins s)) = admins s ∧
  dom (photos_data (restart s)) = dom (photos_data s) ∧
  user_data (restart s) = ∅ ∧
  (∀ photo_id d, photos_data s !! photo_id = Some d →
     ∃ d', photos_data (restart s) !! photo_id = Some d' ∧
       get_photo d' = get_photo d ∧ get_unique_id d' = get_unique_id d ∧
       get_users d' = ∅ ∧ get_confirmed d' = []).
Proof.
  assert (Hadm : load_admins (Some (save_admins s)) = admins s).
  { unfold load_admins, save_admins. apply list_to_set_elements_L. }
  assert (Hphotos : photos_data (restart s) =
                    load_photos_data (Some (save_photos_data (photos_data s)))) by done.
  split; [done|]. split; [done|]. split; [|split; [done|]].
  - apply set_eq. intros p.
    rewrite Hphotos, !elem_of_dom, load_save_lookup. by rewrite fmap_is_Some.
  - intros p d Hd. exists (saved_entry d). by rewrite Hphotos, load_save_lookup, Hd.
Qed.

Lemma restart_keeps_admins_and_photos_witness :
  ∃ d', photos_data
          (restart (run ascii_isspace ascii_isalnum (initial_state None None) events_ann).1)
          !! "photo_1" = Some d' ∧
    get_photo d' = Some "file-1" ∧ get_users d' = ∅ ∧ get_confirmed d' = [].
Proof.
  destruct (restart_keeps_admins_and_photos
              (run ascii_isspace ascii_isalnum (initial_state None None) events_ann).1)
    as (_ & _ & _ & _ & H).
  destruct (H "photo_1" entry_ann) as (d' & Hd' & Hp & _ & Hu & Hc).
  - vm_compute. reflexivity.
  - exists d'. split; [exact Hd'|]. split; [rewrite Hp; reflexivity|]. by split.
Defined.


(** ** The keyboard under a photo *)

Lemma on_entry_found s photo_id d op :
  photos_data s !! photo_id = Some d →
  on_entry s photo_id op =
    (with_photos s (<[photo_id := (op d).1]> (photos_data s)), (op d).2).
Proof. intros H. unfold on_entry. rewrite H. by destruct (op d). Qed.

Lemma confirm_reply_confirmed d uid :
  (∃ position icon, (confirm d uid).2 = Confirmed position icon) ↔
  is_Some (get_users d !! uid) ∧
  is_confirmed_in uid (get_confirmed d) = false ∧
  (length (get_confirmed d) < MAX_CONFIRMED_USERS)%nat.
Proof.
  destruct (confirm_cases d uid)
    as [[Hu ->]|[(Hu & Hlen & ->)|[(Hu & Hlen & Hin & ->)|(n & Hu & Hlen & Hin & ->)]]];
    simpl.
  - rewrite Hu. split; [by intros (? & ? & ?) | by intros [[? ?] _]].
  - split; [by intros (? & ? & ?) | intros (_ & _ & ?); lia].
  - apply is_confirmed_in_spec in Hin. split; [by intros (? & ? & ?)|].
    intros (_ & ? & _). congruence.
  - apply is_confirmed_in_false in Hin. split; [|by eauto].
    intros _. rewrite Hu. split; [by eexists | done].
Qed.

Lemma confirm_delete_reply d uid n :
  (confirm_delete d uid).2 = NameDeleted n ↔ get_users d !! uid = Some n ∧ n ≠ [].
Proof.
  unfold confirm_delete. destruct (get_users d !! uid) as [m|]; simpl.
  - destruct m as [|c m]; simpl; [split; [done | by intros [[= <-] ?]]|].
    split; [by intros [= <-] | by intros [[= <-] _]].
  - split; [done | by intros [? _]].
Qed.

(** The members of the keyboard, button by button. *)
Lemma keyboard_members s photo_id user_id b :
  let d := default no_entry (photos_data s !! photo_id) in
  b ∈ get_photo_keyboard s photo_id user_id ↔
    (b = RegisterButton photo_id ∧ user_in_users d user_id = false) ∨
    (b = DeleteMyNameButton photo_id ∧ user_in_users d user_id = true) ∨
    (b = ConfirmButton photo_id ∧ user_in_users d user_id = true ∧
       user_in_confirmed d user_id = false ∧
       (length (get_confirmed d) < MAX_CONFIRMED_USERS)%nat) ∨
    (∃ text, b = StatusButton text photo_id ∧ keyboard_status d user_id = Some text) ∨
    b = ShowButton photo_id ∨
    (b = AdminManageButton photo_id ∧ truthy_admin s user_id = true).
Proof.
  intros d. unfold get_photo_keyboard. fold d.
  rewrite !elem_of_app.
  destruct (user_in_users d user_id) eqn:Hr; simpl;
  destruct (user_in_confirmed d user_id) eqn:Hc; simpl;
  destruct (Z.ltb_spec (Z.of_nat (length (get_confirmed d))) (Z.of_nat MAX_CONFIRMED_USERS));
  destruct (keyboard_status d user_id) as [text|] eqn:Hs;
  destruct (truthy_admin s user_id) eqn:Ha;
  rewrite ?elem_of_cons, ?elem_of_nil; naive_solver lia.
Qed.

(** X5. The keyboard offers a button exactly when the handler behind it
    accepts: for a user on a stored photo with non-empty names, the register
    button is there iff pressing it is answered with the prompt for the name,
    the confirm button iff the confirmation succeeds, and the delete button
    iff the dialog asks and the removal of the own name succeeds; register
    and delete are never offered together. *)
Theorem keyboard_matches_handlers s photo_id uid d :
  photos_data s !! photo_id = Some d →
  names_satisfy nonempty d →
  let keyboard := get_photo_keyboard s photo_id (Some uid) in
  (RegisterButton photo_id ∈ keyboard ↔
     (button_handler s uid (RegisterName photo_id)).2 = NamePrompted) ∧
  (ConfirmButton photo_id ∈ keyboard ↔
     ∃ position icon,
       (button_handler s uid (ConfirmName photo_id)).2 = Confirmed position icon) ∧
  (DeleteMyNameButton photo_id ∈ keyboard ↔
     ∃ n, delete_my_name s uid photo_id = Asked n) ∧
  (DeleteMyNameButton photo_id ∈ keyboard ↔
     ∃ n, (button_handler s uid (ConfirmDelete photo_id)).2 = NameDeleted n) ∧
  (RegisterButton photo_id ∈ keyboard ↔ DeleteMyNameButton photo_id ∉ keyboard).
Proof.
  intros Hd Hnames keyboard. subst keyboard.
  pose proof (keyboard_members s photo_id (Some uid)) as Hmem. simpl in Hmem.
  rewrite Hd in Hmem. simpl in Hmem.
  assert (Hreg : RegisterButton photo_id ∈ get_photo_keyboard s photo_id (Some uid)
                 ↔ get_users d !! uid = None).
  { rewrite Hmem. rewrite bool_decide_eq_false, <- eq_None_not_Some. naive_solver. }
  assert (Hdel : DeleteMyNameButton photo_id ∈ get_photo_keyboard s photo_id (Some uid)
                 ↔ is_Some (get_users d !! uid)).
  { rewrite Hmem. rewrite bool_decide_eq_true. naive_solver. }
  split; [|split; [|split; [|split]]].
  - rewrite Hreg. simpl. rewrite Hd.
    destruct (get_users d !! uid); simpl; split; done.
  - simpl. rewrite (on_entry_found s photo_id d _ Hd). simpl.
    rewrite confirm_reply_confirmed, Hmem, bool_decide_eq_true. naive_solver.
  - rewrite Hdel. unfold delete_my_name, named_on. rewrite Hd.
    destruct (get_users d !! uid) as [n|] eqn:Hn.
    + specialize (Hnames _ _ Hn). destruct n; [done|]. simpl.
      split; [by eauto | by eauto].
    + split; [by intros [? ?] | by intros [? ?]].
  - rewrite Hdel. simpl. rewrite (on_entry_found s photo_id d _ Hd). simpl.
    split.
    + intros [n Hn]. exists n. apply confirm_delete_reply. split; [done|].
      by apply (Hnames _ _ Hn).
    + intros [n [Hn _]%confirm_delete_reply]. by eexists.
  - rewrite Hreg, Hdel, eq_None_not_Some. done.
Qed.


Lemma keyboard_matches_handlers_witness :
  (∃ n, delete_my_name state_full 5 "photo_1" = Asked n) ∧
  (button_handler state_full 9 (RegisterName "photo_1")).2 = NamePrompted ∧
  ¬ (∃ position icon,
       (button_handler state_full 5 (ConfirmName "photo_1")).2 = Confirmed position icon).
Proof.
  assert (Hd : photos_data state_full !! "photo_1" = Some entry_full)
    by (vm_compute; reflexivity).
  assert (Hnames : names_satisfy nonempty entry_full).
  { apply item_ok_check_sound. vm_compute. reflexivity. }
  destruct (keyboard_matches_handlers state_full "photo_1" 5 entry_full Hd Hnames)
    as (_ & Hconfirm & Hdelete & _).
  destruct (keyboard_matches_handlers state_full "photo_1" 9 entry_full Hd Hnames)
    as (Hregister & _).
  split; [apply Hdelete; compute_done|].
  split; [apply Hregister; compute_done|].
  intros H. apply Hconfirm in H. revert H. compute_done.
Defined.

(** ** Positions *)

Lemma position_from_found i uid l :
  uid ∈ user_id <$> l →
  ∃ k x, position_from i uid l = i + Z.of_nat k ∧ l !! k = Some x ∧ user_id x = uid ∧
         ∀ j y, (j < k)%nat → l !! j = Some y → user_id y ≠ uid.
Proof.
  revert i. induction l as [|x l IH]; intros i; simpl; [by intros ?%elem_of_nil|].
  destruct (Z.eqb_spec (user_id x) uid) as [Heq|Hne].
  - intros _. exists 0%nat, x. split; [lia|]. split; [done|]. split; [done|].
    intros j y Hj. lia.
  - rewrite elem_of_cons. intros [?|Hin]; [congruence|].
    destruct (IH (i + 1) Hin) as (k & y & Hpos & Hk & Hy & Hfirst).
    exists (S k), y. split; [lia|]. split; [done|]. split; [done|].
    intros [|j] z Hj; simpl; [by intros [= <-]|]. intros Hz. apply (Hfirst j z); [lia|done].
Qed.

Lemma position_from_absent i uid l :
  uid ∉ user_id <$> l → position_from i uid l = -1.
Proof.
  revert i. induction l as [|x l IH]; intros i; simpl; [done|].
  rewrite not_elem_of_cons. intros [Hne Hl].
  destruct (Z.eqb_spec (user_id x) uid); [congruence|]. by apply IH.
Qed.

(** X6. The position looked up for a participant is the index of the
    first entry of the confirmed list with that identity, and -1 exactly
    when there is none; so the guard on a non-negative position after a
    successful membership test never fails. *)
Theorem position_of_spec uid l :
  (uid ∉ user_id <$> l → position_of uid l = -1) ∧
  (uid ∈ user_id <$> l →
   ∃ k x, position_of uid l = Z.of_nat k ∧ l !! k = Some x ∧ user_id x = uid ∧
          ∀ j y, (j < k)%nat → l !! j = Some y → user_id y ≠ uid) ∧
  (is_confirmed_in uid l = true ↔ 0 ≤ position_of uid l) ∧
  (-1 ≤ position_of uid l < Z.of_nat (length l)).
Proof.
  unfold position_of.
  destruct (decide (uid ∈ user_id <$> l)) as [Hin|Hout].
  - destruct (position_from_found 0 uid l Hin) as (k & x & Hpos & Hk & Hx & Hfirst).
    split; [done|]. split; [intros _; exists k, x; split; [lia | done]|].
    apply lookup_lt_Some in Hk as Hlt.
    split; [|lia]. rewrite is_confirmed_in_spec. split; [lia | done].
  - rewrite (position_from_absent 0 uid l Hout).
    split; [done|]. split; [done|]. split; [|lia].
    rewrite is_confirmed_in_spec. split; [done | lia].
Qed.

Lemma position_of_spec_witness :
  position_of 9 (get_confirmed entry_full) = -1 ∧
  ∃ k x, position_of 3 (get_confirmed entry_full) = Z.of_nat k ∧
         get_confirmed entry_full !! k = Some x ∧ user_id x = 3.
Proof.
  destruct (position_of_spec 9 (get_confirmed entry_full)) as (Habsent & _).
  destruct (position_of_spec 3 (get_confirmed entry_full)) as (_ & Hfound & _).
  split.
  - apply Habsent. apply is_confirmed_in_false. vm_compute. reflexivity.
  - destruct Hfound as (k & x & Hk & Hx & Hid & _).
    + apply is_confirmed_in_spec. vm_compute. reflexivity.
    + by exists k, x.
Defined.


Lemma position_of_nonneg uid l :
  is_confirmed_in uid l = true → 0 ≤ position_of uid l.
Proof.
  intros Hin%is_confirmed_in_spec.
  destruct (position_from_found 0 uid l Hin) as (k & x & Hpos & _).
  unfold position_of. lia.
Qed.

Lemma position_of_appended uid l n :
  uid ∉ user_id <$> l →
  position_of uid (l ++ [ConfirmedUser uid n]) = Z.of_nat (length l).
Proof.
  intros Hl. unfold position_of. rewrite position_from_app_r by done.
  simpl. by rewrite Z.eqb_refl.
Qed.

Lemma keyboard_status_confirmed d uid :
  is_confirmed_in uid (get_confirmed d) = true →
  keyboard_status d (Some uid) =
    Some (StatusConfirmed (get_user_icon (position_of uid (get_confirmed d)))
            (position_of uid (get_confirmed d) + 1)).
Proof.
  intros Hin. unfold keyboard_status. simpl. rewrite Hin.
  pose proof (position_of_nonneg uid _ Hin) as Hpos.
  by destruct (Z.leb_spec 0 (position_of uid (get_confirmed d))); [|lia].
Qed.

Lemma is_confirmed_in_app uid l1 l2 :
  is_confirmed_in uid (l1 ++ l2) = is_confirmed_in uid l1 || is_confirmed_in uid l2.
Proof. unfold is_confirmed_in. apply existsb_app. Qed.

(** The keyboard of a participant who has just been appended to the
    confirmed list. *)
Lemma keyboard_after_append s photo_id uid n cs d' :
  uid ∉ user_id <$> cs →
  get_confirmed d' = cs ++ [ConfirmedUser uid n] →
  is_Some (get_users d' !! uid) →
  let s' := with_photos s (<[photo_id := d']> (photos_data s)) in
  let keyboard := get_photo_keyboard s' photo_id (Some uid) in
  StatusButton (StatusConfirmed (get_user_icon (Z.of_nat (length cs)))
                  (Z.of_nat (length cs) + 1)) photo_id ∈ keyboard ∧
  ConfirmButton photo_id ∉ keyboard ∧
  RegisterButton photo_id ∉ keyboard ∧
  DeleteMyNameButton photo_id ∈ keyboard.
Proof.
  intros Hfresh Hcs Hus s' keyboard. subst keyboard.
  pose proof (keyboard_members s' photo_id (Some uid)) as Hmem. simpl in Hmem.
  rewrite lookup_insert_eq in Hmem. simpl in Hmem.
  assert (Hin : is_confirmed_in uid (get_confirmed d') = true).
  { rewrite Hcs, is_confirmed_in_app. simpl.
    rewrite Z.eqb_refl. simpl. apply orb_true_r. }
  assert (Hreg : bool_decide (is_Some (get_users d' !! uid)) = true).
  { by apply bool_decide_eq_true_2. }
  pose proof (keyboard_status_confirmed d' uid Hin) as Hstatus.
  rewrite Hcs, (position_of_appended uid _ n Hfresh) in Hstatus.
  split; [|split; [|split]].
  - apply Hmem. right. right. right. left. eexists. split; [done|]. exact Hstatus.
  - rewrite Hmem. intros [[? _]|[[? _]|[(_ & _ & Hc & _)|[(? & ? & _)|[?|[? _]]]]]];
      try discriminate. congruence.
  - rewrite Hmem. intros [[_ Hr]|[[? _]|[(? & _)|[(? & ? & _)|[?|[? _]]]]]];
      try discriminate. congruence.
  - apply Hmem. right. left. done.
Qed.

(** X7. After a successful confirmation the keyboard rebuilt for the
    participant shows the rank that was answered: the status row carries
    the same icon and the place (the position plus one), the confirm and the
    register button are gone and the delete button is there.  The same after
    a registration that was confirmed automatically. *)
Theorem keyboard_shows_answered_rank (is_space is_alnum : N → bool) :
  (∀ s uid photo_id position icon,
     (button_handler s uid (ConfirmName photo_id)).2 = Confirmed position icon →
     let keyboard :=
       get_photo_keyboard (button_handler s uid (ConfirmName photo_id)).1
         photo_id (Some uid) in
     StatusButton (StatusConfirmed icon (position + 1)) photo_id ∈ keyboard ∧
     ConfirmButton photo_id ∉ keyboard ∧
     RegisterButton photo_id ∉ keyboard ∧
     DeleteMyNameButton photo_id ∈ keyboard) ∧
  (∀ s uid photo_id text position icon,
     user_data s !! uid = Some (photo_id, uid) →
     (handle_text is_space is_alnum s uid text).2 = SavedAutoConfirmed position icon →
     let keyboard :=
       get_photo_keyboard (handle_text is_space is_alnum s uid text).1
         photo_id (Some uid) in
     StatusButton (StatusConfirmed icon (position + 1)) photo_id ∈ keyboard ∧
     ConfirmButton photo_id ∉ keyboard ∧
     RegisterButton photo_id ∉ keyboard ∧
     DeleteMyNameButton photo_id ∈ keyboard).
Proof.
  split.
  - intros s uid photo_id position icon. simpl. unfold on_entry.
    destruct (photos_data s !! photo_id) as [d|] eqn:Hd; [|done].
    destruct (confirm_cases d uid)
      as [[Hu ->]|[(Hu & Hlen & ->)|[(Hu & Hlen & Hin & ->)|(n & Hu & Hlen & Hin & ->)]]];
      try done.
    simpl. intros [= <- <-].
    apply (keyboard_after_append s photo_id uid n (get_confirmed d)); [done|done|].
    rewrite get_users_set_confirmed, Hu. by eexists.
  - intros s uid photo_id text position icon Hs. unfold handle_text. rewrite Hs. simpl.
    destruct (photos_data s !! photo_id) as [d|] eqn:Hd; [|done].
    destruct (sanitize_name is_space is_alnum text) as [e|safe]; [done|].
    unfold store_name.
    destruct (is_confirmed_in uid (get_confirmed d)) eqn:Hc; simpl; [done|].
    destruct (Z.ltb_spec (Z.of_nat (length (get_confirmed d))) (Z.of_nat MAX_CONFIRMED_USERS));
      simpl; [|done].
    intros [= <- <-].
    replace (Z.of_nat (length (get_confirmed d)) + 1 - 1)
      with (Z.of_nat (length (get_confirmed d))) by lia.
    apply is_confirmed_in_false in Hc.
    apply (keyboard_after_append
             (with_user_data s (delete uid (user_data s))) photo_id uid safe
             (get_confirmed d)); [done|done|].
    rewrite get_users_set_confirmed, get_users_set_users, lookup_insert_eq. by eexists.
Qed.

Lemma keyboard_shows_answered_rank_witness :
  StatusButton (StatusConfirmed icon_sun 1) "photo_1" ∈
    get_photo_keyboard
      (handle_text ascii_isspace ascii_isalnum state_awaiting_name 10 ann).1
      "photo_1" (Some 10) ∧
  StatusButton (StatusConfirmed icon_sun 1) "photo_1" ∈
    get_photo_keyboard
      (button_handler state_none_confirmed 3 (ConfirmName "photo_1")).1
      "photo_1" (Some 3).
Proof.
  destruct (keyboard_shows_answered_rank ascii_isspace ascii_isalnum) as [Hconfirm Htext].
  split.
  - apply (Htext state_awaiting_name 10 "photo_1" ann 0 icon_sun).
    + vm_compute. reflexivity.
    + vm_compute. reflexivity.
  - apply (Hconfirm state_none_confirmed 3 "photo_1" 0 icon_sun).
    vm_compute. reflexivity.
Defined.


(** ** Dialogs and the actions behind them *)

Lemma named_on_asked s photo_id target k n :
  named_on s photo_id target k = Asked n ↔
  ∃ d m, photos_data s !! photo_id = Some d ∧ get_users d !! target = Some m ∧
         m ≠ [] ∧ k d m = Asked n.
Proof.
  unfold named_on. destruct (photos_data s !! photo_id) as [d|].
  2:{ split; [done | by intros (? & ? & ? & _)]. }
  destruct (get_users d !! target) as [m|] eqn:Hm.
  2:{ split; [done|]. intros (e & m & [= <-] & Hm' & _). congruence. }
  destruct m as [|c m]; simpl.
  - split; [done|]. intros (e & m & [= <-] & Hm' & Hne & _). congruence.
  - split.
    + intros Hk. by exists d, (c :: m).
    + intros (e & m' & [= <-] & Hm' & _ & Hk). congruence.
Qed.

Lemma admin_unconfirm_removed d target :
  (∃ k, (admin_unconfirm d target).2 = ConfirmationRemoved k) ↔
  (∃ m, get_users d !! target = Some m ∧ m ≠ []) ∧
  is_confirmed_in target (get_confirmed d) = true.
Proof.
  unfold admin_unconfirm.
  destruct (get_users d !! target) as [m|]; [|naive_solver].
  destruct m as [|c m]; simpl; [naive_solver|].
  destruct (confirmed_users d) as [cs|] eqn:Hcs.
  - assert (get_confirmed d = cs) as -> by (unfold get_confirmed; by rewrite Hcs).
    rewrite get_confirmed_set_confirmed.
    pose proof (remove_confirmed_length_eq target cs) as Heq.
    rewrite is_confirmed_in_spec. case_bool_decide as Hlen; simpl.
    + symmetry in Hlen. apply Heq in Hlen. naive_solver.
    + split; [|by eauto]. intros _. split; [by eauto|].
      destruct (decide (target ∈ user_id <$> cs)) as [|Hout]; [done|].
      apply Heq in Hout. congruence.
  - assert (get_confirmed d = []) as -> by (unfold get_confirmed; by rewrite Hcs).
    simpl. naive_solver.
Qed.

Lemma admin_delete_deleted d target :
  (∃ b1 b2, (admin_delete d target).2 = ParticipantDeleted b1 b2) ↔
  ∃ m, get_users d !! target = Some m ∧ m ≠ [].
Proof.
  split.
  - intros (b1 & b2 & H). destruct (get_users d !! target) as [[|c m]|] eqn:Hu.
    + rewrite admin_delete_failure in H by (by right). done.
    + by eexists.
    + rewrite admin_delete_failure in H by (by left). done.
  - intros (m & Hu & Hne). rewrite (admin_delete_success d target m Hu Hne). by eauto.
Qed.

(** X8. A dialog asks for the confirmation of an action exactly when the
    action behind it would succeed in the same state: the removal of a
    confirmation by an administrator, the deletion of a participant by an
    administrator, the removal of the own name; and the participant card
    offers the removal of the confirmation exactly when the participant is
    confirmed. *)
Theorem dialog_matches_action s uid photo_id target :
  ((∃ n, adminunconfirm s uid photo_id target = Asked n) ↔
   ∃ k, (button_handler s uid (AdminUnconfirmOk photo_id target)).2
          = ConfirmationRemoved k) ∧
  ((∃ n, admindelete s uid photo_id target = Asked n) ↔
   ∃ b1 b2, (button_handler s uid (AdminDeleteOk photo_id target)).2
              = ParticipantDeleted b1 b2) ∧
  (∀ n, delete_my_name s uid photo_id = Asked n ↔
        (button_handler s uid (ConfirmDelete photo_id)).2 = NameDeleted n) ∧
  (∀ card, adminshow s uid photo_id target = inr card →
     (OfferUnconfirm photo_id target ∈ card_actions card ↔
      ∃ n, adminunconfirm s uid photo_id target = Asked n) ∧
     OfferDelete photo_id target ∈ card_actions card ∧
     ∃ n, admindelete s uid photo_id target = Asked n).
Proof.
  split; [|split; [|split]].
  - unfold adminunconfirm. simpl. destruct (negb (is_admin s uid)); [naive_solver|].
    setoid_rewrite named_on_asked. unfold on_entry.
    destruct (photos_data s !! photo_id) as [d|] eqn:Hd; [|naive_solver].
    pose proof (admin_unconfirm_removed d target) as Hrem.
    destruct (admin_unconfirm d target) as [d' r]. simpl in *. rewrite Hrem.
    split.
    + intros (n & e & m & [= <-] & Hm & Hne & Hk).
      destruct (is_confirmed_in target (get_confirmed d)); [|done]. by eauto.
    + intros [(m & Hm & Hne) Hc]. exists m, d, m. rewrite Hc. done.
  - unfold admindelete. simpl. destruct (negb (is_admin s uid)); [naive_solver|].
    setoid_rewrite named_on_asked. unfold on_entry.
    destruct (photos_data s !! photo_id) as [d|] eqn:Hd; [|naive_solver].
    pose proof (admin_delete_deleted d target) as Hdel.
    destruct (admin_delete d target) as [d' r]. simpl in *. rewrite Hdel.
    naive_solver.
  - intros n. unfold delete_my_name. rewrite named_on_asked. simpl. unfold on_entry.
    destruct (photos_data s !! photo_id) as [d|] eqn:Hd; [|naive_solver].
    pose proof (confirm_delete_reply d uid n) as Hrep.
    destruct (confirm_delete d uid) as [d' r]. simpl in *. rewrite Hrep.
    naive_solver.
  - intros card. unfold adminshow, adminunconfirm, admindelete.
    destruct (negb (is_admin s uid)); [done|].
    setoid_rewrite named_on_asked.
    destruct (photos_data s !! photo_id) as [d|] eqn:Hd; [|done].
    destruct (get_users d !! target) as [m|] eqn:Hm; [|done].
    destruct m as [|c m]; [done|]. simpl. intros [= <-]. simpl.
    destruct (is_confirmed_in target (get_confirmed d)) eqn:Hc; simpl.
    + split; [|split].
      * split; [|intros _; by left]. intros _. exists (c :: m), d, (c :: m). by rewrite Hc.
      * right. by left.
      * by exists (c :: m), d, (c :: m).
    + split; [|split].
      * split.
        -- intros H. rewrite !elem_of_cons, elem_of_nil in H.
           by destruct H as [?|[?|?]].
        -- intros (n & e & k & [= <-] & Hk & _ & Hask). rewrite Hc in Hask. done.
      * by left.
      * by exists (c :: m), d, (c :: m).
Qed.


Lemma dialog_matches_action_witness :
  (∃ k, (button_handler state_full 1 (AdminUnconfirmOk "photo_1" 2)).2
          = ConfirmationRemoved k) ∧
  (button_handler state_full 5 (ConfirmDelete "photo_1")).2 = NameDeleted (name_of 5) ∧
  (∀ card, adminshow state_full 1 "photo_1" 2 = inr card →
     OfferUnconfirm "photo_1" 2 ∈ card_actions card).
Proof.
  destruct (dialog_matches_action state_full 1 "photo_1" 2) as (Hunconfirm & _ & _ & Hcard).
  destruct (dialog_matches_action state_full 5 "photo_1" 5) as (_ & _ & Hdelete & _).
  split; [|split].
  - apply Hunconfirm. exists (name_of 2). vm_compute. reflexivity.
  - apply Hdelete. vm_compute. reflexivity.
  - intros card Hc. apply (Hcard card Hc). exists (name_of 2). vm_compute. reflexivity.
Defined.

(** ** The pending registration *)

Section Pending.
Variable is_space : N → bool.
Variable is_alnum : N → bool.

Lemma handle_text_user_data s sender text :
  user_data (handle_text is_space is_alnum s sender text).1
    = delete sender (user_data s).
Proof.
  unfold handle_text. destruct (user_data s !! sender) as [[p v]|] eqn:Hs.
  - simpl. destruct (photos_data s !! p); [|done].
    destruct (sanitize_name is_space is_alnum text); [done|].
    by destruct (store_name _ _ _).
  - simpl. by rewrite delete_id.
Qed.

Lemma handle_text_no_pending s sender text :
  user_data s !! sender = None →
  handle_text is_space is_alnum s sender text = (s, Ignored).
Proof. intros H. unfold handle_text. by rewrite H. Qed.

(** X9. A text message uses up the pending registration of its sender,
    whether the name is accepted or not, and touches nobody else's: after it
    the sender has none, so a second text is ignored and changes nothing; a
    rejected name can only be tried again after the register button. *)
Theorem text_consumes_pending s sender text :
  user_data (handle_text is_space is_alnum s sender text).1 !! sender = None ∧
  (∀ other, other ≠ sender →
     user_data (handle_text is_space is_alnum s sender text).1 !! other
       = user_data s !! other) ∧
  (user_data s !! sender = None →
     handle_text is_space is_alnum s sender text = (s, Ignored)) ∧
  (∀ text2,
     handle_text is_space is_alnum
       (handle_text is_space is_alnum s sender text).1 sender text2
     = ((handle_text is_space is_alnum s sender text).1, Ignored)).
Proof.
  assert (Hgone : user_data (handle_text is_space is_alnum s sender text).1 !! sender
                  = None).
  { by rewrite handle_text_user_data, lookup_delete_eq. }
  split; [done|]. split; [|split].
  - intros other Hne. by rewrite handle_text_user_data, lookup_delete_ne.
  - apply handle_text_no_pending.
  - intros text2. by apply handle_text_no_pending.
Qed.

Lemma register_prompted s uid photo_id :
  (button_handler s uid (RegisterName photo_id)).2 = NamePrompted →
  button_handler s uid (RegisterName photo_id) =
    (with_user_data s (<[uid := (photo_id, uid)]> (user_data s)), NamePrompted).
Proof.
  simpl. destruct (photos_data s !! photo_id) as [d|]; [|done].
  by destruct (get_users d !! uid).
Qed.

Lemma handle_text_other_photos s sender text photo_id v other :
  user_data s !! sender = Some (photo_id, v) → other ≠ photo_id →
  photos_data (handle_text is_space is_alnum s sender text).1 !! other
    = photos_data s !! other.
Proof.
  intros Hs Hne. unfold handle_text. rewrite Hs. simpl.
  destruct (photos_data s !! photo_id); [|done].
  destruct (sanitize_name is_space is_alnum text); [done|].
  destruct (store_name _ _ _). simpl. by rewrite lookup_insert_ne.
Qed.

(** X10. A user has one pending registration at a time: the register
    button pressed under a second photo replaces the request for the first,
    and the name sent afterwards goes to the second photo only, leaving the
    first as it was. *)
Theorem one_pending_registration s uid first second text :
  first ≠ second →
  (button_handler s uid (RegisterName first)).2 = NamePrompted →
  let s1 := (button_handler s uid (RegisterName first)).1 in
  (button_handler s1 uid (RegisterName second)).2 = NamePrompted →
  let s2 := (button_handler s1 uid (RegisterName second)).1 in
  user_data s1 !! uid = Some (first, uid) ∧
  user_data s2 !! uid = Some (second, uid) ∧
  photos_data s2 = photos_data s ∧
  photos_data (handle_text is_space is_alnum s2 uid text).1 !! first
    = photos_data s !! first.
Proof.
  intros Hne H1 s1 H2 s2.
  assert (Hs1 : s1 = with_user_data s (<[uid := (first, uid)]> (user_data s))).
  { subst s1. by rewrite (register_prompted s uid first H1). }
  assert (Hs2 : s2 = with_user_data s1 (<[uid := (second, uid)]> (user_data s1))).
  { subst s2. by rewrite (register_prompted s1 uid second H2). }
  clearbody s2. clearbody s1. subst s2 s1. simpl.
  split; [by rewrite lookup_insert_eq|]. split; [by rewrite lookup_insert_eq|].
  split; [done|].
  erewrite handle_text_other_photos; [done| |done].
  simpl. by rewrite lookup_insert_eq.
Qed.

(** X11. Once a name is stored, the register button of that photo
    answers AlreadyRegistered to the participant; the removal of the own name
    succeeds, and after it the register button asks for a name again. *)
Theorem delete_then_register_again s uid photo_id text d safe :
  user_data s !! uid = Some (photo_id, uid) →
  photos_data s !! photo_id = Some d →
  sanitize_name is_space is_alnum text = inr safe →
  let s1 := (handle_text is_space is_alnum s uid text).1 in
  (button_handler s1 uid (RegisterName photo_id)).2 = Failed AlreadyRegistered ∧
  (button_handler s1 uid (ConfirmDelete photo_id)).2 = NameDeleted safe ∧
  let s2 := (button_handler s1 uid (ConfirmDelete photo_id)).1 in
  (button_handler s2 uid (RegisterName photo_id)).2 = NamePrompted.
Proof.
  intros Hs Hd Hsafe s1. subst s1.
  rewrite (handle_text_stored is_space is_alnum s uid text photo_id uid d safe Hs Hd Hsafe).
  simpl fst. set (d1 := (store_name d uid safe).1).
  assert (Hreg : get_users d1 !! uid = Some safe) by apply store_name_lookup.
  assert (Hne : safe ≠ []) by (by eapply sanitize_name_nonempty).
  split; [|split].
  - simpl. rewrite lookup_insert_eq. by rewrite Hreg.
  - simpl. erewrite on_entry_found; [|simpl; apply lookup_insert_eq]. simpl.
    by apply confirm_delete_reply.
  - simpl. erewrite on_entry_found; [|simpl; apply lookup_insert_eq]. simpl.
    rewrite lookup_insert_eq.
    rewrite (confirm_delete_success d1 uid safe Hreg Hne). simpl.
    destruct (removed_views d1 uid) as (Hu & _). simpl in Hu.
    by rewrite Hu, lookup_delete_eq.
Qed.
End Pending.


Lemma text_consumes_pending_witness :
  user_data (handle_text ascii_isspace ascii_isalnum state_awaiting_name 10 (lit "x")).1
    !! 10 = None ∧
  handle_text ascii_isspace ascii_isalnum state_two_photos 10 ann
    = (state_two_photos, Ignored) ∧
  user_data (handle_text ascii_isspace ascii_isalnum state_awaiting_name 11 ann).1 !! 10
    = user_data state_awaiting_name !! 10.
Proof.
  destruct (text_consumes_pending ascii_isspace ascii_isalnum state_awaiting_name 10 (lit "x"))
    as (Hgone & _).
  destruct (text_consumes_pending ascii_isspace ascii_isalnum state_two_photos 10 ann)
    as (_ & _ & Hignored & _).
  destruct (text_consumes_pending ascii_isspace ascii_isalnum state_awaiting_name 11 ann)
    as (_ & Hother & _).
  split; [exact Hgone|]. split.
  - apply Hignored. vm_compute. reflexivity.
  - apply Hother. discriminate.
Defined.

Lemma one_pending_registration_witness :
  photos_data
    (handle_text ascii_isspace ascii_isalnum
       (button_handler (button_handler state_two_photos 10 (RegisterName "photo_1")).1
          10 (RegisterName "photo_2")).1 10 ann).1 !! "photo_1"
  = photos_data state_two_photos !! "photo_1".
Proof.
  apply (one_pending_registration ascii_isspace ascii_isalnum state_two_photos 10
           "photo_1" "photo_2" ann).
  - discriminate.
  - vm_compute. reflexivity.
  - vm_compute. reflexivity.
Defined.

Lemma delete_then_register_again_witness :
  (button_handler (handle_text ascii_isspace ascii_isalnum state_awaiting_name 10 ann).1
     10 (RegisterName "photo_1")).2 = Failed AlreadyRegistered ∧
  (button_handler (handle_text ascii_isspace ascii_isalnum state_awaiting_name 10 ann).1
     10 (ConfirmDelete "photo_1")).2 = NameDeleted ann.
Proof.
  destruct (delete_then_register_again ascii_isspace ascii_isalnum state_awaiting_name 10
              "photo_1" ann (new_entry "file-1" "uniq-1") ann) as (Hrefused & Hdeleted & _).
  - vm_compute. reflexivity.
  - vm_compute. reflexivity.
  - vm_compute. reflexivity.
  - split; [exact Hrefused | exact Hdeleted].
Defined.

(** ** What an operation leaves alone *)

Lemma remove_confirmed_idem uid l :
  remove_confirmed uid (remove_confirmed uid l) = remove_confirmed uid l.
Proof.
  apply remove_confirmed_absent.
  by intros (x & -> & [_ Hx]%elem_of_remove_confirmed)%list_elem_of_fmap.
Qed.

Lemma remove_confirmed_appended uid l n :
  remove_confirmed uid (l ++ [ConfirmedUser uid n]) = remove_confirmed uid l.
Proof.
  rewrite remove_confirmed_app. unfold remove_confirmed at 2. simpl.
  rewrite Z.eqb_refl. simpl. apply app_nil_r.
Qed.


Lemma same_for_others_refl uid d : same_for_others uid d d.
Proof. done. Qed.

Lemma same_for_others_lookup uid d d' v :
  same_for_others uid d d' → v ≠ uid →
  get_users d' !! v = get_users d !! v ∧
  is_confirmed_in v (get_confirmed d') = is_confirmed_in v (get_confirmed d).
Proof.
  intros (Hu & Hc & _) Hne. split.
  - rewrite <- (lookup_delete_ne (get_users d') uid v) by done.
    rewrite Hu. by apply lookup_delete_ne.
  - assert (∀ l, is_confirmed_in v (remove_confirmed uid l) = is_confirmed_in v l) as Hrem.
    { intros l. apply eq_true_iff_eq.
      rewrite !is_confirmed_in_spec, !list_elem_of_fmap.
      setoid_rewrite elem_of_remove_confirmed. naive_solver. }
    by rewrite <- (Hrem (get_confirmed d')), Hc, Hrem.
Qed.

Lemma store_name_same_for_others d uid n :
  same_for_others uid d (store_name d uid n).1.
Proof.
  unfold store_name, same_for_others.
  repeat match goal with |- context [if ?b then _ else _] => destruct b end; simpl;
    rewrite ?get_users_set_confirmed, ?get_users_set_users, ?get_confirmed_set_confirmed,
      delete_insert_eq, ?remove_confirmed_appended; done.
Qed.

Lemma confirm_same_for_others d uid : same_for_others uid d (confirm d uid).1.
Proof.
  destruct (confirm_cases d uid)
    as [[_ ->]|[(_ & _ & ->)|[(_ & _ & _ & ->)|(n & _ & _ & _ & ->)]]]; try done.
  unfold same_for_others. simpl.
  by rewrite get_users_set_confirmed, get_confirmed_set_confirmed, remove_confirmed_appended.
Qed.

Lemma removed_same_for_others d uid :
  same_for_others uid d (drop_name (drop_confirmation d uid) uid).1.
Proof.
  destruct (removed_views d uid) as (Hu & Hc & Hp & Hq). simpl in *.
  unfold same_for_others. rewrite Hu, Hc, Hp, Hq.
  by rewrite delete_delete_eq, remove_confirmed_idem.
Qed.

Lemma confirm_delete_same_for_others d uid :
  same_for_others uid d (confirm_delete d uid).1.
Proof.
  unfold confirm_delete. destruct (get_users d !! uid) as [n|]; [|done].
  destruct (str_falsy n); [done|]. apply removed_same_for_others.
Qed.

Lemma admin_delete_same_for_others d uid :
  same_for_others uid d (admin_delete d uid).1.
Proof.
  unfold admin_delete. destruct (get_users d !! uid) as [n|]; [|done].
  destruct (str_falsy n); [done|].
  pose proof (removed_same_for_others d uid) as H.
  by destruct (drop_name (drop_confirmation d uid) uid).
Qed.

Lemma admin_unconfirm_same_for_others d uid :
  same_for_others uid d (admin_unconfirm d uid).1.
Proof.
  unfold admin_unconfirm. destruct (get_users d !! uid) as [n|]; [|done].
  destruct (str_falsy n); [done|].
  destruct (confirmed_users d) as [cs|] eqn:Hcs; [|done].
  assert (get_confirmed d = cs) as Hget by (unfold get_confirmed; by rewrite Hcs).
  assert (same_for_others uid d (set_confirmed d (remove_confirmed uid cs))) as H.
  { unfold same_for_others.
    by rewrite get_users_set_confirmed, get_confirmed_set_confirmed, Hget,
      remove_confirmed_idem. }
  by case_bool_decide.
Qed.

(** X12. Every operation on an entry touches one participant only: the
    registration, the explicit confirmation, the removal of the own name and
    the two moderator removals leave the names of all other participants,
    their confirmed entries in their order and the media keys as they were;
    for any other participant the name and the confirmed status are
    unchanged. *)
Theorem operations_touch_one_participant d uid :
  (∀ n, same_for_others uid d (store_name d uid n).1) ∧
  same_for_others uid d (confirm d uid).1 ∧
  same_for_others uid d (confirm_delete d uid).1 ∧
  same_for_others uid d (admin_unconfirm d uid).1 ∧
  same_for_others uid d (admin_delete d uid).1 ∧
  (∀ d' v, same_for_others uid d d' → v ≠ uid →
     get_users d' !! v = get_users d !! v ∧
     is_confirmed_in v (get_confirmed d') = is_confirmed_in v (get_confirmed d)).
Proof.
  split; [intros n; apply store_name_same_for_others|].
  split; [apply confirm_same_for_others|].
  split; [apply confirm_delete_same_for_others|].
  split; [apply admin_unconfirm_same_for_others|].
  split; [apply admin_delete_same_for_others|].
  intros d' v. apply same_for_others_lookup.
Qed.

Lemma operations_touch_one_participant_witness :
  get_users (admin_delete entry_full 2).1 !! 3 = get_users entry_full !! 3 ∧
  is_confirmed_in 3 (get_confirmed (admin_delete entry_full 2).1)
    = is_confirmed_in 3 (get_confirmed entry_full).
Proof.
  destruct (operations_touch_one_participant entry_full 2) as (_ & _ & _ & _ & Hdel & Hothers).
  apply (Hothers _ 3 Hdel). discriminate.
Defined.


Lemma photos_same_refl uid (photos : gmap string photo_entry) photo_id :
  option_Forall2 (same_for_others uid) (photos !! photo_id) (photos !! photo_id).
Proof. destruct (photos !! photo_id); constructor. apply same_for_others_refl. Qed.

Lemma on_entry_same_for_others s photo_id op uid :
  (∀ d, same_for_others uid d (op d).1) →
  admins (on_entry s photo_id op).1 = admins s ∧
  ∀ p, option_Forall2 (same_for_others uid)
         (photos_data s !! p) (photos_data (on_entry s photo_id op).1 !! p).
Proof.
  intros Hop. unfold on_entry.
  destruct (photos_data s !! photo_id) as [d|] eqn:Hd.
  - specialize (Hop d). destruct (op d) as [d' r]. simpl in *. split; [done|].
    intros p. rewrite lookup_insert. case_decide as Hp.
    + subst p. rewrite Hd. by constructor.
    + apply photos_same_refl.
  - split; [done|]. intros p. apply photos_same_refl.
Qed.

(** X13. What a participant does concerns that participant only: the text
    with the name and the buttons register, confirm and delete-my-name leave
    the administrators, the set of photos, their media keys, and the names
    and confirmed entries of every other participant as they were.  The two
    moderator removals touch the target only. *)
Theorem participant_event_frame (is_space is_alnum : N → bool) s :
  (∀ e, pending_ok s → participant_event e = true →
     admins (step is_space is_alnum s e).1 = admins s ∧
     ∀ photo_id,
       option_Forall2 (same_for_others (sender e))
         (photos_data s !! photo_id)
         (photos_data (step is_space is_alnum s e).1 !! photo_id)) ∧
  (∀ uid photo_id target data,
     data = AdminDeleteOk photo_id target ∨ data = AdminUnconfirmOk photo_id target →
     admins (button_handler s uid data).1 = admins s ∧
     ∀ p, option_Forall2 (same_for_others target)
            (photos_data s !! p) (photos_data (button_handler s uid data).1 !! p)).
Proof.
  split.
  - intros e Hpend He.
    destruct e as [u|u arg|u arg|u|u f q|u t|u data]; try discriminate He; simpl.
    + unfold handle_text. destruct (user_data s !! u) as [[p v]|] eqn:Hs.
      2:{ split; [done|]. intros q. apply photos_same_refl. }
      destruct (Hpend _ _ _ Hs) as [-> _]. simpl.
      destruct (photos_data s !! p) as [d|] eqn:Hd.
      2:{ split; [done|]. intros q. apply photos_same_refl. }
      destruct (sanitize_name is_space is_alnum t) as [err|safe].
      { split; [done|]. intros q. apply photos_same_refl. }
      pose proof (store_name_same_for_others d u safe) as Hsame.
      destruct (store_name d u safe) as [d' r]. simpl in *. split; [done|].
      intros q. rewrite lookup_insert. case_decide as Hq.
      * subst q. rewrite Hd. by constructor.
      * apply photos_same_refl.
    + destruct data; try discriminate He; simpl.
      * apply on_entry_same_for_others. intros d. apply confirm_delete_same_for_others.
      * destruct (photos_data s !! photo_id) as [d|] eqn:Hd.
        2:{ split; [done|]. intros q. apply photos_same_refl. }
        destruct (get_users d !! u); (split; [done|]); intros q; apply photos_same_refl.
      * apply on_entry_same_for_others. intros d. apply confirm_same_for_others.
  - intros uid photo_id target data [-> | ->]; simpl;
      (destruct (negb (is_admin s uid));
       [split; [done|]; intros p; apply photos_same_refl|]);
      apply on_entry_same_for_others; intros d.
    + apply admin_delete_same_for_others.
    + apply admin_unconfirm_same_for_others.
Qed.

Lemma state_awaiting_name_pending : pending_ok state_awaiting_name.
Proof.
  apply (run_ok nonempty ascii_isspace ascii_isalnum
           (sanitize_name_nonempty ascii_isspace ascii_isalnum) _ _
           (initial_state_ok nonempty None None)).
Qed.

Lemma participant_event_frame_witness :
  admins (step ascii_isspace ascii_isalnum state_awaiting_name (MsgText 10 ann)).1
    = admins state_awaiting_name ∧
  option_Forall2 (same_for_others 10)
    (photos_data state_awaiting_name !! "photo_1")
    (photos_data (step ascii_isspace ascii_isalnum state_awaiting_name (MsgText 10 ann)).1
       !! "photo_1") ∧
  option_Forall2 (same_for_others 2)
    (photos_data state_full !! "photo_1")
    (photos_data (button_handler state_full 1 (AdminDeleteOk "photo_1" 2)).1 !! "photo_1").
Proof.
  destruct (participant_event_frame ascii_isspace ascii_isalnum state_awaiting_name)
    as [Hown _].
  destruct (participant_event_frame ascii_isspace ascii_isalnum state_full) as [_ Hadmin].
  destruct (Hown (MsgText 10 ann) state_awaiting_name_pending eq_refl) as [Ha Hp].
  split; [exact Ha|]. split; [apply (Hp "photo_1")|].
  apply (Hadmin 1 "photo_1" 2 (AdminDeleteOk "photo_1" 2)). left. reflexivity.
Defined.

(** ** Clearing the names and resetting everything *)

Lemma entry_without_names d :
  entry_has_names d = false → get_users d = ∅ ∧ get_confirmed d = [].
Proof.
  unfold entry_has_names. intros H.
  apply orb_false_iff in H as [Hu Hc].
  apply negb_false_iff, bool_decide_eq_true in Hu.
  apply negb_false_iff, bool_decide_eq_true in Hc. done.
Qed.

Lemma clear_entry_views d :
  get_users (clear_entry d) = ∅ ∧ get_confirmed (clear_entry d) = [] ∧
  photo (clear_entry d) = photo d ∧
  photo_file_unique_id (clear_entry d) = photo_file_unique_id d.
Proof.
  unfold clear_entry. destruct (entry_has_names d) eqn:H; [done|].
  by destruct (entry_without_names d H).
Qed.

Lemma clear_entry_unnamed d : entry_has_names d = false → clear_entry d = d.
Proof. unfold clear_entry. by intros ->. Qed.

Lemma entry_has_names_cleared d : entry_has_names (clear_entry d) = false.
Proof.
  destruct (clear_entry_views d) as (Hu & Hc & _).
  unfold entry_has_names. rewrite Hu, Hc. done.
Qed.

(** The entries skipped by the loop of [clear_names] count for nothing. *)
Lemma sum_touched (f : photo_entry → nat) (l : list photo_entry) :
  (∀ d, entry_has_names d = false → f d = 0%nat) →
  sum_list (f <$> List.filter entry_has_names l) = sum_list (f <$> l).
Proof.
  intros Hf. induction l as [|d l IH]; [done|]. simpl.
  destruct (entry_has_names d) eqn:H; simpl.
  - f_equal. exact IH.
  - rewrite (Hf d H). exact IH.
Qed.

Lemma sum_list_zero (f : photo_entry → nat) (l : list photo_entry) :
  (∀ d, d ∈ l → f d = 0%nat) → sum_list (f <$> l) = 0%nat.
Proof.
  induction l as [|d l IH]; [done|]. intros H. simpl.
  rewrite (H d) by apply list_elem_of_here. simpl.
  apply IH. intros e He. apply H. by apply list_elem_of_further.
Qed.

Lemma filter_nil_all (l : list photo_entry) :
  List.filter entry_has_names l = [] → ∀ d, d ∈ l → entry_has_names d = false.
Proof.
  induction l as [|e l IH]; intros H d Hd; [by apply elem_of_nil in Hd|].
  simpl in H. destruct (entry_has_names e) eqn:He; [done|].
  apply elem_of_cons in Hd as [->|Hd]; [done | by apply IH].
Qed.

Lemma filter_none (l : list photo_entry) :
  (∀ d, d ∈ l → entry_has_names d = false) → List.filter entry_has_names l = [].
Proof.
  induction l as [|e l IH]; intros H; [done|]. simpl.
  rewrite (H e) by apply list_elem_of_here.
  apply IH. intros d Hd. apply H. by apply list_elem_of_further.
Qed.

Lemma totals_cleared (photos : gmap string photo_entry) :
  total_users (clear_entry <$> photos) = 0%nat ∧
  total_confirmed (clear_entry <$> photos) = 0%nat.
Proof.
  unfold total_users, total_confirmed. split.
  - apply sum_list_zero. intros d Hd.
    apply list_elem_of_fmap in Hd as ([k d'] & -> & Hd).
    apply elem_of_map_to_list in Hd. apply lookup_fmap_Some in Hd as (d0 & <- & _).
    simpl. destruct (clear_entry_views d0) as (-> & _). done.
  - apply sum_list_zero. intros d Hd.
    apply list_elem_of_fmap in Hd as ([k d'] & -> & Hd).
    apply elem_of_map_to_list in Hd. apply lookup_fmap_Some in Hd as (d0 & <- & _).
    simpl. destruct (clear_entry_views d0) as (_ & -> & _). done.
Qed.

Lemma clear_names_admin s uid :
  uid ∈ admins s → photos_data s ≠ ∅ →
  clear_names s uid =
    (with_photos s (clear_entry <$> photos_data s),
     let touched := List.filter entry_has_names (map_to_list (photos_data s)).*2 in
     if bool_decide (0 < length touched)%nat
     then NamesCleared (length touched) (total_users (photos_data s))
            (total_confirmed (photos_data s))
     else NoParticipantData).
Proof.
  intros Hadmin Hne. unfold clear_names. rewrite (is_admin_true _ _ Hadmin). simpl.
  rewrite bool_decide_eq_false_2 by done. f_equal.
  unfold total_users, total_confirmed.
  rewrite !sum_touched; [done| |].
  - intros d H. by destruct (entry_without_names d H) as [_ ->].
  - intros d H. by destruct (entry_without_names d H) as [-> _].
Qed.

(** X14.  [clear_names] by an administrator, with photos stored: every
    photo stays, with its media and with both participant views empty; the
    administrators and the pending registrations stay.  The answer counts
    what the preview of a reset counts: either some photo held names, and
    the answer carries the number of registrations and of confirmations over
    all photos, or no photo held any, nothing changes and both totals are
    zero.  Afterwards the preview of a reset shows the same number of photos
    with no registration and no confirmation, and a second [clear_names]
    finds nothing to clear. *)
Theorem clear_names_outcome s uid :
  uid ∈ admins s → photos_data s ≠ ∅ →
  let s' := (clear_names s uid).1 in
  admins s' = admins s ∧ user_data s' = user_data s ∧
  (∀ photo_id, is_Some (photos_data s' !! photo_id) ↔ is_Some (photos_data s !! photo_id)) ∧
  (∀ photo_id d', photos_data s' !! photo_id = Some d' →
     get_users d' = ∅ ∧ get_confirmed d' = [] ∧
     ∃ d, photos_data s !! photo_id = Some d ∧
          photo d' = photo d ∧ photo_file_unique_id d' = photo_file_unique_id d) ∧
  ((∃ k, (0 < k)%nat ∧
         (clear_names s uid).2 =
           NamesCleared k (total_users (photos_data s)) (total_confirmed (photos_data s)))
   ∨ ((clear_names s uid).2 = NoParticipantData ∧ s' = s ∧
      total_users (photos_data s) = 0%nat ∧ total_confirmed (photos_data s) = 0%nat)) ∧
  reset_data s' uid = ResetAsked (size (photos_data s)) 0 0 ∧
  (clear_names s' uid).2 = NoParticipantData.
Proof.
  intros Hadmin Hne s'. subst s'.
  rewrite (clear_names_admin s uid Hadmin Hne). simpl.
  assert (Hne' : clear_entry <$> photos_data s ≠ ∅).
  { intros H. by apply fmap_empty_inv in H. }
  split; [done|]. split; [done|]. split; [|split; [|split; [|split]]].
  - intros p. rewrite lookup_fmap. by rewrite fmap_is_Some.
  - intros p d'. rewrite lookup_fmap. intros (d & Hd & ->)%fmap_Some.
    destruct (clear_entry_views d) as (Hu & Hc & Hp & Hq).
    split; [done|]. split; [done|]. by exists d.
  - case_bool_decide as Hk.
    + left. by eexists.
    + right. split; [done|].
      assert (Hnone : ∀ d, d ∈ (map_to_list (photos_data s)).*2 →
                 entry_has_names d = false).
      { apply filter_nil_all. destruct (List.filter _ _); [done | simpl in Hk; lia]. }
      assert (Hsame : clear_entry <$> photos_data s = photos_data s).
      { apply map_eq. intros p. rewrite lookup_fmap.
        destruct (photos_data s !! p) as [d|] eqn:Hd; [|done]. simpl. f_equal.
        apply clear_entry_unnamed, Hnone.
        apply list_elem_of_fmap. exists (p, d). split; [done|].
        by apply elem_of_map_to_list. }
      split; [rewrite Hsame; by destruct s|].
      unfold total_users, total_confirmed. split.
      * apply sum_list_zero. intros d Hd.
        by destruct (entry_without_names d (Hnone d Hd)) as [-> _].
      * apply sum_list_zero. intros d Hd.
        by destruct (entry_without_names d (Hnone d Hd)) as [_ ->].
  - unfold reset_data.
    rewrite (is_admin_true (with_photos s (clear_entry <$> photos_data s)) uid Hadmin).
    simpl. rewrite bool_decide_eq_false_2 by done.
    destruct (totals_cleared (photos_data s)) as [-> ->].
    by rewrite map_size_fmap.
  - rewrite clear_names_admin; [|done|done]. simpl.
    rewrite bool_decide_eq_false_2; [done|].
    rewrite filter_none; [simpl; lia|].
    intros d Hd. apply list_elem_of_fmap in Hd as ([k d'] & -> & Hd).
    apply elem_of_map_to_list in Hd. apply lookup_fmap_Some in Hd as (d0 & <- & _).
    apply entry_has_names_cleared.
Qed.

Lemma clear_names_outcome_witness :
  (clear_names state_full_pending 1).2 = NamesCleared 1 5 4 ∧
  reset_data (clear_names state_full_pending 1).1 1 = ResetAsked 1 0 0 ∧
  user_data (clear_names state_full_pending 1).1 = user_data state_full_pending.
Proof.
  destruct (clear_names_outcome state_full_pending 1)
    as (_ & Hpending & _ & _ & Hreply & Hpreview & _).
  { compute_done. }
  { intros H. apply (f_equal size) in H. vm_compute in H. discriminate. }
  split; [vm_compute; reflexivity|]. split; [|exact Hpending].
  rewrite Hpreview. vm_compute. reflexivity.
Defined.


Lemma no_photo (photo_id : string) :
  (∅ : gmap string photo_entry) !! photo_id = None.
Proof. apply lookup_empty. Qed.

(** X15.  The button confirm_reset_all pressed by an administrator
    removes every photo and answers with their number, the one the preview
    of [reset_data] announced; the administrators and the pending
    registrations stay.  Afterwards the preview and [clear_names] find
    nothing stored, the next photo is photo_1, and a name sent for a
    registration that was pending is answered with the photo not being
    available and uses the registration up, while the keyboard of a removed
    photo still offers the registration that the handler refuses. *)
Theorem reset_all_outcome (is_space is_alnum : N → bool) s uid :
  uid ∈ admins s →
  let s' := (button_handler s uid ConfirmResetAll).1 in
  (button_handler s uid ConfirmResetAll).2 = AllReset (size (photos_data s)) ∧
  (∀ n u c, reset_data s uid = ResetAsked n u c → n = size (photos_data s)) ∧
  photos_data s' = ∅ ∧ admins s' = admins s ∧ user_data s' = user_data s ∧
  reset_data s' uid = ResetRefused NothingStored ∧
  clear_names s' uid = (s', Failed NothingStored) ∧
  (∀ file_id file_unique_id,
     (handle_photo s' uid file_id file_unique_id).2 = PhotoAdded "photo_1") ∧
  (∀ sender text, is_Some (user_data s !! sender) →
     handle_text is_space is_alnum s' sender text =
       (with_user_data s' (delete sender (user_data s)), Failed ItemNotFound)) ∧
  (∀ who photo_id,
     RegisterButton photo_id ∈ get_photo_keyboard s' photo_id (Some who) ∧
     button_handler s' who (RegisterName photo_id) = (s', Failed ItemNotFound)).
Proof.
  intros Hadmin s'. subst s'.
  assert (Hreset : button_handler s uid ConfirmResetAll =
                     (with_photos s ∅, AllReset (size (photos_data s)))).
  { simpl. by rewrite (is_admin_true _ _ Hadmin). }
  rewrite Hreset. simpl.
  split; [done|]. split.
  { unfold reset_data. rewrite (is_admin_true _ _ Hadmin). simpl.
    case_bool_decide; [done|]. by intros n u c [= <- _ _]. }
  split; [done|]. split; [done|]. split; [done|].
  split.
  { unfold reset_data. by rewrite (is_admin_true (with_photos s ∅) uid Hadmin). }
  split.
  { unfold clear_names. by rewrite (is_admin_true (with_photos s ∅) uid Hadmin). }
  split.
  { intros f u. unfold handle_photo.
    by rewrite (is_admin_true (with_photos s ∅) uid Hadmin). }
  split.
  { intros sender text [[p v] Hp]. unfold handle_text. simpl. rewrite Hp. simpl.
    by rewrite (no_photo p). }
  intros who p. split.
  - unfold get_photo_keyboard. simpl. rewrite (no_photo p). simpl.
    apply elem_of_app. left. apply list_elem_of_here.
  - simpl. by rewrite (no_photo p).
Qed.

Lemma reset_all_outcome_witness :
  (button_handler state_full_pending 1 ConfirmResetAll).2 = AllReset 1 ∧
  handle_text ascii_isspace ascii_isalnum
    (button_handler state_full_pending 1 ConfirmResetAll).1 10 ann =
    (with_user_data (button_handler state_full_pending 1 ConfirmResetAll).1
       (delete 10 (user_data state_full_pending)), Failed ItemNotFound).
Proof.
  destruct (reset_all_outcome ascii_isspace ascii_isalnum state_full_pending 1)
    as (Hreply & _ & _ & _ & _ & _ & _ & _ & Htext & _).
  { compute_done. }
  split; [rewrite Hreply; vm_compute; reflexivity|].
  apply Htext. eexists. vm_compute. reflexivity.
Defined.

(** ** The participant views *)

Lemma confirmed_lines_from_lookup i l k :
  confirmed_lines_from i l !! k =
    (λ x, (i + Z.of_nat k + 1, get_user_icon (i + Z.of_nat k), name x)) <$> l !! k.
Proof.
  revert i k. induction l as [|x l IH]; intros i [|k]; simpl; [done | done | |].
  - by rewrite Z.add_0_r.
  - rewrite IH. by replace (i + 1 + Z.of_nat k) with (i + Z.pos (Pos.of_succ_nat k)) by lia.
Qed.

Lemma confirmed_lines_from_length i l :
  length (confirmed_lines_from i l) = length l.
Proof. revert i. induction l as [|x l IH]; intros i; simpl; [done|]. by rewrite IH. Qed.

Lemma confirmed_are_registered d :
  item_inv d → (length (get_confirmed d) ≤ size (get_users d))%nat.
Proof.
  intros [Hdistinct _ Hreg].
  rewrite <- (length_fmap user_id), <- (size_dom (D:=gset Z)).
  rewrite <- (size_list_to_set (C:=gset Z)) by done.
  apply subseteq_size. intros id Hid.
  apply elem_of_list_to_set, list_elem_of_fmap in Hid as (x & -> & Hx).
  apply elem_of_dom. rewrite (Hreg x Hx). by eexists.
Qed.

(** X16.  The views of one participant agree.  For a participant with a
    name under a photo whose entry has the item invariant: when confirmed at
    position k, the keyboard, the list of the show action, the numbered
    lines of the confirmed and the card shown to an administrator all give
    the icon of k, the keyboard and the numbered line give the place k + 1,
    and the line and the card carry the registered name; when not
    confirmed, the list says waiting, the keyboard shows no place and the
    card has the person icon and position -1.  The numbered lines are as
    many as the confirmed count of the show action, which exceeds neither
    the registered count nor the capacity. *)
Theorem views_agree s admin photo_id d uid n :
  item_inv d → admin ∈ admins s →
  photos_data s !! photo_id = Some d → get_users d !! uid = Some n → n ≠ [] →
  (is_confirmed_in uid (get_confirmed d) = true →
   ∃ k, position_of uid (get_confirmed d) = Z.of_nat k ∧
        (k < MAX_CONFIRMED_USERS)%nat ∧
        participant_status d uid = ShownConfirmed (get_user_icon (Z.of_nat k)) ∧
        keyboard_status d (Some uid) =
          Some (StatusConfirmed (get_user_icon (Z.of_nat k)) (Z.of_nat k + 1)) ∧
        confirmed_lines d !! k = Some (Z.of_nat k + 1, get_user_icon (Z.of_nat k), n) ∧
        ∃ card, adminshow s admin photo_id uid = inr card ∧
                card_name card = n ∧ card_confirmed card = true ∧
                card_icon card = get_user_icon (Z.of_nat k) ∧
                card_position card = Z.of_nat k) ∧
  (is_confirmed_in uid (get_confirmed d) = false →
   participant_status d uid = ShownWaiting ∧
   (∀ icon place, keyboard_status d (Some uid) ≠ Some (StatusConfirmed icon place)) ∧
   ∃ card, adminshow s admin photo_id uid = inr card ∧
           card_name card = n ∧ card_confirmed card = false ∧
           card_icon card = icon_person ∧ card_position card = -1) ∧
  length (confirmed_lines d) = (show_counts d).1 ∧
  ((show_counts d).1 ≤ (show_counts d).2)%nat ∧
  ((show_counts d).1 ≤ MAX_CONFIRMED_USERS)%nat.
Proof.
  intros Hinv Hadmin Hd Hn Hne.
  assert (Hcard : adminshow s admin photo_id uid =
            inr {| card_name := n;
                   card_confirmed := is_confirmed_in uid (get_confirmed d);
                   card_icon :=
                     (let position :=
                        if is_confirmed_in uid (get_confirmed d)
                        then position_of uid (get_confirmed d) else -1 in
                      if 0 <=? position then get_user_icon position else icon_person);
                   card_position :=
                     (if is_confirmed_in uid (get_confirmed d)
                      then position_of uid (get_confirmed d) else -1);
                   card_actions :=
                     (if is_confirmed_in uid (get_confirmed d)
                      then [OfferUnconfirm photo_id uid] else [])
                     ++ [OfferDelete photo_id uid; OfferBack photo_id] |}).
  { unfold adminshow. rewrite (is_admin_true _ _ Hadmin). simpl. rewrite Hd, Hn.
    by destruct n. }
  split; [|split; [|split; [|split]]].
  - intros Hin.
    destruct (position_from_found 0 uid (get_confirmed d)) as (k & x & Hpos & Hk & Hx & _);
      [by apply is_confirmed_in_spec|].
    fold (position_of uid (get_confirmed d)) in Hpos. rewrite Z.add_0_l in Hpos.
    exists k. split; [done|].
    pose proof (lookup_lt_Some _ _ _ Hk) as Hlt.
    pose proof (inv_capacity d Hinv) as Hcap.
    split; [lia|].
    split; [unfold participant_status; by rewrite Hin, Hpos|].
    split; [by rewrite (keyboard_status_confirmed d uid Hin), Hpos|].
    split.
    + unfold confirmed_lines. rewrite confirmed_lines_from_lookup, Hk. simpl.
      rewrite !Z.add_0_l.
      assert (Hname : get_users d !! user_id x = Some (name x)).
      { apply (inv_registered d Hinv). apply list_elem_of_lookup. by exists k. }
      rewrite Hx, Hn in Hname. by injection Hname as ->.
    + eexists. split; [exact Hcard|]. simpl. rewrite Hin, Hpos.
      split; [done|]. split; [done|]. split; [|done].
      by destruct (Z.leb_spec 0 (Z.of_nat k)); [|lia].
  - intros Hout. split; [unfold participant_status; by rewrite Hout|].
    split.
    + intros icon place. unfold keyboard_status. simpl. rewrite Hout.
      repeat match goal with |- context [if ?b then _ else _] => destruct b end; done.
    + eexists. split; [exact Hcard|]. simpl. by rewrite Hout.
  - unfold confirmed_lines, show_counts. simpl. apply confirmed_lines_from_length.
  - simpl. by apply confirmed_are_registered.
  - simpl. apply (inv_capacity d Hinv).
Qed.

Lemma views_agree_witness :
  participant_status entry_full 3 = ShownConfirmed icon_moon ∧
  keyboard_status entry_full (Some 3) = Some (StatusConfirmed icon_moon 3) ∧
  confirmed_lines entry_full !! 2%nat = Some (3, icon_moon, name_of 3) ∧
  participant_status entry_full 5 = ShownWaiting ∧
  length (confirmed_lines entry_full) = 4%nat.
Proof.
  destruct (views_agree state_full 1 "photo_1" entry_full 3 (name_of 3))
    as (Hconfirmed & _ & Hlen & _).
  { apply item_inv_check_sound. vm_compute. reflexivity. }
  { compute_done. }
  { vm_compute. reflexivity. }
  { vm_compute. reflexivity. }
  { discriminate. }
  destruct (views_agree state_full 1 "photo_1" entry_full 5 (name_of 5))
    as (_ & Hwaiting & _).
  { apply item_inv_check_sound. vm_compute. reflexivity. }
  { compute_done. }
  { vm_compute. reflexivity. }
  { vm_compute. reflexivity. }
  { discriminate. }
  destruct Hconfirmed as (k & Hk & _ & Hstatus & Hkeyboard & Hline & _);
    [vm_compute; reflexivity|].
  assert (Hpos : position_of 3 (get_confirmed entry_full) = 2)
    by (vm_compute; reflexivity).
  assert (k = 2%nat) as -> by lia.
  destruct Hwaiting as (Hshown & _); [vm_compute; reflexivity|].
  split; [exact Hstatus|]. split; [exact Hkeyboard|]. split; [exact Hline|].
  split; [exact Hshown|]. rewrite Hlen. vm_compute. reflexivity.
Defined.

(** ** Trimming: [strip] *)

Lemma rev_reverse (s : pystr) : rev s = reverse s.
Proof. unfold reverse. apply rev_alt. Qed.

Section StripFacts.
Variable is_space : N → bool.
Variable is_alnum : N → bool.

Lemma lstrip_split s :
  ∃ pre, s = pre ++ lstrip is_space s ∧ Forall (λ c, is_space c = true) pre.
Proof.
  induction s as [|c s (pre & IH & Hpre)]; [by exists []|]. simpl.
  destruct (is_space c) eqn:Hc.
  - exists (c :: pre). split; [simpl; by f_equal | by constructor].
  - by exists [].
Qed.

Lemma lstrip_head s c : head (lstrip is_space s) = Some c → is_space c = false.
Proof.
  induction s as [|x s IH]; [done|]. simpl.
  destruct (is_space x) eqn:Hx; [done|]. simpl. by intros [= <-].
Qed.

Lemma lstrip_id s :
  (∀ c, head s = Some c → is_space c = false) → lstrip is_space s = s.
Proof. destruct s as [|c s]; [done|]. simpl. intros H. by rewrite (H c). Qed.

Lemma lstrip_spaces pre s :
  Forall (λ c, is_space c = true) pre → lstrip is_space (pre ++ s) = lstrip is_space s.
Proof. induction 1 as [|c pre Hc _ IH]; [done|]. simpl. by rewrite Hc. Qed.

Lemma lstrip_app s post :
  lstrip is_space s ≠ [] → lstrip is_space (s ++ post) = lstrip is_space s ++ post.
Proof.
  induction s as [|c s IH]; [done|]. simpl.
  destruct (is_space c); [done|]. done.
Qed.

Lemma lstrip_nil s :
  lstrip is_space s = [] ↔ Forall (λ c, is_space c = true) s.
Proof.
  split.
  - intros H. destruct (lstrip_split s) as (pre & Hs & Hpre).
    rewrite H, app_nil_r in Hs. by subst.
  - intros H. rewrite <- (app_nil_r s). by rewrite lstrip_spaces.
Qed.

(** What the first trimming leaves is the trimmed text and the whitespace
    at its end. *)
Lemma lstrip_strip s :
  ∃ post, lstrip is_space s = strip is_space s ++ post ∧
          Forall (λ c, is_space c = true) post.
Proof.
  destruct (lstrip_split (rev (lstrip is_space s))) as (q & Hq & Hqs).
  exists (rev q). split; [|by apply Forall_rev].
  unfold strip. rewrite <- rev_app_distr, <- Hq. by rewrite rev_involutive.
Qed.

Lemma strip_head s c : head (strip is_space s) = Some c → is_space c = false.
Proof.
  intros Hc. destruct (lstrip_strip s) as (post & Hs & _).
  apply (lstrip_head s). rewrite Hs.
  apply head_Some in Hc as [l' ->]. done.
Qed.

Lemma strip_last s c : last (strip is_space s) = Some c → is_space c = false.
Proof.
  unfold strip. rewrite rev_reverse, last_reverse. apply lstrip_head.
Qed.

Lemma strip_nil s :
  strip is_space s = [] ↔ Forall (λ c, is_space c = true) s.
Proof.
  split.
  - intros H. destruct (lstrip_split s) as (pre & Hs & Hpre).
    destruct (lstrip_strip s) as (post & Hl & Hpost).
    rewrite Hs, Hl, H. apply Forall_app. done.
  - intros H%lstrip_nil. unfold strip. by rewrite H.
Qed.

Lemma strip_spaces_r s post :
  Forall (λ c, is_space c = true) post →
  strip is_space (s ++ post) = strip is_space s.
Proof.
  intros Hpost. destruct (lstrip is_space s) as [|c l] eqn:Hs.
  - apply lstrip_nil in Hs as Hall.
    transitivity (@nil N); [|symmetry]; apply strip_nil; [|done].
    by apply Forall_app.
  - unfold strip. rewrite lstrip_app by (by rewrite Hs).
    rewrite rev_app_distr, lstrip_spaces by (by apply Forall_rev). done.
Qed.

(** X17.  The trimming that opens [handle_text]: the trimmed text is the
    message without a run of whitespace at its start and one at its end,
    it neither begins nor ends with whitespace, and trimming it again
    changes nothing.  Whitespace around a message therefore does not affect
    the validation, and a message of whitespace only is answered as an
    empty name. *)
Theorem strip_spec s :
  (∃ pre post, s = pre ++ strip is_space s ++ post ∧
     Forall (λ c, is_space c = true) pre ∧ Forall (λ c, is_space c = true) post) ∧
  (∀ c, head (strip is_space s) = Some c → is_space c = false) ∧
  (∀ c, last (strip is_space s) = Some c → is_space c = false) ∧
  strip is_space (strip is_space s) = strip is_space s ∧
  (∀ pre post, Forall (λ c, is_space c = true) pre →
     Forall (λ c, is_space c = true) post →
     strip is_space (pre ++ s ++ post) = strip is_space s ∧
     sanitize_name is_space is_alnum (pre ++ s ++ post) =
       sanitize_name is_space is_alnum s) ∧
  (Forall (λ c, is_space c = true) s ↔
   sanitize_name is_space is_alnum s = inl EmptyName).
Proof.
  assert (Haround : ∀ pre post, Forall (λ c, is_space c = true) pre →
            Forall (λ c, is_space c = true) post →
            strip is_space (pre ++ s ++ post) = strip is_space s).
  { intros pre post Hpre Hpost. rewrite <- (strip_spaces_r s post Hpost).
    unfold strip. by rewrite lstrip_spaces. }
  split; [|split; [|split; [|split; [|split]]]].
  - destruct (lstrip_split s) as (pre & Hs & Hpre).
    destruct (lstrip_strip s) as (post & Hl & Hpost).
    exists pre, post. by rewrite <- Hl.
  - apply strip_head.
  - apply strip_last.
  - unfold strip at 1. rewrite (lstrip_id (strip is_space s)) by apply strip_head.
    rewrite lstrip_id; [apply rev_involutive|].
    intros c. rewrite rev_reverse, head_reverse. apply strip_last.
  - intros pre post Hpre Hpost. split; [by apply Haround|].
    unfold sanitize_name. by rewrite (Haround pre post Hpre Hpost).
  - rewrite <- strip_nil. unfold sanitize_name. simpl.
    destruct (strip is_space s) as [|c l]; [done|]. simpl. split; [done|].
    repeat match goal with |- context [if ?b then _ else _] => destruct b end; done.
Qed.
End StripFacts.

Lemma strip_spec_witness :
  strip ascii_isspace (lit "  Ann ") = ann ∧
  sanitize_name ascii_isspace ascii_isalnum (lit "  " ++ ann ++ lit " ") =
    sanitize_name ascii_isspace ascii_isalnum ann ∧
  sanitize_name ascii_isspace ascii_isalnum (lit "   ") = inl EmptyName.
Proof.
  destruct (strip_spec ascii_isspace ascii_isalnum ann) as (_ & _ & _ & _ & Haround & _).
  destruct (strip_spec ascii_isspace ascii_isalnum (lit "   ")) as (_ & _ & _ & _ & _ & Hempty).
  destruct (Haround (lit "  ") (lit " ")) as [Hstrip Hsame].
  { repeat constructor. }
  { repeat constructor. }
  split; [vm_compute; reflexivity|]. split; [exact Hsame|].
  apply Hempty. repeat constructor.
Defined.

(** ** Tags: [strip_tags] *)

Lemma strip_tags_from_pending buf s :
  ch_gt ∉ s → strip_tags_from (Some buf) s = ch_lt :: buf ++ s.
Proof.
  revert buf. induction s as [|c s IH]; intros buf Hs; simpl.
  - by rewrite app_nil_r.
  - apply not_elem_of_cons in Hs as [Hc Hs].
    destruct (N.eqb_spec c ch_gt) as [Heq|_]; [congruence|].
    rewrite IH by done. by rewrite <- app_assoc.
Qed.

Lemma strip_tags_from_close buf inner post :
  ch_gt ∉ inner → buf ++ inner ≠ [] →
  strip_tags_from (Some buf) (inner ++ ch_gt :: post) = strip_tags post.
Proof.
  revert buf. induction inner as [|c inner IH]; intros buf Hin Hne; simpl.
  - rewrite app_nil_r in Hne. by destruct buf.
  - apply not_elem_of_cons in Hin as [Hc Hin].
    destruct (N.eqb_spec c ch_gt) as [Heq|_]; [congruence|].
    apply IH; [done|]. rewrite <- app_assoc. done.
Qed.

Lemma strip_tags_text pre s :
  ch_lt ∉ pre → strip_tags (pre ++ s) = pre ++ strip_tags s.
Proof.
  unfold strip_tags. induction pre as [|c pre IH]; intros Hpre; [done|]. simpl.
  apply not_elem_of_cons in Hpre as [Hc Hpre].
  destruct (N.eqb_spec c ch_lt) as [Heq|_]; [congruence|]. by rewrite IH.
Qed.

Lemma strip_tags_from_tagless pending s :
  (∀ buf, pending = Some buf → ch_gt ∉ buf) →
  tagless (strip_tags_from pending s).
Proof.
  revert pending. induction s as [|c s IH]; intros pending Hbuf; simpl.
  - destruct pending as [buf|]; [|constructor]. apply tagless_open. by apply Hbuf.
  - destruct pending as [buf|].
    + destruct (N.eqb_spec c ch_gt) as [->|Hc].
      * destruct buf; [apply tagless_empty_tag|]; by apply IH.
      * apply IH. intros ? [= <-]. apply not_elem_of_app. split; [by apply Hbuf|].
        by apply not_elem_of_cons; split; [|apply not_elem_of_nil].
    + destruct (N.eqb_spec c ch_lt) as [->|Hc].
      * apply IH. intros ? [= <-]. apply not_elem_of_nil.
      * apply tagless_char; [done|]. by apply IH.
Qed.

Lemma tagless_fixed t : tagless t → strip_tags t = t.
Proof.
  induction 1 as [|c s Hc _ IH|s _ IH|s Hs].
  - done.
  - unfold strip_tags in *. simpl.
    destruct (N.eqb_spec c ch_lt) as [Heq|_]; [congruence|]. by rewrite IH.
  - unfold strip_tags in *. simpl. by rewrite IH.
  - unfold strip_tags. simpl. by rewrite strip_tags_from_pending.
Qed.

Lemma strip_tags_from_sublist pending s :
  strip_tags_from pending s `sublist_of`
    match pending with None => [] | Some buf => ch_lt :: buf end ++ s.
Proof.
  revert pending. induction s as [|c s IH]; intros pending; simpl.
  - destruct pending; [by rewrite app_nil_r | done].
  - destruct pending as [buf|].
    + destruct (N.eqb_spec c ch_gt) as [->|Hc].
      * destruct buf.
        -- simpl. apply sublist_skip, sublist_skip, (IH None).
        -- pose proof (sublist_inserts_l (ch_lt :: n :: buf ++ [ch_gt]) _ _ (IH None))
             as H.
           simpl in H. rewrite <- app_assoc in H. exact H.
      * specialize (IH (Some (buf ++ [c]))). simpl in IH.
        by rewrite <- app_assoc in IH.
    + destruct (N.eqb_spec c ch_lt) as [->|Hc].
      * apply (IH (Some [])).
      * simpl. apply sublist_skip, (IH None).
Qed.

(** X18.  The removal of tags, step 3 of [handle_text], behaves as the
    substitution of the pattern of a tag does: text up to the first opening
    bracket is kept; an opening bracket, at least one character other than
    a closing bracket and the next closing bracket are dropped together; an
    opening bracket closed at once stays, and so does one that is never
    closed.  The result keeps characters of the text in their order, holds
    no tag, and a second removal changes nothing. *)
Theorem strip_tags_spec :
  (∀ pre s, ch_lt ∉ pre → strip_tags (pre ++ s) = pre ++ strip_tags s) ∧
  (∀ inner post, inner ≠ [] → ch_gt ∉ inner →
     strip_tags (ch_lt :: inner ++ ch_gt :: post) = strip_tags post) ∧
  (∀ post, strip_tags (ch_lt :: ch_gt :: post) = ch_lt :: ch_gt :: strip_tags post) ∧
  (∀ s, ch_gt ∉ s → strip_tags (ch_lt :: s) = ch_lt :: s) ∧
  (∀ s, ch_lt ∉ s → strip_tags s = s) ∧
  (∀ s, strip_tags s `sublist_of` s ∧ tagless (strip_tags s) ∧
        strip_tags (strip_tags s) = strip_tags s).
Proof.
  split; [exact strip_tags_text|].
  split; [intros inner post Hne Hin; by apply (strip_tags_from_close [])|].
  split; [done|].
  split; [intros s Hs; by apply (strip_tags_from_pending [])|].
  split.
  { intros s Hs. rewrite <- (app_nil_r s) at 1. rewrite strip_tags_text by done.
    apply app_nil_r. }
  intros s.
  assert (Htagless : tagless (strip_tags s)) by by apply strip_tags_from_tagless.
  split; [apply (strip_tags_from_sublist None)|]. split; [done|].
  by apply tagless_fixed.
Qed.

Lemma strip_tags_spec_witness :
  strip_tags (lit "An<b>n") = ann ∧
  strip_tags (lit "<b>") = [] ∧
  strip_tags (lit "<Ann") = lit "<Ann" ∧
  strip_tags ann = ann.
Proof.
  destruct strip_tags_spec as (Htext & Htag & _ & Hopen & Hplain & _).
  split; [|split; [|split]].
  - change (lit "An<b>n") with (lit "An" ++ ch_lt :: lit "b" ++ ch_gt :: lit "n").
    rewrite (Htext (lit "An")) by compute_done.
    rewrite (Htag (lit "b") (lit "n")); [|discriminate|compute_done].
    rewrite (Hplain (lit "n")) by compute_done. reflexivity.
  - apply (Htag (lit "b") []); [discriminate | compute_done].
  - apply (Hopen ann). compute_done.
  - apply Hplain. compute_done.
Defined.

(** ** The cleaned name: [clean_name] *)

Lemma list_filter_sublist (f : N → bool) (l : pystr) : List.filter f l `sublist_of` l.
Proof.
  induction l as [|c l IH]; [done|]. simpl.
  destruct (f c); [by apply sublist_skip | by apply sublist_cons].
Qed.

Lemma list_filter_all (f : N → bool) (l : pystr) :
  Forall (λ c, f c = true) l → List.filter f l = l.
Proof. induction 1 as [|c l Hc _ IH]; [done|]. simpl. by rewrite Hc, IH. Qed.

Lemma list_filter_Forall (f : N → bool) (l : pystr) :
  Forall (λ c, f c = true) (List.filter f l).
Proof.
  induction l as [|c l IH]; [done|]. simpl.
  destruct (f c) eqn:Hc; [by constructor | done].
Qed.

Lemma join_space_cons w w' ws :
  join_space (w :: w' :: ws) = w ++ ch_space :: join_space (w' :: ws).
Proof. done. Qed.

Lemma join_space_length w ws :
  (length (join_space (w :: ws)) ≤ length w + 1 + length (join_space ws))%nat.
Proof.
  destruct ws as [|w' ws]; [simpl; lia|].
  rewrite join_space_cons, length_app. simpl. lia.
Qed.

Lemma join_space_nil ws : Forall (λ w, w ≠ []) ws → join_space ws = [] → ws = [].
Proof.
  destruct 1 as [|w ws Hw _]; [done|]. destruct ws as [|w' ws]; [done|].
  rewrite join_space_cons. by destruct w.
Qed.

Lemma join_space_Forall (P : N → Prop) ws :
  P ch_space → Forall (Forall P) ws → Forall P (join_space ws).
Proof.
  intros Hspace. induction 1 as [|w ws Hw Hws IH]; [done|].
  destruct ws as [|w' ws]; [done|]. rewrite join_space_cons.
  apply Forall_app. split; [done|]. by constructor.
Qed.

Lemma strip_tags_from_length pending s :
  (length (strip_tags_from pending s) ≤
   match pending with None => 0 | Some buf => S (length buf) end + length s)%nat.
Proof.
  revert pending. induction s as [|c s IH]; intros pending; simpl.
  - destruct pending; simpl; lia.
  - destruct pending as [buf|].
    + destruct (c =? ch_gt)%N.
      * specialize (IH None). destruct buf; simpl in *; lia.
      * specialize (IH (Some (buf ++ [c]))).
        pose proof (length_app buf [c]) as Hlen. simpl in *. lia.
    + destruct (c =? ch_lt)%N.
      * specialize (IH (Some [])). simpl in IH. lia.
      * specialize (IH None). simpl in *. lia.
Qed.

Section CleanFacts.
Variable is_space : N → bool.
Variable is_alnum : N → bool.

Lemma split_from_words cur s :
  Forall (λ c, is_space c = false) cur →
  Forall (word is_space) (split_from is_space cur s).
Proof.
  revert cur. induction s as [|c s IH]; intros cur Hcur; simpl.
  - destruct cur; [done|]. apply Forall_cons. split; [by split | done].
  - destruct (is_space c) eqn:Hc.
    + destruct cur; [by apply IH|]. apply Forall_cons. split; [by split | by apply IH].
    + apply IH. apply Forall_app. split; [done|]. by apply Forall_singleton.
Qed.

Lemma split_from_concat cur s :
  concat (split_from is_space cur s) =
    cur ++ List.filter (λ c, negb (is_space c)) s.
Proof.
  revert cur. induction s as [|c s IH]; intros cur; simpl.
  - destruct cur; [done|]. simpl. by rewrite !app_nil_r.
  - destruct (is_space c) eqn:Hc; simpl.
    + destruct cur; [apply (IH [])|]. simpl. by rewrite (IH []).
    + rewrite IH. by rewrite <- app_assoc.
Qed.

Lemma split_from_length cur s :
  (length (join_space (split_from is_space cur s)) ≤ length cur + length s)%nat.
Proof.
  revert cur. induction s as [|c s IH]; intros cur; simpl.
  - destruct cur; simpl; lia.
  - destruct (is_space c).
    + specialize (IH []). destruct cur as [|x cur]; [simpl in *; lia|].
      pose proof (join_space_length (x :: cur) (split_from is_space [] s)).
      simpl in *. lia.
    + specialize (IH (cur ++ [c])). rewrite length_app in IH. simpl in IH. lia.
Qed.

Lemma split_from_word cur w s :
  Forall (λ c, is_space c = false) w →
  split_from is_space cur (w ++ s) = split_from is_space (cur ++ w) s.
Proof.
  intros Hw. revert cur. induction Hw as [|c w Hc _ IH]; intros cur; simpl.
  - by rewrite app_nil_r.
  - rewrite Hc, IH. by rewrite <- app_assoc.
Qed.

Lemma split_join ws :
  is_space ch_space = true → Forall (word is_space) ws →
  split is_space (join_space ws) = ws.
Proof.
  intros Hspace. unfold split. induction 1 as [|w ws [Hne Hw] Hws IH]; [done|].
  destruct ws as [|w' ws].
  - simpl. rewrite <- (app_nil_r w) at 1. rewrite split_from_word by done.
    simpl. by destruct w.
  - rewrite join_space_cons, split_from_word by done.
    destruct w as [|x w]; [done|]. cbn [app split_from]. by rewrite Hspace, IH.
Qed.

Lemma clean_name_length s : (length (clean_name is_space is_alnum s) ≤ length s)%nat.
Proof.
  unfold clean_name, split, strip_tags.
  pose proof (split_from_length []
                (List.filter (allowed_char is_space is_alnum) (strip_tags_from None s))).
  pose proof (List.filter_length_le (allowed_char is_space is_alnum)
                (strip_tags_from None s)).
  pose proof (strip_tags_from_length None s). simpl in *. lia.
Qed.

Lemma join_space_head ws c :
  Forall (word is_space) ws → head (join_space ws) = Some c → is_space c = false.
Proof.
  destruct 1 as [|w ws [Hne Hw] _]; [done|].
  assert (head (join_space (w :: ws)) = head w) as ->.
  { destruct ws; [done|]. rewrite join_space_cons. by destruct w. }
  intros Hc%head_Some_elem_of. by apply (proj1 (Forall_forall _ _) Hw).
Qed.

Lemma join_space_last ws c :
  Forall (word is_space) ws → last (join_space ws) = Some c → is_space c = false.
Proof.
  induction 1 as [|w ws [Hne Hw] Hws IH]; [done|].
  destruct ws as [|w' ws].
  - intros Hc%last_Some_elem_of. by apply (proj1 (Forall_forall _ _) Hw).
  - rewrite join_space_cons, last_app, last_cons.
    destruct (last (join_space (w' :: ws))) as [y|] eqn:Hy; [exact IH|].
    apply last_None, join_space_nil in Hy; [done|].
    eapply Forall_impl; [exact Hws|]. by intros ? [? _].
Qed.

(** X19.  The cleaned name, steps 3 to 5 of [handle_text], is a sequence
    of words joined by single spaces: each word is a non-empty run of
    allowed characters without whitespace, the words together keep
    characters of the text in their order, and the cleaned name is empty
    only when there is no word.  It neither begins nor ends with whitespace.
    When the tables take the space for whitespace, splitting the cleaned
    name gives the words back, and when they also do not allow the opening
    bracket, cleaning a cleaned name changes nothing. *)
Theorem cleaned_name_shape s :
  ∃ ws, clean_name is_space is_alnum s = join_space ws ∧
    Forall (word is_space) ws ∧
    Forall (Forall (λ c, allowed_char is_space is_alnum c = true)) ws ∧
    concat ws `sublist_of` s ∧
    (clean_name is_space is_alnum s = [] ↔ ws = []) ∧
    (∀ c, head (clean_name is_space is_alnum s) = Some c → is_space c = false) ∧
    (∀ c, last (clean_name is_space is_alnum s) = Some c → is_space c = false) ∧
    (is_space ch_space = true →
     split is_space (clean_name is_space is_alnum s) = ws ∧
     (allowed_char is_space is_alnum ch_lt = false →
      clean_name is_space is_alnum (clean_name is_space is_alnum s) =
        clean_name is_space is_alnum s)).
Proof.
  set (kept := List.filter (allowed_char is_space is_alnum) (strip_tags s)).
  exists (split is_space kept).
  assert (Hwords : Forall (word is_space) (split is_space kept))
    by by apply split_from_words.
  assert (Hconcat : concat (split is_space kept) =
            List.filter (λ c, negb (is_space c)) kept)
    by apply (split_from_concat []).
  assert (Hallowed : Forall (Forall (λ c, allowed_char is_space is_alnum c = true))
            (split is_space kept)).
  { apply Forall_forall. intros w Hw. apply Forall_forall. intros c Hc.
    assert (Hin : c ∈ concat (split is_space kept)).
    { apply list_elem_of_In, in_concat. exists w. by rewrite <- !list_elem_of_In. }
    rewrite Hconcat in Hin. apply list_elem_of_In, List.filter_In in Hin as [Hin _].
    apply List.filter_In in Hin as [_ Hin]. done. }
  assert (Hclean : clean_name is_space is_alnum s = join_space (split is_space kept))
    by done.
  rewrite !Hclean.
  split; [done|]. split; [done|]. split; [done|]. split.
  { rewrite Hconcat. etransitivity; [apply list_filter_sublist|].
    etransitivity; [apply list_filter_sublist|].
    apply (strip_tags_from_sublist None). }
  split.
  { split; [|by intros ->]. apply join_space_nil.
    eapply Forall_impl; [exact Hwords|]. by intros ? [? _]. }
  split; [intros c; by apply join_space_head|].
  split; [intros c; by apply join_space_last|].
  intros Hspace. split; [by apply split_join|]. intros Hlt.
  assert (Hchars : Forall (λ c, allowed_char is_space is_alnum c = true)
            (join_space (split is_space kept))).
  { apply join_space_Forall; [|done]. unfold allowed_char. by rewrite Hspace, !orb_true_r. }
  assert (Hnotag : ch_lt ∉ join_space (split is_space kept)).
  { intros Hin. apply (proj1 (Forall_forall _ _) Hchars) in Hin. congruence. }
  assert (Hsame : strip_tags (join_space (split is_space kept)) =
            join_space (split is_space kept)).
  { rewrite <- (app_nil_r (join_space (split is_space kept))) at 1.
    rewrite strip_tags_text by done. apply app_nil_r. }
  unfold clean_name. rewrite Hsame.
  rewrite list_filter_all by done. by rewrite split_join.
Qed.

(** X20.  The cleaned name is never longer than the text it was made
    from, so the truncation to 20 characters, step 7 of [handle_text], never
    shortens anything: a text is accepted exactly when its trimmed form has
    2 to 20 characters and its cleaned form is not empty, and the name
    stored is then the escaped cleaned form itself.  Every name in every
    state the bot reaches is the escaped cleaned form of such a text. *)
Theorem truncation_never_applies :
  (∀ text, length (clean_name is_space is_alnum text) ≤ length text)%nat ∧
  (∀ text safe,
     sanitize_name is_space is_alnum text = inr safe ↔
     (2 ≤ length (strip is_space text) ≤ 20)%nat ∧
     clean_name is_space is_alnum (strip is_space text) ≠ [] ∧
     safe = escape_html (clean_name is_space is_alnum (strip is_space text))) ∧
  (∀ admins_file photos_file es photo_id d uid n,
     photos_data (run is_space is_alnum (initial_state admins_file photos_file) es).1
       !! photo_id = Some d →
     get_users d !! uid = Some n →
     ∃ text, accepted_as is_space is_alnum text n).
Proof.
  assert (Hiff : ∀ text safe, sanitize_name is_space is_alnum text = inr safe ↔
            accepted_as is_space is_alnum text safe).
  { intros text safe. unfold accepted_as.
    pose proof (clean_name_length (strip is_space text)) as Hlen.
    split.
    - intros (Hbounds & Hne & ->)%sanitize_name_inr.
      split; [done|]. split; [done|]. rewrite take_ge; [done | lia].
    - intros (Hbounds & Hne & ->). unfold sanitize_name. simpl.
      destruct (strip is_space text) as [|c l] eqn:Hs; [simpl in Hbounds; lia|].
      cbn [str_falsy].
      destruct (Nat.ltb_spec 20 (length (c :: l))); [lia|].
      destruct (Nat.ltb_spec (length (c :: l)) 2); [lia|].
      destruct (clean_name is_space is_alnum (c :: l)) as [|x k] eqn:Hk; [done|].
      cbn [str_falsy].
      destruct (Nat.ltb_spec 20 (length (x :: k))); [lia | done]. }
  split; [exact clean_name_length|]. split; [exact Hiff|].
  intros admins_file photos_file es p d uid n Hd Hn.
  pose proof (run_ok (λ n, ∃ text, accepted_as is_space is_alnum text n)
                is_space is_alnum) as Hrun.
  destruct (Hrun (λ text safe H, ex_intro _ text (proj1 (Hiff text safe) H)) _ es
              (initial_state_ok _ admins_file photos_file)) as [Hitems _].
  destruct (Hitems _ _ Hd) as [_ Hnames]. exact (Hnames _ _ Hn).
Qed.
End CleanFacts.

Lemma cleaned_name_shape_witness :
  clean_name ascii_isspace ascii_isalnum (lit " Ann  <b>Lee! ") = lit "Ann Lee" ∧
  clean_name ascii_isspace ascii_isalnum
    (clean_name ascii_isspace ascii_isalnum (lit " Ann  <b>Lee! ")) =
  clean_name ascii_isspace ascii_isalnum (lit " Ann  <b>Lee! ").
Proof.
  destruct (cleaned_name_shape ascii_isspace ascii_isalnum (lit " Ann  <b>Lee! "))
    as (ws & _ & _ & _ & _ & _ & _ & _ & Hspace).
  destruct Hspace as [_ Hidem]; [vm_compute; reflexivity|].
  split; [vm_compute; reflexivity|].
  apply Hidem. vm_compute. reflexivity.
Defined.

Lemma truncation_never_applies_witness :
  sanitize_name ascii_isspace ascii_isalnum (lit " Ann ") =
    inr (escape_html (clean_name ascii_isspace ascii_isalnum
                        (strip ascii_isspace (lit " Ann ")))) ∧
  ∃ text, accepted_as ascii_isspace ascii_isalnum text ann.
Proof.
  destruct (truncation_never_applies ascii_isspace ascii_isalnum) as (_ & Hiff & Hreach).
  split.
  - apply Hiff. split; [vm_compute; lia|]. split; [discriminate | reflexivity].
  - apply (Hreach None None events_ann "photo_1" entry_ann 10 ann).
    + vm_compute. reflexivity.
    + vm_compute. reflexivity.
Defined.

(** ** Escaping: [escape_html] *)

Lemma escape_char_no_markup c : Forall (λ x, markup_char x = false) (escape_char c).
Proof.
  unfold escape_char, markup_char.
  repeat match goal with
         | |- context [if (?a =? ?b)%N then _ else _] => destruct (N.eqb_spec a b)
         end; try by repeat constructor.
  apply Forall_singleton.
  repeat match goal with
         | |- context [(?a =? ?b)%N] => destruct (N.eqb_spec a b); [done|]
         end.
  done.
Qed.

Lemma escape_char_plain c : escaped_char c = false → escape_char c = [c].
Proof.
  unfold escaped_char, markup_char, escape_char.
  repeat match goal with
         | |- context [(?a =? ?b)%N] => destruct (N.eqb_spec a b); [done|]
         end.
  done.
Qed.

Lemma escape_char_inj c d x y :
  escape_char c ++ x = escape_char d ++ y → c = d ∧ x = y.
Proof.
  unfold escape_char.
  repeat match goal with
         | |- context [if (?a =? ?b)%N then _ else _] => destruct (N.eqb_spec a b)
         end;
    unfold ch_amp, ch_lt, ch_gt, ch_quot, ch_apos in *; cbn;
    intros [=]; subst; done.
Qed.

Lemma escape_html_inj a b : escape_html a = escape_html b → a = b.
Proof.
  revert b. induction a as [|c a IH]; intros [|d b] H.
  - done.
  - symmetry in H. by apply escape_html_nonempty in H.
  - by apply escape_html_nonempty in H.
  - unfold escape_html in H. simpl in H.
    apply escape_char_inj in H as [-> H]. f_equal. by apply IH.
Qed.

(** X21.  The escaping, step 8 of [handle_text]: the escaped text holds no
    angle bracket and no quotation mark, a text without the five escaped
    characters is left as it is, and different texts have different escaped
    forms.  So in every state the bot reaches from any stored files, no name
    of a registered or of a confirmed participant holds an angle bracket or
    a quotation mark. *)
Theorem stored_names_have_no_markup (is_space is_alnum : N → bool) :
  (∀ text, Forall (λ c, markup_char c = false) (escape_html text)) ∧
  (∀ text, Forall (λ c, escaped_char c = false) text → escape_html text = text) ∧
  (∀ a b, escape_html a = escape_html b → a = b) ∧
  (∀ admins_file photos_file es photo_id d,
     photos_data (run is_space is_alnum (initial_state admins_file photos_file) es).1
       !! photo_id = Some d →
     (∀ uid n, get_users d !! uid = Some n → Forall (λ c, markup_char c = false) n) ∧
     (∀ x, x ∈ get_confirmed d → Forall (λ c, markup_char c = false) (name x))).
Proof.
  assert (Hescaped : ∀ text, Forall (λ c, markup_char c = false) (escape_html text)).
  { intros text. unfold escape_html. induction text as [|c text IH]; [done|]. simpl.
    apply Forall_app. split; [apply escape_char_no_markup | done]. }
  split; [done|]. split.
  { intros text. unfold escape_html. induction 1 as [|c text Hc _ IH]; [done|]. simpl.
    by rewrite (escape_char_plain c Hc), IH. }
  split; [exact escape_html_inj|].
  intros admins_file photos_file es p d Hd.
  pose proof (run_ok (λ n, Forall (λ c, markup_char c = false) n) is_space is_alnum)
    as Hrun.
  destruct (Hrun (λ text safe H,
                    eq_ind_r (Forall (λ c, markup_char c = false))
                      (Hescaped _)
                      (proj2 (proj2 (sanitize_name_inr is_space is_alnum text safe H))))
              _ es (initial_state_ok _ admins_file photos_file)) as [Hitems _].
  destruct (Hitems _ _ Hd) as [Hinv Hnames]. split; [exact Hnames|].
  intros x Hx. apply (Hnames (user_id x)). by apply (inv_registered d Hinv).
Qed.

Lemma stored_names_have_no_markup_witness :
  escape_html ann = ann ∧
  ∀ uid n,
    get_users (set_users (new_entry "file-1" "uniq-1")
                 {[ 10 := lit "D&#39;Artagnan d&#39;Herblay" ]}) !! uid = Some n →
    Forall (λ c, markup_char c = false) n.
Proof.
  destruct (stored_names_have_no_markup ascii_isspace ascii_isalnum)
    as (_ & Hplain & _ & Hreach).
  split; [apply Hplain; repeat constructor|].
  intros uid n Hn.
  destruct (Hreach None None events_apostrophes "photo_1"
              (set_confirmed (set_users (new_entry "file-1" "uniq-1")
                 {[ 10 := lit "D&#39;Artagnan d&#39;Herblay" ]})
                 [ConfirmedUser 10 (lit "D&#39;Artagnan d&#39;Herblay")]))
    as [Hnames _].
  { vm_compute. reflexivity. }
  by apply (Hnames uid n).
Defined.

(** ** Photos are never overwritten *)

Lemma numbered_same_keys k (photos photos' : gmap string photo_entry) :
  (∀ key, is_Some (photos' !! key) ↔ is_Some (photos !! key)) →
  numbered k photos → numbered k photos'.
Proof.
  intros Hkeys [Hsize Hnames]. split.
  - rewrite <- Hsize, <- !(size_dom (D:=gset string)). f_equal.
    apply set_eq. intros key. by rewrite !elem_of_dom.
  - intros key Hkey. by apply Hnames, Hkeys.
Qed.

Lemma numbered_fresh k (photos : gmap string photo_entry) :
  numbered k photos → photos !! next_photo_id photos = None.
Proof.
  intros [Hsize Hnames]. unfold next_photo_id. rewrite Hsize.
  destruct (photos !! _) eqn:E; [|done].
  destruct (Hnames ("photo_" +:+ pretty (k + 1)%nat)) as (i & Hi & Heq); [by eexists|].
  apply photo_name_inj in Heq. lia.
Qed.

Lemma insert_keys (photos : gmap string photo_entry) photo_id d key :
  is_Some (photos !! photo_id) →
  is_Some (<[photo_id := d]> photos !! key) ↔ is_Some (photos !! key).
Proof.
  intros Hthere. rewrite lookup_insert. case_decide as Hk; [|done].
  subst. split; [done | by eexists].
Qed.

Lemma on_entry_keys s photo_id op key :
  is_Some (photos_data (on_entry s photo_id op).1 !! key) ↔
  is_Some (photos_data s !! key).
Proof.
  unfold on_entry. destruct (photos_data s !! photo_id) as [d|] eqn:Hd; [|done].
  destruct (op d) as [d' r]. simpl. apply insert_keys. by eexists.
Qed.

Section Numbered.
Variable is_space : N → bool.
Variable is_alnum : N → bool.

Lemma handle_text_keys s sender text key :
  is_Some (photos_data (handle_text is_space is_alnum s sender text).1 !! key) ↔
  is_Some (photos_data s !! key).
Proof.
  unfold handle_text. destruct (user_data s !! sender) as [[p uid]|]; [|done]. simpl.
  destruct (photos_data s !! p) as [d|] eqn:Hd; [|done].
  destruct (sanitize_name is_space is_alnum text); [done|].
  destruct (store_name d uid _) as [d' r]. simpl. apply insert_keys. by eexists.
Qed.

Lemma step_numbered s e k :
  numbered k (photos_data s) →
  ∃ k', numbered k' (photos_data (step is_space is_alnum s e).1).
Proof.
  intros Hnum. destruct e as [uid|uid arg|uid arg|uid|uid f u|uid text|uid data]; simpl.
  - exists k. unfold start.
    repeat match goal with |- context [if ?b then _ else _] => destruct b end; done.
  - exists k. unfold add_admin.
    repeat match goal with
           | |- context [if ?b then _ else _] => destruct b
           | |- context [match ?a with NoArg => _ | _ => _ end] => destruct a
           end; done.
  - exists k. unfold remove_admin.
    repeat match goal with
           | |- context [if ?b then _ else _] => destruct b
           | |- context [match ?a with NoArg => _ | _ => _ end] => destruct a
           end; done.
  - exists k. unfold clear_names.
    destruct (negb (is_admin s uid)); [done|].
    destruct (bool_decide (photos_data s = ∅)); [done|]. simpl.
    apply (numbered_same_keys k (photos_data s)); [|done].
    intros key. by rewrite lookup_fmap, fmap_is_Some.
  - unfold handle_photo. destruct (negb (is_admin s uid)); [by exists k|]. simpl.
    exists (S k). unfold next_photo_id. destruct Hnum as [Hsize Hnames].
    rewrite Hsize. by apply numbered_insert.
  - exists k. apply (numbered_same_keys k (photos_data s)); [|done].
    intros key. apply handle_text_keys.
  - destruct data as [|p t|p t|p|p|p]; simpl.
    + destruct (negb (is_admin s uid)); [by exists k|]. exists 0%nat. simpl.
      split; [done|]. intros key [? Hkey]. by rewrite lookup_empty in Hkey.
    + exists k. destruct (negb (is_admin s uid)); [done|].
      apply (numbered_same_keys k (photos_data s)); [|done].
      intros key. apply on_entry_keys.
    + exists k. destruct (negb (is_admin s uid)); [done|].
      apply (numbered_same_keys k (photos_data s)); [|done].
      intros key. apply on_entry_keys.
    + exists k. apply (numbered_same_keys k (photos_data s)); [|done].
      intros key. apply on_entry_keys.
    + exists k. destruct (photos_data s !! p) as [d|]; [|done].
      by destruct (get_users d !! uid).
    + exists k. apply (numbered_same_keys k (photos_data s)); [|done].
      intros key. apply on_entry_keys.
Qed.

Lemma run_numbered s es k :
  numbered k (photos_data s) →
  ∃ k', numbered k' (photos_data (run is_space is_alnum s es).1).
Proof.
  revert s k. induction es as [|e es IH]; intros s k Hnum; [by exists k|]. simpl.
  destruct (step_numbered s e k Hnum) as [k1 H1].
  destruct (step is_space is_alnum s e) as [s1 r]. simpl in H1.
  destruct (IH s1 k1 H1) as [k2 H2].
  destruct (run is_space is_alnum s1 es) as [s2 rs]. by exists k2.
Qed.
End Numbered.

(** X22.  Photo identifiers stay the numbers 1 to k.  When the stored
    photos are exactly photo_1 to photo_k, they are so again, for some k,
    after every event and after a restart from the saved files; in
    particular they are in every state reached from a start without a
    photos file.  In such a state the identifier given to a new photo is not
    in use, so [handle_photo] adds an entry and leaves every stored photo,
    with its participants, as it was. *)
Theorem photos_never_overwritten (is_space is_alnum : N → bool) :
  (∀ admins_file es,
     ∃ k, numbered k
            (photos_data (run is_space is_alnum (initial_state admins_file None) es).1)) ∧
  (∀ s k es, numbered k (photos_data s) →
     ∃ k', numbered k' (photos_data (run is_space is_alnum s es).1)) ∧
  (∀ s k, numbered k (photos_data s) → numbered k (photos_data (restart s))) ∧
  (∀ s k uid file_id file_unique_id,
     numbered k (photos_data s) → uid ∈ admins s →
     photos_data s !! next_photo_id (photos_data s) = None ∧
     (handle_photo s uid file_id file_unique_id).2 = PhotoAdded (photo_name (k + 1)) ∧
     size (photos_data (handle_photo s uid file_id file_unique_id).1) = S k ∧
     ∀ photo_id d, photos_data s !! photo_id = Some d →
       photos_data (handle_photo s uid file_id file_unique_id).1 !! photo_id = Some d).
Proof.
  split; [|split; [|split]].
  - intros admins_file es. apply (run_numbered is_space is_alnum _ es 0).
    split; [done|]. intros key [? Hkey]. simpl in Hkey. by rewrite lookup_empty in Hkey.
  - intros s k es. apply run_numbered.
  - intros s k. apply numbered_same_keys. intros key.
    assert (Hload : photos_data (restart s) =
              load_photos_data (Some (save_photos_data (photos_data s)))) by done.
    by rewrite Hload, load_save_lookup, fmap_is_Some.
  - intros s k uid f u Hnum Hadmin.
    pose proof (numbered_fresh k _ Hnum) as Hfresh.
    rewrite (handle_photo_admin s uid f u Hadmin). simpl.
    destruct Hnum as [Hsize Hnames]. rewrite Hsize.
    split; [done|]. split; [done|]. split.
    + rewrite map_size_insert_None; [by rewrite Hsize|].
      unfold next_photo_id in Hfresh. by rewrite Hsize in Hfresh.
    + intros p d Hd. rewrite lookup_insert_ne; [done|]. intros <-.
      unfold next_photo_id in Hfresh. rewrite Hsize in Hfresh.
      unfold photo_name in Hd. congruence.
Qed.

Lemma state_two_photos_numbered : numbered 2 (photos_data state_two_photos).
Proof.
  assert (Hphotos : photos_data state_two_photos =
            <["photo_2" := new_entry "file-2" "uniq-2"]>
              {[ "photo_1" := new_entry "file-1" "uniq-1" ]})
    by (vm_compute; reflexivity).
  rewrite Hphotos. split; [vm_compute; reflexivity|].
  intros key. rewrite lookup_insert. case_decide as H2.
  - intros _. exists 2%nat. split; [lia|]. by subst.
  - rewrite lookup_singleton. case_decide as H1.
    + intros _. exists 1%nat. split; [lia|]. by subst.
    + by intros [? ?].
Qed.

Lemma photos_never_overwritten_witness :
  photos_data state_two_photos !! next_photo_id (photos_data state_two_photos) = None ∧
  (handle_photo state_two_photos 1 "file-3" "uniq-3").2 = PhotoAdded (photo_name 3) ∧
  size (photos_data (handle_photo state_two_photos 1 "file-3" "uniq-3").1) = 3%nat.
Proof.
  destruct (photos_never_overwritten ascii_isspace ascii_isalnum) as (_ & _ & _ & Hadd).
  destruct (Hadd state_two_photos 2%nat 1 "file-3" "uniq-3" state_two_photos_numbered)
    as (Hfresh & Hreply & Hsize & _).
  { compute_done. }
  split; [exact Hfresh|]. split; [exact Hreply | exact Hsize].
Defined.

(** ** Automatic and explicit confirmation *)

Lemma confirm_recorded d uid n :
  confirm (name_recorded d uid n) uid =
    if Z.of_nat MAX_CONFIRMED_USERS <=? Z.of_nat (length (get_confirmed d)) then
      (name_recorded d uid n, Failed CapacityFull)
    else if is_confirmed_in uid (get_confirmed d) then
      (name_recorded d uid n, Failed AlreadyConfirmed)
    else
      (set_confirmed (name_recorded d uid n) (get_confirmed d ++ [ConfirmedUser uid n]),
       Confirmed (Z.of_nat (length (get_confirmed d ++ [ConfirmedUser uid n])) - 1)
         (get_user_icon (Z.of_nat (length (get_confirmed d ++ [ConfirmedUser uid n])) - 1))).
Proof.
  unfold confirm, name_recorded.
  rewrite get_users_set_confirmed, get_users_set_users, lookup_insert_eq.
  by rewrite get_confirmed_set_confirmed.
Qed.

(** X23.  The confirmation that [handle_text] gives at once to a new
    registrant is the explicit one: with a place free and the participant
    not confirmed, storing the name gives the entry, the position and the
    icon that recording the name and pressing the confirm button would
    give; with the list full the name is recorded, the participant waits and
    the button would answer that the list is full.  The third answer of
    [handle_text], for a participant who is confirmed already, is never given
    in a state the bot reaches. *)
Theorem auto_confirm_matches_confirm (is_space is_alnum : N → bool) :
  (∀ d uid n,
     (is_confirmed_in uid (get_confirmed d) = false →
      (length (get_confirmed d) < MAX_CONFIRMED_USERS)%nat →
      ∃ position, position = Z.of_nat (length (get_confirmed d)) ∧
        confirm (name_recorded d uid n) uid =
          ((store_name d uid n).1, Confirmed position (get_user_icon position)) ∧
        (store_name d uid n).2 = SavedAutoConfirmed position (get_user_icon position)) ∧
     (is_confirmed_in uid (get_confirmed d) = false →
      (MAX_CONFIRMED_USERS ≤ length (get_confirmed d))%nat →
      store_name d uid n = (name_recorded d uid n, SavedWaiting) ∧
      confirm (name_recorded d uid n) uid = (name_recorded d uid n, Failed CapacityFull)) ∧
     (is_confirmed_in uid (get_confirmed d) = true →
      store_name d uid n =
        (name_recorded d uid n, SavedAlreadyConfirmed (position_of uid (get_confirmed d))) ∧
      (confirm (name_recorded d uid n) uid).1 = name_recorded d uid n)) ∧
  (∀ admins_file photos_file es sender text position,
     (handle_text is_space is_alnum
        (run is_space is_alnum (initial_state admins_file photos_file) es).1
        sender text).2 ≠ SavedAlreadyConfirmed position).
Proof.
  split.
  - intros d uid n. split; [|split].
    + intros Hout Hroom. exists (Z.of_nat (length (get_confirmed d))). split; [done|].
      rewrite confirm_recorded. unfold store_name. rewrite Hout. simpl.
      destruct (Z.leb_spec (Z.of_nat MAX_CONFIRMED_USERS)
                  (Z.of_nat (length (get_confirmed d)))); [lia|].
      destruct (Z.ltb_spec (Z.of_nat (length (get_confirmed d)))
                  (Z.of_nat MAX_CONFIRMED_USERS)); [|lia].
      simpl. rewrite length_app. simpl.
      replace (Z.of_nat (length (get_confirmed d) + 1) - 1)
        with (Z.of_nat (length (get_confirmed d))) by lia.
      replace (Z.of_nat (length (get_confirmed d)) + 1 - 1)
        with (Z.of_nat (length (get_confirmed d))) by lia.
      done.
    + intros Hout Hfull. rewrite confirm_recorded. unfold store_name. rewrite Hout. simpl.
      destruct (Z.leb_spec (Z.of_nat MAX_CONFIRMED_USERS)
                  (Z.of_nat (length (get_confirmed d)))); [|lia].
      destruct (Z.ltb_spec (Z.of_nat (length (get_confirmed d)))
                  (Z.of_nat MAX_CONFIRMED_USERS)); [lia|]. done.
    + intros Hin. rewrite confirm_recorded. unfold store_name. rewrite Hin. simpl.
      split; [done|]. by destruct (_ <=? _).
  - intros admins_file photos_file es sender text position.
    pose proof (run_ok nonempty is_space is_alnum
                  (sanitize_name_nonempty is_space is_alnum) _ es
                  (initial_state_ok nonempty admins_file photos_file)) as [Hitems Hpend].
    set (s := (run is_space is_alnum (initial_state admins_file photos_file) es).1) in *.
    unfold handle_text.
    destruct (user_data s !! sender) as [[p uid]|] eqn:Hs; [|done]. simpl.
    destruct (photos_data s !! p) as [d|] eqn:Hd; [|done].
    destruct (sanitize_name is_space is_alnum text) as [e|safe]; [done|].
    destruct (Hpend sender p uid Hs) as [-> Hfree].
    assert (Hout : is_confirmed_in sender (get_confirmed d) = false).
    { apply is_confirmed_in_false.
      apply (not_registered_not_confirmed d); [apply (Hitems p d Hd) | by apply Hfree]. }
    unfold store_name. rewrite Hout. simpl.
    by destruct (_ <? _).
Qed.

Lemma auto_confirm_matches_confirm_witness :
  confirm (name_recorded entry_ann 11 bob) 11 =
    ((store_name entry_ann 11 bob).1, Confirmed 1 icon_sun_cloud) ∧
  store_name entry_full 6 bob = (name_recorded entry_full 6 bob, SavedWaiting).
Proof.
  destruct (auto_confirm_matches_confirm ascii_isspace ascii_isalnum) as [Hsame _].
  destruct (Hsame entry_ann 11 bob) as (Hroom & _).
  destruct (Hsame entry_full 6 bob) as (_ & Hfull & _).
  destruct Hroom as (position & Hposition & Hconfirm & _);
    [vm_compute; reflexivity | vm_compute; lia |].
  destruct Hfull as [Hwaiting _]; [vm_compute; reflexivity | vm_compute; lia |].
  split; [|exact Hwaiting].
  rewrite Hconfirm, Hposition. reflexivity.
Defined.
